(** * Huskers MBB schedule: extractor and normalizer

    A shallow embedding of [scripts/scrape_huskers_mbb.py] (the Extractor) and
    [scripts/normalize_mbb_schedule.py] (the Normalizer), with the properties
    the schedule specification states about them.

    Text.  A Python [str] is modelled by [string]; a character is a code point
    below 256 (Latin-1), which is what one [ascii] holds.  The character
    classes below are Python's own on that range: [str.isspace] and the
    regular-expression classes [\s], [\d], [\w], and [str.lower].  Beyond
    that range Python's case mapping reaches into ASCII: [str.lower] takes
    U+212A to k, and under [re.I] the letter s also matches U+017F.
    Statements about the case of letters are therefore put on the
    lower-cased text, or on text of ASCII, where they hold of every [str].

    Time.  [datetime.fromisoformat], [astimezone] and [datetime.now] belong to
    the Python library, not to the repository: the Normalizer takes them as
    parameters, and [Central] gives a reference instance for the timestamps
    the Extractor writes. *)

From Stdlib Require Import ZArith NArith List Bool Ascii String Lia.
From Stdlib Require Import Sorted Permutation DecimalString.
Import ListNotations.

Local Open Scope string_scope.
Local Open Scope Z_scope.

(** ** Python text primitives *)

Module Text.

Definition code (c : ascii) : N := N_of_ascii c.

Definition between (lo hi : N) (c : ascii) : bool :=
  ((lo <=? code c) && (code c <=? hi))%N.

(** [str.isspace], also the class [\s]. *)
Definition is_space (c : ascii) : bool :=
  between 9 13 c || between 28 32 c || (code c =? 133)%N || (code c =? 160)%N.

(** The class [\d]. *)
Definition is_digit (c : ascii) : bool := between 48 57 c.

Definition is_upper (c : ascii) : bool := between 65 90 c.
Definition is_lower (c : ascii) : bool := between 97 122 c.

(** The class [[A-Za-z]]. *)
Definition is_alpha (c : ascii) : bool := is_upper c || is_lower c.

(** The class [[a-z0-9]]. *)
Definition is_slug_char (c : ascii) : bool := is_lower c || is_digit c.

(** The class [\w]: alphanumeric code points and the underscore. *)
Definition is_word (c : ascii) : bool :=
  is_alpha c || is_digit c || (code c =? 95)%N
  || (code c =? 170)%N || between 178 179 c || (code c =? 181)%N
  || between 185 186 c || between 188 190 c
  || between 192 214 c || between 216 246 c || between 248 255 c.

(** [str.lower] on one character. *)
Definition lower_char (c : ascii) : ascii :=
  if is_upper c || between 192 214 c || between 216 222 c
  then ascii_of_N (code c + 32) else c.

Fixpoint map (f : ascii -> ascii) (s : string) : string :=
  match s with
  | EmptyString => EmptyString
  | String c r => String (f c) (map f r)
  end.

Definition lower (s : string) : string := map lower_char s.

Fixpoint all (p : ascii -> bool) (s : string) : bool :=
  match s with
  | EmptyString => true
  | String c r => p c && all p r
  end.

Fixpoint any (p : ascii -> bool) (s : string) : bool :=
  match s with
  | EmptyString => false
  | String c r => p c || any p r
  end.

Fixpoint take_while (p : ascii -> bool) (s : string) : string :=
  match s with
  | EmptyString => EmptyString
  | String c r => if p c then String c (take_while p r) else EmptyString
  end.

Fixpoint drop_while (p : ascii -> bool) (s : string) : string :=
  match s with
  | EmptyString => EmptyString
  | String c r => if p c then drop_while p r else s
  end.

Fixpoint rstrip_with (p : ascii -> bool) (s : string) : string :=
  match s with
  | EmptyString => EmptyString
  | String c r =>
      match rstrip_with p r with
      | EmptyString => if p c then EmptyString else String c EmptyString
      | r' => String c r'
      end
  end.

(** Python truthiness of a [str]. *)
Definition truthy (s : string) : bool := negb (s =? "")%string.

(** [s.strip()] and [s.strip("-")]. *)
Definition strip_with (p : ascii -> bool) (s : string) : string :=
  rstrip_with p (drop_while p s).
Definition strip (s : string) : string := strip_with is_space s.
Definition is_dash (c : ascii) : bool := (c =? "-")%char.

(** [s.startswith(p)]. *)
Definition startswith (s p : string) : bool := String.prefix p s.

(** [p in s] for strings. *)
Fixpoint contains (s p : string) : bool :=
  String.prefix p s
  || match s with
     | EmptyString => false
     | String _ r => contains r p
     end.

(** [s[:n]] and [s[n:]]. *)
Fixpoint take (n : nat) (s : string) : string :=
  match n, s with
  | S k, String c r => String c (take k r)
  | _, _ => EmptyString
  end.

Fixpoint drop (n : nat) (s : string) : string :=
  match n, s with
  | S k, String _ r => drop k r
  | _, _ => s
  end.

(** [s.replace(old, new)] for a one-character [old]. *)
Fixpoint replace_char (old : ascii) (new : string) (s : string) : string :=
  match s with
  | EmptyString => EmptyString
  | String c r =>
      if (c =? old)%char then new ++ replace_char old new r
      else String c (replace_char old new r)
  end.

(** [s.split()]: the maximal runs of non-space characters. *)
Definition at_gap (s : string) : bool :=
  match s with
  | EmptyString => true
  | String d _ => is_space d
  end.

Fixpoint split_ws (s : string) : list string :=
  match s with
  | EmptyString => []
  | String c r =>
      let ws := split_ws r in
      if is_space c then ws
      else if at_gap r then String c "" :: ws
      else match ws with
           | w :: ws' => String c w :: ws'
           | [] => [String c ""]
           end
  end.

(** [" ".join(s.split())], the scraper's [clean] on a [str]. *)
Definition clean (s : string) : string := String.concat " " (split_ws s).

(** [int(s)] on a string of decimal digits. *)
Definition digit_val (c : ascii) : Z := Z.of_N (code c) - 48.

Fixpoint int_acc (acc : Z) (s : string) : Z :=
  match s with
  | EmptyString => acc
  | String c r => int_acc (10 * acc + digit_val c) r
  end.

Definition int_of (s : string) : Z := int_acc 0 s.

(** [str(n)] for [n >= 0] and the format [f"{n:0<w>d}"]. *)
Definition decimal (n : Z) : string :=
  NilZero.string_of_uint (N.to_uint (Z.to_N n)).

Fixpoint zeros (n : nat) : string :=
  match n with
  | O => EmptyString
  | S k => String "0" (zeros k)
  end.

Definition zfill (width : nat) (s : string) : string :=
  zeros (width - String.length s) ++ s.

Definition fmt_d (width : nat) (n : Z) : string :=
  if n <? 0 then "-" ++ zfill (width - 1) (decimal (- n))
  else zfill width (decimal n).

End Text.

(** Python's [x or d] on an optional [str]. *)
Definition or_str (x : option string) (d : string) : string :=
  match x with
  | Some s => if Text.truthy s then s else d
  | None => d
  end.

(** [s or None], and [(x or "").strip() or None]. *)
Definition nonempty (s : string) : option string :=
  if Text.truthy s then Some s else None.

Definition stripped (x : option string) : option string :=
  nonempty (Text.strip (or_str x "")).

(** Ordering of [str] and of the pairs used as sort keys: Python compares
    strings code point by code point and tuples lexicographically. *)
Definition key : Type := (string * string)%type.

Definition key_ltb (a b : key) : bool :=
  if (fst a =? fst b)%string then String.ltb (snd a) (snd b)
  else String.ltb (fst a) (fst b).

Definition key_leb (a b : key) : bool :=
  if (fst a =? fst b)%string then String.leb (snd a) (snd b)
  else String.ltb (fst a) (fst b).

(** ** Data model *)

Record Link := { title : option string; href : string }.

(** A raw record, as the Extractor writes it and the Normalizer reads it,
    with the field types of the specification's data model.  A field holds
    [None] when its key is missing or [null]; the two list fields hold [[]]
    then.  A result holds both its keys, as the Extractor writes it. *)
Module Raw.

Record res := { outcome : string; sets : string }.

Record item := {
  date : option string;
  date_text : option string;
  time_local : option string;
  venue_type : option string;
  nu_rank : option Z;
  opp_rank : option Z;
  opponent_name : option string;
  city : option string;
  arena : option string;
  nebraska_logo_url : option string;
  opponent_logo_url : option string;
  tv_network_logo_url : option string;
  networks : list string;
  status : option string;
  result : option res;
  links : list Link;
  divider_text : option string
}.

End Raw.

(** A canonical schedule row, as the Normalizer emits it. *)
Module Canon.

Record row := {
  date : string;
  time_local : option string;
  home_away : string;
  nu_rank : option Z;
  opponent : string;
  opp_rank : option Z;
  title : string;
  arena : option string;
  city : option string;
  arena_key : string;
  nu_logo : option string;
  opp_logo : option string;
  tv_logo : option string;
  tv : list string;
  status : string;
  result : option string;
  result_css : option string;
  notes : option string;
  links : list Link
}.

End Canon.

(** The civil fields of a [datetime]; [month] is 1..12 in Python. *)
Record datetime := {
  year : Z; month : Z; day : Z; hour : Z; minute : Z; second : Z
}.

(** ** The Normalizer: [normalize_mbb_schedule.py] *)

Definition MONTH_IDX : list (string * Z) :=
  [("jan", 1); ("feb", 2); ("mar", 3); ("apr", 4); ("may", 5); ("jun", 6);
   ("jul", 7); ("aug", 8); ("sep", 9); ("oct", 10); ("nov", 11); ("dec", 12)].

Fixpoint dict_get {V : Type} (d : list (string * V)) (k : string) : option V :=
  match d with
  | [] => None
  | (k', v) :: d' => if (k' =? k)%string then Some v else dict_get d' k
  end.

(** The text starts with a character of the class [p]. *)
Definition at_run (p : ascii -> bool) (s : string) : bool :=
  match s with
  | EmptyString => false
  | String d _ => p d
  end.

(** [re.sub(r"<class>+", "-", s)]: every maximal run of characters of the
    class [p] becomes one dash. *)
Fixpoint sub_runs (p : ascii -> bool) (s : string) : string :=
  match s with
  | EmptyString => EmptyString
  | String c r =>
      if p c then (if at_run p r then sub_runs p r else String "-" (sub_runs p r))
      else String c (sub_runs p r)
  end.

Definition slug (s : string) : string :=
  let s := Text.strip (Text.lower s) in
  let s := sub_runs (fun c => negb (Text.is_slug_char c)) s in
  Text.strip_with Text.is_dash (sub_runs Text.is_dash s).

Definition detect_season_start_year (scraped : datetime) : Z :=
  if month scraped <=? 3 then year scraped - 1 else year scraped.

(** The class [[A-Za-z.]], and the group [\d{1,2}] at the start of a text. *)
Definition is_month_char (c : ascii) : bool :=
  Text.is_alpha c || (c =? ".")%char.

Definition take_digits2 (s : string) : string :=
  Text.take 2 (Text.take_while Text.is_digit s).

(** [re.match(r"\s*([A-Za-z.]+)\s+(\d{1,2})\s*$", label)]: the two groups.
    The three classes are disjoint, so each greedy run is the only choice. *)
Definition match_date_label (label : string) : option (string * string) :=
  let s1 := Text.drop_while Text.is_space label in
  let tok := Text.take_while is_month_char s1 in
  let s2 := Text.drop_while is_month_char s1 in
  let s3 := Text.drop_while Text.is_space s2 in
  let dig := take_digits2 s3 in
  let s4 := Text.drop (String.length dig) s3 in
  if Text.truthy tok && at_run Text.is_space s2 && Text.truthy dig
     && Text.all Text.is_space s4
  then Some (tok, dig) else None.

(** [f"{year:04d}-{mon:02d}-{day:02d}"]. *)
Definition iso_format (year mon day : Z) : string :=
  Text.fmt_d 4 year ++ "-" ++ Text.fmt_d 2 mon ++ "-" ++ Text.fmt_d 2 day.

Definition parse_date_from_text (label : option string) (season_start_year : Z)
  : option string :=
  match label with
  | None => None
  | Some label =>
      match match_date_label label with
      | None => None
      | Some (tok, dig) =>
          let mon_token := Text.replace_char "." "" tok in
          let mon_key := Text.lower (Text.take 3 mon_token) in
          match dict_get MONTH_IDX mon_key with
          | None => None
          | Some mon =>
              let day := Text.int_of dig in
              let year := if mon <? 8 then season_start_year + 1
                          else season_start_year in
              Some (iso_format year mon day)
          end
      end
  end.

(** The line feed, the one character [.] does not match. *)
Definition is_newline (c : ascii) : bool := (c =? "010")%char.

(** [.*$] matches here: the rest of the line ends the string, up to a final
    line feed. *)
Fixpoint line_to_end (s : string) : bool :=
  match s with
  | EmptyString => true
  | String c r => if is_newline c then (r =? "")%string else line_to_end r
  end.

Fixpoint ends_with_newline (s : string) : bool :=
  match s with
  | EmptyString => false
  | String c r => if (r =? "")%string then is_newline c else ends_with_newline r
  end.

(** [presented by\b.*$] matches at the start of [s], in either case. *)
Definition phrase_here (s : string) : bool :=
  (Text.lower (Text.take 12 s) =? "presented by")%string
  && negb (at_run Text.is_word (Text.drop 12 s))
  && line_to_end (Text.drop 12 s).

Definition suffix_here (s : string) : bool :=
  phrase_here (Text.drop_while Text.is_space s).

(** [re.sub(r"\s*presented by\b.*$", "", arena, flags=re.I)]: the leftmost
    position where the pattern matches, after the run of spaces there, cuts
    the text; a final line feed, before which [$] also holds, stays. *)
Fixpoint sub_presented_by (s : string) : string :=
  if suffix_here s then (if ends_with_newline s then String "010" "" else "")
  else match s with
       | EmptyString => EmptyString
       | String c r => String c (sub_presented_by r)
       end.

(** [rows.sort(key=...)]: Python's sort is stable and compares keys with
    [<]; stable insertion computes the same list. *)
Section Sort.
Context {A : Type} (key_of : A -> key).

Fixpoint insert_by (x : A) (l : list A) : list A :=
  match l with
  | [] => [x]
  | y :: l' =>
      if key_ltb (key_of y) (key_of x) then y :: insert_by x l'
      else x :: y :: l'
  end.

Fixpoint sort_by (l : list A) : list A :=
  match l with
  | [] => []
  | x :: l' => insert_by x (sort_by l')
  end.

(** Two elements in key order. *)
Definition ordered (a b : A) : Prop := key_leb (key_of a) (key_of b) = true.
End Sort.

(** The phrase and the prefix of the two filters, and the valid statuses. *)
Definition EXHIBITION : string := "opening night presented by scheels".
Definition PLACEHOLDER : string := "big ten ".
Definition STATUSES : list string := ["final"; "scheduled"; "tbd"].

(** An optional [str] that is truthy, else [None]. *)
Definition truthy_opt (x : option string) : option string :=
  match x with
  | Some s => nonempty s
  | None => None
  end.

Definition is_some {A : Type} (x : option A) : bool :=
  match x with Some _ => true | None => false end.

Definition in_list (s : string) (l : list string) : bool :=
  existsb (String.eqb s) l.

(** Lines 98-102: the record's own date, else the date of its label; a
    record with neither is skipped. *)
Definition resolve_date (season_start_year : Z) (it : Raw.item) : option string :=
  let date_iso :=
    match truthy_opt (Raw.date it) with
    | Some d => Some d
    | None => parse_date_from_text (Raw.date_text it) season_start_year
    end in
  truthy_opt date_iso.

(** Lines 107-109: the arena, stripped, without its sponsor suffix. *)
Definition clean_arena (it : Raw.item) : option string :=
  option_map (fun a => Text.strip (sub_presented_by a)) (stripped (Raw.arena it)).

(** Lines 113-117: the status, trusted when valid, else read off the
    result. *)
Definition derive_status (it : Raw.item) : string :=
  let res := is_some (Raw.result it) in
  let status := or_str (Raw.status it) (if res then "final" else "scheduled") in
  if in_list status STATUSES then status
  else if negb res then "scheduled" else "final".

(** The body of the loop of [normalize]: [None] stands for [continue]. *)
Definition normalize_item (season_start_year : Z) (it : Raw.item)
  : option Canon.row :=
  let raw_opp := Text.strip (or_str (Raw.opponent_name it) "") in
  if negb (Text.truthy raw_opp) then None else
  let opp_lower := Text.lower raw_opp in
  if Text.contains opp_lower EXHIBITION then None else
  if Text.startswith opp_lower PLACEHOLDER then None else
  match resolve_date season_start_year it with
  | None => None
  | Some date_iso =>
      let arena := clean_arena it in
      let res := Raw.result it in
      let opp := or_str (Some raw_opp) "TBA" in
      Some {|
        Canon.date := date_iso;
        Canon.time_local := Raw.time_local it;
        Canon.home_away := or_str (Raw.venue_type it) "N";
        Canon.nu_rank := Raw.nu_rank it;
        Canon.opponent := opp;
        Canon.opp_rank := Raw.opp_rank it;
        Canon.title := opp;
        Canon.arena := arena;
        Canon.city := stripped (Raw.city it);
        Canon.arena_key := slug (or_str arena "unknown");
        Canon.nu_logo := Raw.nebraska_logo_url it;
        Canon.opp_logo := Raw.opponent_logo_url it;
        Canon.tv_logo := Raw.tv_network_logo_url it;
        Canon.tv := Raw.networks it;
        Canon.status := derive_status it;
        Canon.result :=
          option_map (fun r => Raw.outcome r ++ " " ++ Raw.sets r) res;
        Canon.result_css :=
          match res with
          | Some r => if in_list (Raw.outcome r) ["W"; "L"; "T"]
                      then Some (Raw.outcome r) else None
          | None => None
          end;
        Canon.notes := None;
        Canon.links := Raw.links it
      |}
  end.

(** The rows gathered by a loop that appends or skips. *)
Fixpoint collect {A B : Type} (f : A -> option B) (l : list A) : list B :=
  match l with
  | [] => []
  | x :: l' =>
      match f x with
      | Some y => y :: collect f l'
      | None => collect f l'
      end
  end.

(** The key of line 154. *)
Definition sort_key (x : Canon.row) : key :=
  (or_str (Some (Canon.date x)) "9999-12-31",
   or_str (Canon.time_local x) "23:59").

Section Normalize.
(** [to_central s] is
    [datetime.fromisoformat(s).astimezone(CENTRAL)], [None] when it raises;
    [now] is [datetime.now(CENTRAL)] at the time of the run. *)
Variable to_central : string -> option datetime.
Variable now : datetime.

Definition scraped_datetime (scraped_at : option string) : datetime :=
  match to_central (Text.replace_char "Z" "+00:00" (or_str scraped_at "")) with
  | Some d => d
  | None => now
  end.

Definition season_of (scraped_at : option string) : Z :=
  detect_season_start_year (scraped_datetime scraped_at).

Definition normalize (items : list Raw.item) (scraped_at : option string)
  : list Canon.row :=
  sort_by sort_key (collect (normalize_item (season_of scraped_at)) items).
End Normalize.

(** ** A reference instance of the time library

    [Central.of_iso] answers for
    [datetime.fromisoformat(s).astimezone(CENTRAL)] (US Central time) on the
    timestamps the Extractor writes, [YYYY-MM-DDTHH:MM:SS[.ffffff]+00:00],
    from 2007 on (daylight time from the second Sunday of March, 02:00 local,
    to the first Sunday of November, 02:00 local).  Other texts are outside
    the instance, which answers [None] there as for a text that fails to
    parse. *)

Module Calendar.

Definition is_leap (y : Z) : bool :=
  ((y mod 4 =? 0) && negb (y mod 100 =? 0)) || (y mod 400 =? 0).

Definition days_in_month (y m : Z) : Z :=
  if m =? 2 then (if is_leap y then 29 else 28)
  else if (m =? 4) || (m =? 6) || (m =? 9) || (m =? 11) then 30 else 31.

(** Day number of a civil date, 1970-01-01 being day 0, and back. *)
Definition days_from_civil (y m d : Z) : Z :=
  let y := if m <=? 2 then y - 1 else y in
  let era := y / 400 in
  let yoe := y - era * 400 in
  let mp := (m + 9) mod 12 in
  let doy := (153 * mp + 2) / 5 + d - 1 in
  let doe := yoe * 365 + yoe / 4 - yoe / 100 + doy in
  era * 146097 + doe - 719468.

Definition civil_from_days (z : Z) : Z * Z * Z :=
  let z := z + 719468 in
  let era := z / 146097 in
  let doe := z - era * 146097 in
  let yoe := (doe - doe / 1460 + doe / 36524 - doe / 146096) / 365 in
  let doy := doe - (365 * yoe + yoe / 4 - yoe / 100) in
  let mp := (5 * doy + 2) / 153 in
  let d := doy - (153 * mp + 2) / 5 + 1 in
  let m := if mp <? 10 then mp + 3 else mp - 9 in
  (if m <=? 2 then yoe + era * 400 + 1 else yoe + era * 400, m, d).

(** Day of the week of a day number, Sunday being 0. *)
Definition weekday (days : Z) : Z := (days + 4) mod 7.

(** Day number of the [n]-th Sunday (from 1) of month [m] of year [y]. *)
Definition nth_sunday (y m n : Z) : Z :=
  let first := days_from_civil y m 1 in
  first + (7 - weekday first) mod 7 + 7 * (n - 1).

(** The decimal field of [len] digits at [start], and a separator test. *)
Definition field (s : string) (start len : nat) : option Z :=
  let f := String.substring start len s in
  if (String.length f =? len)%nat && Text.all Text.is_digit f
  then Some (Text.int_of f) else None.

Definition sep (s : string) (i : nat) (c : ascii) : bool :=
  match String.get i s with
  | Some d => (d =? c)%char
  | None => false
  end.

End Calendar.

Module Central.
Import Calendar.

(** Seconds from UTC to Central time at the UTC instant [t] of year [y]. *)
Definition utc_offset (y t : Z) : Z :=
  let dst_start := nth_sunday y 3 2 * 86400 + 8 * 3600 in
  let dst_end := nth_sunday y 11 1 * 86400 + 7 * 3600 in
  if (dst_start <=? t) && (t <? dst_end) then - 5 * 3600 else - 6 * 3600.

Definition of_utc (y m d hh mm ss : Z) : datetime :=
  let t := days_from_civil y m d * 86400 + hh * 3600 + mm * 60 + ss in
  let l := t + utc_offset y t in
  let '(y', m', d') := civil_from_days (l / 86400) in
  let r := l mod 86400 in
  {| year := y'; month := m'; day := d';
     hour := r / 3600; minute := (r mod 3600) / 60; second := r mod 60 |}.

Definition tail_ok (t : string) : bool :=
  (t =? "+00:00")%string
  || ((Text.take 1 t =? ".")%string
      && (let f := Text.take_while Text.is_digit (Text.drop 1 t) in
          ((String.length f =? 3)%nat || (String.length f =? 6)%nat)
          && (Text.drop (S (String.length f)) t =? "+00:00")%string)).

Definition of_iso (s : string) : option datetime :=
  match field s 0 4, field s 5 2, field s 8 2,
        field s 11 2, field s 14 2, field s 17 2 with
  | Some y, Some m, Some d, Some hh, Some mm, Some ss =>
      if sep s 4 "-" && sep s 7 "-" && sep s 10 "T" && sep s 13 ":"
         && sep s 16 ":" && tail_ok (Text.drop 19 s)
         && (2007 <=? y) && (y <=? 9999) && (1 <=? m) && (m <=? 12)
         && (1 <=? d) && (d <=? days_in_month y m)
         && (hh <? 24) && (mm <? 60) && (ss <? 60)
      then Some (of_utc y m d hh mm ss) else None
  | _, _, _, _, _, _ => None
  end.

End Central.

(** ** The Extractor: [scrape_huskers_mbb.py]

    The rendered page is read through locators.  An event row is modelled by
    what its lookups answer: the inner text of the first matched element
    ([None] when nothing matches or the lookup times out), an attribute
    ([None] when absent or timed out), or the list of matched elements. *)
Module Dom.

(** An [<img>]: the properties [currentSrc] and [src] that the page script
    reads, and the content attributes [src] and [data-src]. *)
Record img := {
  currentSrc : string;
  src : string;
  attr_src : option string;
  attr_data_src : option string
}.

(** An image wrapper: its inner text and its images; a link anchor: the
    text of its title element, its own text and its [href]. *)
Record wrapper := { w_text : option string; w_imgs : list img }.

Record anchor := {
  a_title : option string;
  a_text : option string;
  a_href : option string
}.

(** One [.schedule-event-item]: the divider and opponent-name texts, the
    image wrappers, the location text, the texts of the home and away
    rank-label nodes, the presence of the win, loss and tie indicators, the
    result label, the [datetime] attribute of the date's [time] element and
    of any [time] element, the date label and date texts, the venue-type
    label, the broadcast images and the link anchors. *)
Record event := {
  divider : option string;
  opponent_name : option string;
  wrappers : list wrapper;
  location : option string;
  home_rank : option string;
  away_rank : option string;
  has_win : bool;
  has_loss : bool;
  has_tie : bool;
  result_label : option string;
  date_datetime : option string;
  any_datetime : option string;
  date_label : option string;
  date_date : option string;
  venue_type_label : option string;
  tv_imgs : list img;
  anchors : list anchor
}.

End Dom.

(** [safe_text] strips the inner text it gets; [clean] collapses spaces in
    a [str] and passes [None] on. *)
Definition safe_text (inner_text : option string) : option string :=
  option_map Text.strip inner_text.

Definition clean (s : option string) : option string :=
  option_map Text.clean s.

(** Python's [a or b] on optional strings. *)
Definition or_opt (a b : option string) : option string :=
  match truthy_opt a with
  | Some s => Some s
  | None => b
  end.

Definition DATA_IMAGE : string := "data:image".

(** A value that is present, not empty and not an inline image. *)
Definition usable (u : option string) : option string :=
  match truthy_opt u with
  | Some s => if Text.startswith s DATA_IMAGE then None else Some s
  | None => None
  end.

(** The page script
    [el.currentSrc || el.src || el.getAttribute('data-src') || '']. *)
Definition evaluate_src (el : Dom.img) : string :=
  if Text.truthy (Dom.currentSrc el) then Dom.currentSrc el
  else if Text.truthy (Dom.src el) then Dom.src el
  else or_str (Dom.attr_data_src el) "".

(** [get_img_src]: the first image of the locator, none giving [None]; a
    page script that times out answers as no image does. *)
Definition get_img_src (locator : list Dom.img) : option string :=
  match locator with
  | [] => None
  | img :: _ =>
      match usable (Some (evaluate_src img)) with
      | Some current => Some current
      | None =>
          match usable (Dom.attr_src img) with
          | Some src => Some src
          | None => usable (Dom.attr_data_src img)
          end
      end
  end.

(** The text without its final line feed. *)
Fixpoint chomp (s : string) : string :=
  match s with
  | EmptyString => EmptyString
  | String c r =>
      if (r =? "")%string && is_newline c then EmptyString
      else String c (chomp r)
  end.

(** [re.match] of [opponent_name] against the rank-prefix pattern of line
    124: a hash, [\s*], the group [\d{1,2}], [\s+], and the rest of the line
    as the second group, which ends the string (up to a final line feed). *)
Definition match_rank_name (s : string) : option (string * string) :=
  match s with
  | String "#" r =>
      let r1 := Text.drop_while Text.is_space r in
      let dig := take_digits2 r1 in
      let r2 := Text.drop (String.length dig) r1 in
      let r3 := Text.drop_while Text.is_space r2 in
      if Text.truthy dig && at_run Text.is_space r2 && line_to_end r3
      then Some (dig, chomp r3) else None
  | _ => None
  end.

(** [re.search(r"#\s*(\d{1,2})", txt)]: the group of the leftmost match. *)
Fixpoint search_rank (s : string) : option string :=
  match s with
  | EmptyString => None
  | String c r =>
      let dig := take_digits2 (Text.drop_while Text.is_space r) in
      if (c =? "#")%char && Text.truthy dig then Some dig
      else search_rank r
  end.

Definition rank_in (txt : string) : option Z :=
  option_map Text.int_of (search_rank txt).

(** Lines 121-176 of [parse_event]: the opponent name without its rank
    prefix, Nebraska's rank and the opponent's rank. *)
Definition parse_ranks (ev : Dom.event) (opponent_name : string)
  : string * option Z * option Z :=
  let '(opp_rank, opponent_name) :=
    match match_rank_name opponent_name with
    | Some (dig, rest) => (Some (Text.int_of dig), Text.strip rest)
    | None => (None, opponent_name)
    end in
  let wrappers := Dom.wrappers ev in
  let nu_rank :=
    match nth_error wrappers 0 with
    | Some w => rank_in (or_str (safe_text (Dom.w_text w)) "")
    | None => None
    end in
  let opp_rank :=
    match nth_error wrappers 1, opp_rank with
    | Some w, None => rank_in (or_str (safe_text (Dom.w_text w)) "")
    | _, _ => opp_rank
    end in
  let nu_rank :=
    match nu_rank with
    | Some r => Some r
    | None =>
        match truthy_opt (safe_text (Dom.home_rank ev)) with
        | Some txt => rank_in txt
        | None => None
        end
    end in
  let opp_rank :=
    match opp_rank with
    | Some r => Some r
    | None =>
        match truthy_opt (safe_text (Dom.away_rank ev)) with
        | Some txt => rank_in txt
        | None => None
        end
    end in
  (opponent_name, nu_rank, opp_rank).

(** [re.search] of the cleaned location against the pattern of line 113: a
    shortest non-empty city, [\s*], a slash, [\s*], and a non-empty arena to
    the end.  [location] has been through [clean], so it holds no line
    break. *)
Fixpoint last_char (s : string) : string :=
  match s with
  | EmptyString => EmptyString
  | String c r => if (r =? "")%string then String c "" else last_char r
  end.

Definition slash_tail (t : string) : option string :=
  match Text.drop_while Text.is_space t with
  | String "/" rest =>
      if Text.truthy rest then
        Some (match Text.drop_while Text.is_space rest with
              | EmptyString => last_char rest
              | r => r
              end)
      else None
  | _ => None
  end.

Fixpoint search_location (s : string) : option (string * string) :=
  match s with
  | EmptyString => None
  | String c r =>
      match slash_tail r with
      | Some g2 => Some (String c "", g2)
      | None =>
          match search_location r with
          | Some (g1, g2) => Some (String c g1, g2)
          | None => None
          end
      end
  end.

Definition parse_location (ev : Dom.event) : option string * option string :=
  let location := or_str (clean (safe_text (Dom.location ev))) "" in
  match search_location location with
  | Some (g1, g2) => (Some (Text.strip g1), Some (sub_presented_by (Text.strip g2)))
  | None => (None, None)
  end.

(** Lines 180-200: status, result and local time.  The en dash the source
    also accepts lies outside Latin-1, so only the ASCII hyphen occurs. *)
Definition parse_result (ev : Dom.event)
  : string * option Raw.res * option string :=
  let label := or_str (clean (safe_text (Dom.result_label ev))) "" in
  if Dom.has_win ev || Dom.has_loss ev || Dom.has_tie ev then
    let outcome := if Dom.has_win ev then "W"
                   else if Dom.has_loss ev then "L" else "T" in
    let score :=
      match filter (fun p => Text.contains p "-") (Text.split_ws label) with
      | p :: _ => p
      | [] => label
      end in
    ("final", Some {| Raw.outcome := outcome; Raw.sets := score |}, None)
  else
    let time_local := nonempty label in
    (if is_some time_local then "scheduled" else "tbd", None, time_local).

(** Lines 203-212: ISO date and visible date text. *)
Definition before_T (s : string) : string :=
  Text.take_while (fun c => negb (c =? "T")%char) s.

Definition parse_dates (ev : Dom.event) : option string * option string :=
  let iso_dt := or_opt (Dom.date_datetime ev) (Dom.any_datetime ev) in
  let date_iso :=
    match truthy_opt iso_dt with
    | Some s => if Text.contains s "T" then Some (before_T s) else None
    | None => None
    end in
  let date_text :=
    truthy_opt (or_opt (clean (safe_text (Dom.date_label ev)))
                       (clean (safe_text (Dom.date_date ev)))) in
  (date_iso, date_text).

(** Lines 215-227: home, away or neutral. *)
Definition parse_venue (ev : Dom.event) (divider : string) (city : option string)
  : string :=
  if Text.startswith divider "at" then "A"
  else if Text.startswith divider "vs" then
    match truthy_opt city with
    | Some c => if Text.contains c "Lincoln" then "H" else "N"
    | None => "N"
    end
  else
    let vlabel := Text.lower (or_str (safe_text (Dom.venue_type_label ev)) "") in
    if Text.contains vlabel "home" then "H"
    else if Text.contains vlabel "away" then "A"
    else "N".

(** Lines 237-248: the links, site-relative targets made absolute. *)
Definition parse_link (a : Dom.anchor) : option Link :=
  let title := or_opt (safe_text (Dom.a_title a)) (clean (safe_text (Dom.a_text a))) in
  match truthy_opt (Dom.a_href a) with
  | Some href =>
      Some {| title := title;
              href := if Text.startswith href "/"
                      then "https://huskers.com" ++ href else href |}
  | None => None
  end.

Definition wrapper_img (ev : Dom.event) (n : nat) : option string :=
  match nth_error (Dom.wrappers ev) n with
  | Some w => get_img_src (Dom.w_imgs w)
  | None => None
  end.

Definition parse_event (ev : Dom.event) : option Raw.item :=
  let divider := Text.lower (Text.strip (or_str (safe_text (Dom.divider ev)) "")) in
  let opponent_name := or_str (clean (safe_text (Dom.opponent_name ev))) "" in
  let ne_logo := wrapper_img ev 0 in
  let opp_logo := wrapper_img ev 1 in
  let '(city, arena) := parse_location ev in
  let '(opponent_name, nu_rank, opp_rank) := parse_ranks ev opponent_name in
  let '(status, result, time_local) := parse_result ev in
  let '(date_iso, date_text) := parse_dates ev in
  let han := parse_venue ev divider city in
  let tv_logo := get_img_src (Dom.tv_imgs ev) in
  let links := collect parse_link (Dom.anchors ev) in
  if negb (Text.truthy opponent_name) then None
  else Some {|
    Raw.date := date_iso;
    Raw.date_text := date_text;
    Raw.time_local := time_local;
    Raw.venue_type := Some han;
    Raw.nu_rank := nu_rank;
    Raw.opp_rank := opp_rank;
    Raw.opponent_name := Some opponent_name;
    Raw.city := city;
    Raw.arena := arena;
    Raw.nebraska_logo_url := ne_logo;
    Raw.opponent_logo_url := opp_logo;
    Raw.tv_network_logo_url := tv_logo;
    Raw.networks := [];
    Raw.status := Some status;
    Raw.result := result;
    Raw.links := links;
    Raw.divider_text := Some divider
  |}.

(** The rows of [scrape_with_playwright]: every event that parses. *)
Definition scrape (events : list Dom.event) : list Raw.item :=
  collect parse_event events.

(** ** Notions of the specification *)

(** A text of the form YYYY-MM-DD, and one that names a real calendar date:
    month 1..12 and a day that exists in that month of that year. *)
Definition iso_shape (s : string) : bool :=
  (String.length s =? 10)%nat
  && is_some (Calendar.field s 0 4) && Calendar.sep s 4 "-"
  && is_some (Calendar.field s 5 2) && Calendar.sep s 7 "-"
  && is_some (Calendar.field s 8 2).

Definition real_iso_date (s : string) : bool :=
  iso_shape s
  && match Calendar.field s 0 4, Calendar.field s 5 2, Calendar.field s 8 2 with
     | Some y, Some m, Some d =>
         (1 <=? y) && (1 <=? m) && (m <=? 12)
         && (1 <=? d) && (d <=? Calendar.days_in_month y m)
     | _, _, _ => false
     end.

(** Texts of exactly four and of exactly two digits. *)
Definition four_digits (s : string) : bool :=
  match s with
  | String a (String b (String c (String d EmptyString))) =>
      Text.is_digit a && Text.is_digit b && Text.is_digit c && Text.is_digit d
  | _ => false
  end.

Definition two_digits (s : string) : bool :=
  match s with
  | String a (String b EmptyString) => Text.is_digit a && Text.is_digit b
  | _ => false
  end.

(** [label] reads as [<month-token> <day>]: optional spaces, a non-empty
    token of letters and periods, at least one space, one or two digits,
    optional spaces.  This is the language of the pattern of
    [parse_date_from_text], stated without reference to a scan. *)
Definition DateLabel (label tok dig : string) : Prop :=
  exists ws1 ws2 ws3,
    label = ws1 ++ tok ++ ws2 ++ dig ++ ws3
    /\ Text.all Text.is_space ws1 = true
    /\ tok <> "" /\ Text.all is_month_char tok = true
    /\ ws2 <> "" /\ Text.all Text.is_space ws2 = true
    /\ (String.length dig = 1 \/ String.length dig = 2)%nat
    /\ Text.all Text.is_digit dig = true
    /\ Text.all Text.is_space ws3 = true.

(** The month a token names: its letters (periods removed), the first three
    of them, in lower case, looked up in the month table. *)
Definition month_named (tok : string) : option Z :=
  dict_get MONTH_IDX
    (Text.lower (Text.take 3 (Text.replace_char "." "" tok))).

(** The calendar year of a month of the season that starts in [y]. *)
Definition season_year (y mon : Z) : Z :=
  if 8 <=? mon then y else y + 1.

(** A source text shows the rank [r]: a hash, optional spaces, and the one
    or two digits whose value is [r]. *)
Definition shows_rank (txt : string) (r : Z) : Prop :=
  exists pre ws dig post,
    txt = pre ++ "#" ++ ws ++ dig ++ post
    /\ Text.all Text.is_space ws = true
    /\ (String.length dig = 1 \/ String.length dig = 2)%nat
    /\ Text.all Text.is_digit dig = true
    /\ r = Text.int_of dig.

(** The first usable URL of a list of candidates, in order. *)
Fixpoint first_usable (l : list (option string)) : option string :=
  match l with
  | [] => None
  | u :: l' =>
      match usable u with
      | Some s => Some s
      | None => first_usable l'
      end
  end.

(** The [src] property of an image reflects its [src] attribute. *)
Definition reflects_src (img : Dom.img) : Prop :=
  Dom.src img = or_str (Dom.attr_src img) "".

(** ASCII letters and digits, and the complements of two classes. *)
Definition is_ascii_alnum (c : ascii) : bool :=
  Text.is_alpha c || Text.is_digit c.

Definition no_alnum (c : ascii) : bool := negb (is_ascii_alnum c).
Definition no_slug (c : ascii) : bool := negb (Text.is_slug_char c).

(** The condition under which the specification says a record is dropped. *)
Definition drop_as_claimed (y : Z) (it : Raw.item) : Prop :=
  let name := or_str (Raw.opponent_name it) "" in
  name = ""
  \/ Text.lower name = EXHIBITION
  \/ Text.startswith (Text.lower name) PLACEHOLDER = true
  \/ resolve_date y it = None.

(** The condition under which the loop drops it. *)
Definition drop_as_coded (y : Z) (it : Raw.item) : Prop :=
  let name := Text.strip (or_str (Raw.opponent_name it) "") in
  name = ""
  \/ Text.contains (Text.lower name) EXHIBITION = true
  \/ Text.startswith (Text.lower name) PLACEHOLDER = true
  \/ resolve_date y it = None.

(** The texts of an event row in which the Extractor looks for a rank. *)
Definition name_text (ev : Dom.event) : string :=
  or_str (clean (safe_text (Dom.opponent_name ev))) "".

Definition wrapper_text (ev : Dom.event) (n : nat) : string :=
  match nth_error (Dom.wrappers ev) n with
  | Some w => or_str (safe_text (Dom.w_text w)) ""
  | None => ""
  end.

Definition home_rank_text (ev : Dom.event) : string :=
  or_str (safe_text (Dom.home_rank ev)) "".

Definition away_rank_text (ev : Dom.event) : string :=
  or_str (safe_text (Dom.away_rank ev)) "".

(** ** The entry point of the Normalizer *)

(** The raw blob as [main] reads it: [None] for either key when it is
    missing, and no blob at all when the file does not exist. *)
Record blob := {
  blob_scraped_at : option string;
  blob_items : option (list Raw.item)
}.

(** [main]: the rows written under the key [items]. *)
Definition main_rows (to_central : string -> option datetime) (now : datetime)
  (raw : option blob) : list Canon.row :=
  let items :=
    match raw with
    | Some b => match blob_items b with Some l => l | None => [] end
    | None => []
    end in
  let scraped_at :=
    match raw with
    | Some b => or_str (blob_scraped_at b) ""
    | None => ""
    end in
  normalize to_central now items (Some scraped_at).

(** ** Further notions *)

(** Equality of sort keys. *)
Definition key_eqb (a b : key) : bool :=
  (fst a =? fst b)%string && (snd a =? snd b)%string.

(** The element [x] has the key [k]. *)
Definition keyed {A : Type} (key_of : A -> key) (k : key) (x : A) : bool :=
  key_eqb (key_of x) k.

(** The last character of the text is of the class [p]; no two neighbours
    are both of the class [p]. *)
Fixpoint ends_in (p : ascii -> bool) (s : string) : bool :=
  match s with
  | EmptyString => false
  | String c r => if (r =? "")%string then p c else ends_in p r
  end.

Fixpoint no_double (p : ascii -> bool) (s : string) : bool :=
  match s with
  | EmptyString => true
  | String c r => negb (p c && at_run p r) && no_double p r
  end.

(** A well-formed slug: lower-case letters, digits and single dashes, with
    no dash at either end. *)
Definition slug_or_dash (c : ascii) : bool :=
  Text.is_slug_char c || Text.is_dash c.

Definition slug_shaped (s : string) : bool :=
  Text.all slug_or_dash s
  && negb (at_run Text.is_dash s) && negb (ends_in Text.is_dash s)
  && no_double Text.is_dash s.

(** Order of dates as triples of year, month and day. *)
Definition compare_ymd (y m d y' m' d' : Z) : comparison :=
  match y ?= y' with
  | Eq => match m ?= m' with
          | Eq => d ?= d'
          | c => c
          end
  | c => c
  end.

(** A word of [split]: not empty and free of spaces. *)
Definition is_token (w : string) : Prop :=
  w <> "" /\ Text.any Text.is_space w = false.

(** A space character that is the plain space, or no space character. *)
Definition plain_space (c : ascii) : bool :=
  negb (Text.is_space c) || (c =? " ")%char.

(** The first of two optional ranks that is present. *)
Definition first_rank (a b : option Z) : option Z :=
  match a with
  | Some r => Some r
  | None => b
  end.

(** The slash, and the cleaned location text of an event row. *)
Definition is_slash (c : ascii) : bool := (c =? "/")%char.

Definition location_text (ev : Dom.event) : string :=
  or_str (clean (safe_text (Dom.location ev))) "".

(** The sponsor phrase of the arena pattern. *)
Definition PRESENTED_BY : string := "presented by".

(** ** Notions on ASCII text *)

(** A character of ASCII, and the folding of ASCII case: A to Z become a to
    z, every other character stays as it is. *)
Definition is_ascii (c : ascii) : bool := (Text.code c <? 128)%N.

Definition fold_ascii (c : ascii) : ascii :=
  if Text.between 65 90 c then ascii_of_N (Text.code c + 32) else c.

(** Two texts that are equal up to the case of their ASCII letters. *)
Definition same_letters (a b : string) : bool :=
  (Text.map fold_ascii a =? Text.map fold_ascii b)%string.

(** ** The month of a token, as the specification words it

    The letters of the token, periods left aside; the first three of them,
    matched without regard to case against the names of the month table. *)
Fixpoint letters (s : string) : string :=
  match s with
  | EmptyString => EmptyString
  | String c r => if Text.is_alpha c then String c (letters r) else letters r
  end.

Fixpoint table_find {V : Type} (p : string -> bool) (d : list (string * V))
  : option V :=
  match d with
  | [] => None
  | (name, v) :: d' => if p name then Some v else table_find p d'
  end.

Definition month_by_first_three_letters (tok : string) : option Z :=
  match letters tok with
  | String a (String b (String c _)) =>
      table_find (same_letters (String a (String b (String c "")))) MONTH_IDX
  | _ => None
  end.

(** The record has no date of its own and a label that names the month
    [mon]. *)
Definition label_month (it : Raw.item) (mon : Z) : Prop :=
  truthy_opt (Raw.date it) = None
  /\ exists l tok dig,
       Raw.date_text it = Some l /\ DateLabel l tok dig
       /\ month_named tok = Some mon.

(** ** Fixtures of the scenarios *)

Definition raw_item (name date date_text time_local arena : option string)
  (res : option Raw.res) : Raw.item :=
  {| Raw.date := date; Raw.date_text := date_text;
     Raw.time_local := time_local; Raw.venue_type := None;
     Raw.nu_rank := None; Raw.opp_rank := None;
     Raw.opponent_name := name; Raw.city := None; Raw.arena := arena;
     Raw.nebraska_logo_url := None; Raw.opponent_logo_url := None;
     Raw.tv_network_logo_url := None; Raw.networks := [];
     Raw.status := None; Raw.result := res; Raw.links := [];
     Raw.divider_text := None |}.

Definition win_78_65 : Raw.res := {| Raw.outcome := "W"; Raw.sets := "78-65" |}.

(** The raw item of the end-to-end scenario, and the row it stands for. *)
Definition purdue_raw : Raw.item :=
  raw_item (Some "#4 Purdue") None (Some "Feb 1") None None (Some win_78_65).

Definition purdue_row (opponent : string) (opp_rank : option Z) : Canon.row :=
  {| Canon.date := "2025-02-01"; Canon.time_local := None;
     Canon.home_away := "N"; Canon.nu_rank := None;
     Canon.opponent := opponent; Canon.opp_rank := opp_rank;
     Canon.title := opponent; Canon.arena := None; Canon.city := None;
     Canon.arena_key := "unknown"; Canon.nu_logo := None;
     Canon.opp_logo := None; Canon.tv_logo := None; Canon.tv := [];
     Canon.status := "final"; Canon.result := Some "W 78-65";
     Canon.result_css := Some "W"; Canon.notes := None; Canon.links := [] |}.

(** A record dated by its visible label only. *)
Definition nov5_raw : Raw.item :=
  raw_item (Some "Creighton") None (Some "Nov 5") None None None.

(** A record whose label names a day that February does not have. *)
Definition feb31_raw : Raw.item :=
  raw_item (Some "Iowa") None (Some "Feb 31") None None None.

(** Dated records that differ in their arena only. *)
Definition arena_raw (arena : string) : Raw.item :=
  raw_item (Some "Iowa") (Some "2025-11-05") None None (Some arena) None.

Definition scheduled_row (date opponent : string)
  (time_local arena : option string) (arena_key : string) : Canon.row :=
  {| Canon.date := date; Canon.time_local := time_local;
     Canon.home_away := "N"; Canon.nu_rank := None;
     Canon.opponent := opponent; Canon.opp_rank := None;
     Canon.title := opponent; Canon.arena := arena; Canon.city := None;
     Canon.arena_key := arena_key; Canon.nu_logo := None;
     Canon.opp_logo := None; Canon.tv_logo := None; Canon.tv := [];
     Canon.status := "scheduled"; Canon.result := None;
     Canon.result_css := None; Canon.notes := None; Canon.links := [] |}.

Definition arena_row (arena : option string) (arena_key : string) : Canon.row :=
  scheduled_row "2025-11-05" "Iowa" None arena arena_key.

Definition game_row (date opponent : string) (time_local : option string)
  : Canon.row :=
  scheduled_row date opponent time_local None "unknown".

(** Two games of one day: one with a tip-off time, one without. *)
Definition timed_raw : Raw.item :=
  raw_item (Some "Iowa") (Some "2025-11-05") None (Some "7:00 PM") None None.
Definition untimed_raw : Raw.item :=
  raw_item (Some "Ohio State") (Some "2025-11-05") None None None None.

(** A dated record of the exhibition under a longer name. *)
Definition scrimmage_raw : Raw.item :=
  raw_item (Some "Opening Night Presented by SCHEELS Scrimmage")
    (Some "2025-10-25") None None None None.

(** An event row that shows only an opponent name and image wrappers. *)
Definition named_event (name : string) (ws : list Dom.wrapper) : Dom.event :=
  {| Dom.divider := None; Dom.opponent_name := Some name; Dom.wrappers := ws;
     Dom.location := None; Dom.home_rank := None; Dom.away_rank := None;
     Dom.has_win := false; Dom.has_loss := false; Dom.has_tie := false;
     Dom.result_label := None; Dom.date_datetime := None;
     Dom.any_datetime := None; Dom.date_label := None; Dom.date_date := None;
     Dom.venue_type_label := None; Dom.tv_imgs := []; Dom.anchors := [] |}.

Definition text_wrapper (txt : string) : Dom.wrapper :=
  {| Dom.w_text := Some txt; Dom.w_imgs := [] |}.

(** The raw record of an event named "Iowa" whose first wrapper reads
    "#123". *)
Definition iowa_event : Dom.event := named_event "Iowa" [text_wrapper "#123"].

Definition iowa_item : Raw.item :=
  {| Raw.date := None; Raw.date_text := None; Raw.time_local := None;
     Raw.venue_type := Some "N"; Raw.nu_rank := Some 12; Raw.opp_rank := None;
     Raw.opponent_name := Some "Iowa"; Raw.city := None; Raw.arena := None;
     Raw.nebraska_logo_url := None; Raw.opponent_logo_url := None;
     Raw.tv_network_logo_url := None; Raw.networks := [];
     Raw.status := Some "tbd"; Raw.result := None; Raw.links := [];
     Raw.divider_text := Some "" |}.

(** A lazily loaded logo: a placeholder is on show, the real address waits
    in [data-src]. *)
Definition lazy_img : Dom.img :=
  {| Dom.currentSrc := "data:image/gif;base64,R0lGOD";
     Dom.src := "data:image/gif;base64,R0lGOD";
     Dom.attr_src := Some "data:image/gif;base64,R0lGOD";
     Dom.attr_data_src := Some "https://huskers.com/logo.png" |}.

(** The event row of the page that shows the game of the scenario. *)
Definition purdue_event : Dom.event :=
  {| Dom.divider := None; Dom.opponent_name := Some "#4 Purdue";
     Dom.wrappers := []; Dom.location := None; Dom.home_rank := None;
     Dom.away_rank := None; Dom.has_win := true; Dom.has_loss := false;
     Dom.has_tie := false; Dom.result_label := Some "W 78-65";
     Dom.date_datetime := None; Dom.any_datetime := None;
     Dom.date_label := Some "Feb 1"; Dom.date_date := None;
     Dom.venue_type_label := None; Dom.tv_imgs := []; Dom.anchors := [] |}.

(** Two moments a run may start at, either side of the end of March. *)
Definition late_march : datetime :=
  {| year := 2025; month := 3; day := 31; hour := 23; minute := 0; second := 0 |}.
Definition early_april : datetime :=
  {| year := 2025; month := 4; day := 1; hour := 1; minute := 0; second := 0 |}.

(** The placeholder of the rejection scenario, with any other fields. *)
Definition big_ten_raw (date date_text time_local arena : option string)
  (res : option Raw.res) : Raw.item :=
  raw_item (Some "Big Ten First Round") date date_text time_local arena res.

(** The raw record the Extractor makes of the event of the scenario. *)
Definition purdue_item : Raw.item :=
  {| Raw.date := None; Raw.date_text := Some "Feb 1"; Raw.time_local := None;
     Raw.venue_type := Some "N"; Raw.nu_rank := None; Raw.opp_rank := Some 4;
     Raw.opponent_name := Some "Purdue"; Raw.city := None; Raw.arena := None;
     Raw.nebraska_logo_url := None; Raw.opponent_logo_url := None;
     Raw.tv_network_logo_url := None; Raw.networks := [];
     Raw.status := Some "final"; Raw.result := Some win_78_65; Raw.links := [];
     Raw.divider_text := Some "" |}.

(** An event row with one link whose target is site-relative. *)
Definition ticket_anchor : Dom.anchor :=
  {| Dom.a_title := Some "Tickets"; Dom.a_text := Some "Tickets";
     Dom.a_href := Some "/tickets/mbb" |}.

Definition ticket_link : Link :=
  {| title := Some "Tickets"; href := "https://huskers.com/tickets/mbb" |}.

Definition ticket_event : Dom.event :=
  {| Dom.divider := Some "vs."; Dom.opponent_name := Some "Iowa";
     Dom.wrappers := []; Dom.location := None; Dom.home_rank := None;
     Dom.away_rank := None; Dom.has_win := false; Dom.has_loss := false;
     Dom.has_tie := false; Dom.result_label := Some "7:00 PM";
     Dom.date_datetime := Some "2025-11-05T19:00:00"; Dom.any_datetime := None;
     Dom.date_label := Some "Nov 5"; Dom.date_date := None;
     Dom.venue_type_label := None; Dom.tv_imgs := [];
     Dom.anchors := [ticket_anchor] |}.

Definition ticket_item : Raw.item :=
  {| Raw.date := Some "2025-11-05"; Raw.date_text := Some "Nov 5";
     Raw.time_local := Some "7:00 PM"; Raw.venue_type := Some "N";
     Raw.nu_rank := None; Raw.opp_rank := None;
     Raw.opponent_name := Some "Iowa"; Raw.city := None; Raw.arena := None;
     Raw.nebraska_logo_url := None; Raw.opponent_logo_url := None;
     Raw.tv_network_logo_url := None; Raw.networks := [];
     Raw.status := Some "scheduled"; Raw.result := None;
     Raw.links := [ticket_link]; Raw.divider_text := Some "vs." |}.

(** A home game whose location names the city and a sponsored arena. *)
Definition home_event : Dom.event :=
  {| Dom.divider := Some "vs."; Dom.opponent_name := Some "Iowa";
     Dom.wrappers := [];
     Dom.location := Some "Lincoln, Neb. / Pinnacle Bank Arena presented by SCHEELS";
     Dom.home_rank := None;
     Dom.away_rank := None; Dom.has_win := false; Dom.has_loss := false;
     Dom.has_tie := false; Dom.result_label := Some "7:00 PM";
     Dom.date_datetime := Some "2025-11-05T19:00:00"; Dom.any_datetime := None;
     Dom.date_label := Some "Nov 5"; Dom.date_date := None;
     Dom.venue_type_label := None; Dom.tv_imgs := []; Dom.anchors := [] |}.

Definition home_item : Raw.item :=
  {| Raw.date := Some "2025-11-05"; Raw.date_text := Some "Nov 5";
     Raw.time_local := Some "7:00 PM"; Raw.venue_type := Some "H";
     Raw.nu_rank := None; Raw.opp_rank := None;
     Raw.opponent_name := Some "Iowa"; Raw.city := Some "Lincoln, Neb.";
     Raw.arena := Some "Pinnacle Bank Arena";
     Raw.nebraska_logo_url := None; Raw.opponent_logo_url := None;
     Raw.tv_network_logo_url := None; Raw.networks := [];
     Raw.status := Some "scheduled"; Raw.result := None;
     Raw.links := []; Raw.divider_text := Some "vs." |}.

(** An image whose [src] attribute is site-relative: the browser shows the
    resolved address in the [src] property. *)
Definition relative_img : Dom.img :=
  {| Dom.currentSrc := "";
     Dom.src := "https://huskers.com/images/logo.png";
     Dom.attr_src := Some "/images/logo.png";
     Dom.attr_data_src := None |}.

(** A record dated by the label "Jan 10". *)
Definition jan10_raw : Raw.item :=
  raw_item (Some "Iowa") None (Some "Jan 10") None None None.

(** ** Checks of the embedding on concrete inputs *)

Example clean_ex : Text.clean "  #4   Purdue " = "#4 Purdue".
Proof. reflexivity. Qed.

Example fmt_ex : Text.fmt_d 4 2025 = "2025" /\ Text.fmt_d 2 5 = "05" /\ Text.fmt_d 4 (-1) = "-001".
Proof. repeat split; reflexivity. Qed.

Example strip_ex : Text.strip "  ab c  " = "ab c" /\ Text.strip_with Text.is_dash "--a-b-" = "a-b".
Proof. split; reflexivity. Qed.

Example split_ex : Text.split_ws "a  bc d " = ["a"; "bc"; "d"].
Proof. reflexivity. Qed.

Example parse_date_ex :
  parse_date_from_text (Some "Nov 5") 2024 = Some "2024-11-05"
  /\ parse_date_from_text (Some " Sept. 5 ") 2024 = Some "2024-09-05"
  /\ parse_date_from_text (Some "Jan 10") 2024 = Some "2025-01-10"
  /\ parse_date_from_text (Some "Jan 101") 2024 = None
  /\ parse_date_from_text (Some "Jan10") 2024 = None
  /\ parse_date_from_text (Some "") 2024 = None.
Proof. repeat split; reflexivity. Qed.

Example slug_ex :
  slug "Pinnacle Bank Arena" = "pinnacle-bank-arena"
  /\ slug " --T-Mobile   Center!! " = "t-mobile-center"
  /\ slug "---" = "".
Proof. repeat split; reflexivity. Qed.

Example sub_presented_by_ex :
  sub_presented_by "Pinnacle Bank Arena presented by SCHEELS" = "Pinnacle Bank Arena"
  /\ sub_presented_by "Arena Presented By" = "Arena"
  /\ sub_presented_by "Arena presented byte" = "Arena presented byte".
Proof. repeat split; reflexivity. Qed.

Example central_ex :
  Central.of_iso "2025-02-01T12:00:00+00:00"
    = Some {| year := 2025; month := 2; day := 1; hour := 6; minute := 0; second := 0 |}
  /\ Central.of_iso "2025-04-01T03:00:00.123456+00:00"
    = Some {| year := 2025; month := 3; day := 31; hour := 22; minute := 0; second := 0 |}
  /\ Central.of_iso "2025-03-09T08:00:00+00:00"
    = Some {| year := 2025; month := 3; day := 9; hour := 3; minute := 0; second := 0 |}
  /\ Central.of_iso "2025-11-02T07:00:00+00:00"
    = Some {| year := 2025; month := 11; day := 2; hour := 1; minute := 0; second := 0 |}
  /\ Central.of_iso "2025-01-01T00:00:00+00:00"
    = Some {| year := 2024; month := 12; day := 31; hour := 18; minute := 0; second := 0 |}
  /\ Central.of_iso "" = None
  /\ Central.of_iso "not a time" = None.
Proof. repeat split; vm_compute; reflexivity. Qed.

Example rank_ex :
  match_rank_name "#4 Purdue" = Some ("4", "Purdue")
  /\ match_rank_name "# 12  Iowa" = Some ("12", "Iowa")
  /\ match_rank_name "#123 Iowa" = None
  /\ match_rank_name "#4Purdue" = None
  /\ search_rank "No. #7" = Some "7"
  /\ search_rank "#123" = Some "12"
  /\ search_rank "# x #05" = Some "05"
  /\ search_rank "7" = None.
Proof. repeat split; reflexivity. Qed.

Example location_ex :
  search_location "Lincoln, Neb. / Pinnacle Bank Arena"
    = Some ("Lincoln, Neb.", "Pinnacle Bank Arena")
  /\ search_location "a/b/c" = Some ("a", "b/c")
  /\ search_location "/ b" = None
  /\ search_location "Lincoln" = None.
Proof. repeat split; reflexivity. Qed.

(** * Properties *)

(** ** The end-to-end scenario *)

(** C1, as stated, fails: from the raw item with opponent name "#4 Purdue"
    the Normalizer emits no row with opponent "Purdue" and rank 4, whatever
    the time of the run. *)
Lemma purdue_raw_not_split :
  ~ exists now r,
      normalize Central.of_iso now [purdue_raw] (Some "2025-02-02T00:00:00Z") = [r]
      /\ Canon.date r = "2025-02-01" /\ Canon.opponent r = "Purdue"
      /\ Canon.opp_rank r = Some 4 /\ Canon.status r = "final"
      /\ Canon.result r = Some "W 78-65" /\ Canon.result_css r = Some "W".
Proof.
  intros (now & r & Hrun & _ & Hopp & _).
  vm_compute in Hrun.
  injection Hrun as <-.
  discriminate Hopp.
Qed.

(** C1, amended: the Normalizer resolves the date, status and result of that
    raw item but passes the opponent name through, rank prefix included, and
    leaves the rank absent; the prefix is split off by the Extractor, and
    from the Extractor's record of the same game the Normalizer emits
    opponent "Purdue" with rank 4. *)
Theorem purdue_scenario :
  forall now,
    normalize Central.of_iso now [purdue_raw] (Some "2025-02-02T00:00:00Z")
      = [purdue_row "#4 Purdue" None]
    /\ (exists item,
          parse_event purdue_event = Some item
          /\ Raw.opponent_name item = Some "Purdue"
          /\ Raw.opp_rank item = Some 4
          /\ Raw.date_text item = Some "Feb 1"
          /\ Raw.result item = Some win_78_65)
    /\ normalize Central.of_iso now (scrape [purdue_event])
         (Some "2025-02-02T00:00:00Z")
      = [purdue_row "Purdue" (Some 4)].
Proof.
  intro now. split; [| split].
  - vm_compute. reflexivity.
  - eexists. split; [vm_compute; reflexivity |].
    repeat split; reflexivity.
  - vm_compute. reflexivity.
Qed.

(** ** Season start year *)

Lemma season_of_parsed to_central now scraped_at d :
  to_central (Text.replace_char "Z" "+00:00" (or_str scraped_at "")) = Some d ->
  season_of to_central now scraped_at = detect_season_start_year d.
Proof.
  intro H. unfold season_of, scraped_datetime. now rewrite H.
Qed.

Lemma season_of_unparsed to_central now scraped_at :
  to_central (Text.replace_char "Z" "+00:00" (or_str scraped_at "")) = None ->
  season_of to_central now scraped_at = detect_season_start_year now.
Proof.
  intro H. unfold season_of, scraped_datetime. now rewrite H.
Qed.

(** C4: the season start year is read off the capture time as the library
    gives it in US Central time: the previous year when its month is January,
    February or March, its own year from April on.  With the reference
    instance, 2025-02-01T12:00:00Z gives 2024; 2025-04-01T03:00:00Z, still
    March 31 in Central time, gives 2024 too, and three hours later 2025. *)
Theorem season_start_year_inference :
  (forall to_central now scraped_at d,
      to_central (Text.replace_char "Z" "+00:00" (or_str scraped_at "")) = Some d ->
      (month d = 1 \/ month d = 2 \/ month d = 3 ->
       season_of to_central now scraped_at = year d - 1)
      /\ (4 <= month d -> season_of to_central now scraped_at = year d))
  /\ (forall now,
        season_of Central.of_iso now (Some "2025-02-01T12:00:00Z") = 2024
        /\ season_of Central.of_iso now (Some "2025-04-01T03:00:00Z") = 2024
        /\ season_of Central.of_iso now (Some "2025-04-01T06:00:00Z") = 2025).
Proof.
  split.
  - intros to_central now scraped_at d H.
    rewrite (season_of_parsed _ _ _ _ H). unfold detect_season_start_year.
    split; intro Hm.
    + destruct (Z.leb_spec (month d) 3); [reflexivity | lia].
    + destruct (Z.leb_spec (month d) 3); [lia | reflexivity].
  - intro now. repeat split; vm_compute; reflexivity.
Qed.

Lemma season_start_year_inference_witness :
  Central.of_iso
    (Text.replace_char "Z" "+00:00" (or_str (Some "2025-02-01T12:00:00Z") ""))
    = Some {| year := 2025; month := 2; day := 1;
              hour := 6; minute := 0; second := 0 |}
  /\ season_of Central.of_iso early_april (Some "2025-02-01T12:00:00Z") = 2025 - 1.
Proof.
  assert (H : Central.of_iso
    (Text.replace_char "Z" "+00:00" (or_str (Some "2025-02-01T12:00:00Z") ""))
    = Some {| year := 2025; month := 2; day := 1;
              hour := 6; minute := 0; second := 0 |})
    by (vm_compute; reflexivity).
  split; [exact H |].
  apply (proj1 (proj1 season_start_year_inference _ early_april _ _ H)).
  right; left; reflexivity.
Defined.

(** ** Running the Normalizer twice *)




(** ** Sorting *)

Lemma key_ltb_false_leb a b : key_ltb a b = false -> key_leb b a = true.
Proof.
  unfold key_ltb, key_leb. rewrite (String.eqb_sym (fst b) (fst a)).
  destruct (String.eqb_spec (fst a) (fst b)) as [E | N].
  - unfold String.ltb, String.leb. rewrite (String.compare_antisym (snd b)).
    destruct (String.compare (snd a) (snd b)); simpl; congruence.
  - unfold String.ltb. rewrite (String.compare_antisym (fst b)).
    destruct (String.compare (fst a) (fst b)) eqn:C; simpl; try congruence.
    apply String.compare_eq_iff in C. contradiction.
Qed.

Lemma key_ltb_leb a b : key_ltb a b = true -> key_leb a b = true.
Proof.
  unfold key_ltb, key_leb, String.ltb, String.leb.
  destruct (fst a =? fst b)%string; [| trivial].
  destruct (String.compare (snd a) (snd b)); congruence.
Qed.

Section SortFacts.
Context {A : Type} (key_of : A -> key).

Lemma insert_by_perm x l : Permutation (x :: l) (insert_by key_of x l).
Proof.
  induction l as [| y l IH]; simpl; [constructor; constructor |].
  destruct (key_ltb (key_of y) (key_of x)); [| apply Permutation_refl].
  eapply perm_trans; [apply perm_swap |]. now constructor.
Qed.

Lemma sort_by_perm l : Permutation l (sort_by key_of l).
Proof.
  induction l as [| x l IH]; simpl; [constructor |].
  eapply perm_trans; [| apply insert_by_perm]. now constructor.
Qed.

Lemma insert_by_hd z x l :
  (ordered key_of) z x -> HdRel (ordered key_of) z l -> HdRel (ordered key_of) z (insert_by key_of x l).
Proof.
  intros Hx Hl. destruct l as [| y l]; simpl; [now constructor |].
  destruct (key_ltb (key_of y) (key_of x)); constructor; trivial.
  now inversion Hl.
Qed.

Lemma insert_by_sorted x l :
  Sorted (ordered key_of) l -> Sorted (ordered key_of) (insert_by key_of x l).
Proof.
  induction 1 as [| y l Hs IH Hh]; simpl; [repeat constructor |].
  destruct (key_ltb (key_of y) (key_of x)) eqn:C.
  - constructor; [exact IH |].
    apply insert_by_hd; [| exact Hh]. now apply key_ltb_leb.
  - constructor; [now constructor |]. constructor.
    now apply key_ltb_false_leb.
Qed.

Lemma sort_by_sorted l : Sorted (ordered key_of) (sort_by key_of l).
Proof.
  induction l as [| x l IH]; simpl; [constructor |].
  now apply insert_by_sorted.
Qed.

Lemma sorted_adjacent l :
  Sorted (ordered key_of) l ->
  forall pre a b post, l = (pre ++ a :: b :: post)%list -> (ordered key_of) a b.
Proof.
  induction 1 as [| y l Hs IH Hh]; intros pre a b post E.
  - now destruct pre.
  - destruct pre as [| p pre]; simpl in E; injection E as -> ->.
    + now inversion Hh.
    + eapply IH. reflexivity.
Qed.

Lemma sort_by_in x l : In x (sort_by key_of l) <-> In x l.
Proof.
  split; apply Permutation_in;
    [apply Permutation_sym |]; apply sort_by_perm.
Qed.
End SortFacts.

Lemma collect_in {A B : Type} (f : A -> option B) l y :
  In y (collect f l) <-> exists x, In x l /\ f x = Some y.
Proof.
  induction l as [| x l IH]; simpl.
  - split; [tauto | now intros (? & ? & ?)].
  - destruct (f x) as [z |] eqn:E; simpl; rewrite IH; split.
    + intros [-> | (x' & Hx & Hf)]; eauto.
    + intros (x' & [-> | Hx] & Hf); [left; congruence | right; eauto].
    + intros (x' & Hx & Hf); eauto.
    + intros (x' & [-> | Hx] & Hf); [congruence | eauto].
Qed.

Lemma normalize_in to_central now items scraped_at r :
  In r (normalize to_central now items scraped_at) <->
  exists it, In it items
             /\ normalize_item (season_of to_central now scraped_at) it = Some r.
Proof.
  unfold normalize. rewrite sort_by_in. apply collect_in.
Qed.

Lemma or_str_truthy s d : Text.truthy s = true -> or_str (Some s) d = s.
Proof. intro H. unfold or_str. now rewrite H. Qed.

Lemma truthy_opt_some x s : truthy_opt x = Some s -> x = Some s /\ Text.truthy s = true.
Proof.
  destruct x as [t |]; simpl; [| discriminate]. unfold nonempty.
  destruct (Text.truthy t) eqn:E; [| discriminate]. intros [= <-]. now split.
Qed.

Lemma resolve_date_truthy y it d :
  resolve_date y it = Some d -> Text.truthy d = true.
Proof.
  unfold resolve_date. intro H. now apply truthy_opt_some in H.
Qed.

(** What a surviving record went through. *)
Lemma normalize_item_some y it r :
  normalize_item y it = Some r ->
  let raw_opp := Text.strip (or_str (Raw.opponent_name it) "") in
  Text.truthy raw_opp = true
  /\ Text.contains (Text.lower raw_opp) EXHIBITION = false
  /\ Text.startswith (Text.lower raw_opp) PLACEHOLDER = false
  /\ resolve_date y it = Some (Canon.date r)
  /\ Canon.opponent r = raw_opp
  /\ Canon.arena_key r = slug (or_str (clean_arena it) "unknown").
Proof.
  unfold normalize_item. cbv zeta.
  destruct (Text.truthy (Text.strip (or_str (Raw.opponent_name it) ""))) eqn:T;
    simpl; [| discriminate].
  destruct (Text.contains _ EXHIBITION) eqn:C; [discriminate |].
  destruct (Text.startswith _ PLACEHOLDER) eqn:P; [discriminate |].
  destruct (resolve_date y it) as [d |] eqn:D; [| discriminate].
  intros [= <-]. cbn [Canon.date Canon.opponent Canon.arena_key].
  rewrite T. repeat split.
Qed.

(** X1, the sort invariant on keys: adjacent rows of the output are in key
    order, the key being the date and the local time, an absent time read
    as 23:59, compared as strings. *)
Theorem normalize_adjacent_in_key_order :
  forall to_central now items scraped_at pre a b post,
    normalize to_central now items scraped_at = (pre ++ a :: b :: post)%list ->
    key_leb (Canon.date a, or_str (Canon.time_local a) "23:59")
            (Canon.date b, or_str (Canon.time_local b) "23:59") = true.
Proof.
  intros to_central now items scraped_at pre a b post E.
  assert (Hab : ordered sort_key a b).
  { eapply sorted_adjacent; [| exact E]. apply sort_by_sorted. }
  assert (Hd : forall r, In r (normalize to_central now items scraped_at) ->
                         or_str (Some (Canon.date r)) "9999-12-31" = Canon.date r).
  { intros r Hr. apply normalize_in in Hr. destruct Hr as (it & _ & Hr).
    apply normalize_item_some in Hr. destruct Hr as (_ & _ & _ & Hres & _).
    apply or_str_truthy. eapply resolve_date_truthy, Hres. }
  unfold ordered, sort_key in Hab.
  rewrite (Hd a), (Hd b) in Hab; [exact Hab | |]; rewrite E;
    apply in_or_app; right; simpl; tauto.
Qed.

Lemma normalize_adjacent_in_key_order_witness :
  normalize Central.of_iso late_march [timed_raw; untimed_raw] None
    = ([] ++ game_row "2025-11-05" "Ohio State" None
          :: game_row "2025-11-05" "Iowa" (Some "7:00 PM") :: [])%list
  /\ key_leb ("2025-11-05", "23:59") ("2025-11-05", "7:00 PM") = true.
Proof.
  assert (E : normalize Central.of_iso late_march [timed_raw; untimed_raw] None
    = ([] ++ game_row "2025-11-05" "Ohio State" None
          :: game_row "2025-11-05" "Iowa" (Some "7:00 PM") :: [])%list)
    by (vm_compute; reflexivity).
  split; [exact E |].
  exact (normalize_adjacent_in_key_order _ _ _ _ _ _ _ _ E).
Defined.

(** C7, at the failing input: of two games of one day, the one without a
    time is placed before the one at "7:00 PM", because its key "23:59" is
    the smaller string. *)
Theorem untimed_game_sorts_before_evening_game :
  forall now scraped_at,
    List.map (fun r => (Canon.opponent r, Canon.time_local r))
      (normalize Central.of_iso now [timed_raw; untimed_raw] scraped_at)
    = [("Ohio State", None); ("Iowa", Some "7:00 PM")].
Proof.
  intros now scraped_at. unfold normalize.
  generalize (season_of Central.of_iso now scraped_at). intro y.
  reflexivity.
Qed.

(** ** Filtering *)

(** C6, as stated, fails: a dated record whose name only contains the
    exhibition phrase is dropped, though its name is not empty, does not
    equal the phrase and does not begin with the placeholder prefix. *)
Lemma drop_is_not_exact_match :
  ~ forall y it, normalize_item y it = None <-> drop_as_claimed y it.
Proof.
  intro H. destruct (H 2025 scrimmage_raw) as [H1 _].
  assert (D : normalize_item 2025 scrimmage_raw = None) by reflexivity.
  destruct (H1 D) as [E | [E | [E | E]]]; vm_compute in E; discriminate E.
Qed.

Lemma truthy_false s : Text.truthy s = false <-> s = "".
Proof.
  unfold Text.truthy. destruct (String.eqb_spec s ""); simpl; split; congruence.
Qed.

Lemma truthy_true s : Text.truthy s = true <-> s <> "".
Proof.
  unfold Text.truthy. destruct (String.eqb_spec s ""); simpl; split; congruence.
Qed.

Lemma normalize_item_none y it :
  normalize_item y it = None <-> drop_as_coded y it.
Proof.
  unfold normalize_item, drop_as_coded. cbv zeta.
  destruct (Text.truthy (Text.strip (or_str (Raw.opponent_name it) ""))) eqn:T;
    simpl.
  - apply truthy_true in T.
    destruct (Text.contains _ EXHIBITION) eqn:C; [tauto |].
    destruct (Text.startswith _ PLACEHOLDER) eqn:P; [tauto |].
    destruct (resolve_date y it) as [d |] eqn:D; [| tauto].
    split; [discriminate |].
    intros [E | [E | [E | E]]]; congruence.
  - apply truthy_false in T. tauto.
Qed.

(** C6, amended: a record is dropped exactly when its opponent name is empty
    once surrounding spaces are stripped, or then contains the exhibition
    phrase case-insensitively, or then begins case-insensitively with
    "big ten ", or its date cannot be resolved; no output row's opponent, in
    lower case, contains or equals the exhibition phrase or begins with the
    prefix. *)
Theorem drop_rule :
  (forall y it, normalize_item y it = None <-> drop_as_coded y it)
  /\ (forall to_central now items scraped_at r,
        In r (normalize to_central now items scraped_at) ->
        Text.contains (Text.lower (Canon.opponent r)) EXHIBITION = false
        /\ Text.lower (Canon.opponent r) <> EXHIBITION
        /\ Text.startswith (Text.lower (Canon.opponent r)) PLACEHOLDER = false).
Proof.
  split; [exact normalize_item_none |].
  intros to_central now items scraped_at r Hr.
  apply normalize_in in Hr. destruct Hr as (it & _ & Hr).
  apply normalize_item_some in Hr.
  destruct Hr as (_ & C & P & _ & -> & _).
  repeat split; trivial.
  intro E. rewrite E in C. discriminate C.
Qed.

Lemma drop_rule_witness :
  In (purdue_row "#4 Purdue" None)
     (normalize Central.of_iso late_march [purdue_raw] (Some "2025-02-02T00:00:00Z"))
  /\ Text.lower "#4 Purdue" <> EXHIBITION
  /\ normalize_item 2025 scrimmage_raw = None.
Proof.
  assert (I : In (purdue_row "#4 Purdue" None)
     (normalize Central.of_iso late_march [purdue_raw] (Some "2025-02-02T00:00:00Z")))
    by (vm_compute; left; reflexivity).
  split; [exact I |]. split.
  - exact (proj1 (proj2 (proj2 drop_rule _ _ _ _ _ I))).
  - apply (proj1 drop_rule). right; left. reflexivity.
Defined.

(** ** Facts about the text primitives *)

Module TextFacts.
Import Text.

Lemma app_nil_r s : s ++ "" = s.
Proof. induction s as [| c s IH]; simpl; congruence. Qed.

Lemma app_assoc a b c : (a ++ b) ++ c = a ++ (b ++ c).
Proof. induction a as [| x a IH]; simpl; congruence. Qed.

Lemma app_length a b :
  String.length (a ++ b) = (String.length a + String.length b)%nat.
Proof. induction a as [| x a IH]; simpl; congruence. Qed.

Lemma all_app p a b : all p (a ++ b) = all p a && all p b.
Proof.
  induction a as [| x a IH]; simpl; [reflexivity |].
  rewrite IH. now rewrite andb_assoc.
Qed.

Lemma any_app p a b : any p (a ++ b) = any p a || any p b.
Proof.
  induction a as [| x a IH]; simpl; [reflexivity |].
  rewrite IH. now rewrite orb_assoc.
Qed.

Lemma any_false_all p s : any p s = false <-> all (fun c => negb (p c)) s = true.
Proof.
  induction s as [| c s IH]; simpl; [tauto |].
  rewrite orb_false_iff, andb_true_iff, negb_true_iff. tauto.
Qed.

Lemma all_impl (p q : ascii -> bool) s :
  (forall c, p c = true -> q c = true) -> all p s = true -> all q s = true.
Proof.
  intro H. induction s as [| c s IH]; simpl; [trivial |].
  rewrite !andb_true_iff. intros [? ?]. auto.
Qed.

Lemma all_map (p : ascii -> bool) f s : all p (map f s) = all (fun c => p (f c)) s.
Proof. induction s as [| c s IH]; simpl; congruence. Qed.

Lemma map_nonempty f s : s <> "" -> map f s <> "".
Proof. destruct s; simpl; congruence. Qed.

Lemma take_drop n s : take n s ++ drop n s = s.
Proof.
  revert s. induction n as [| n IH]; intros [| c s]; simpl; trivial.
  now rewrite IH.
Qed.

Lemma take_length_le n s : (String.length (take n s) <= n)%nat.
Proof.
  revert s. induction n as [| n IH]; intros [| c s]; simpl; try lia.
  specialize (IH s). lia.
Qed.

Lemma take_all n s : (String.length s <= n)%nat -> take n s = s.
Proof.
  revert s. induction n as [| n IH]; intros [| c s]; simpl; trivial; try lia.
  intro H. rewrite IH; [reflexivity | lia].
Qed.

Lemma all_take p n s : all p s = true -> all p (take n s) = true.
Proof.
  revert s. induction n as [| n IH]; intros [| c s]; simpl; trivial.
  rewrite !andb_true_iff. intros [? ?]. auto.
Qed.

Lemma drop_app_length a b : drop (String.length a) (a ++ b) = b.
Proof. induction a as [| x a IH]; simpl; [now destruct b | exact IH]. Qed.

Lemma span p s : take_while p s ++ drop_while p s = s.
Proof.
  induction s as [| c s IH]; simpl; trivial.
  destruct (p c); simpl; congruence.
Qed.

Lemma all_take_while p s : all p (take_while p s) = true.
Proof.
  induction s as [| c s IH]; simpl; trivial.
  destruct (p c) eqn:E; simpl; [now rewrite E |trivial].
Qed.

Lemma drop_while_stops p s : at_run p (drop_while p s) = false.
Proof.
  induction s as [| c s IH]; simpl; trivial.
  destruct (p c) eqn:E; simpl; trivial.
Qed.

Lemma take_while_app p a b :
  all p a = true -> at_run p b = false -> take_while p (a ++ b) = a.
Proof.
  intros Ha Hb. induction a as [| x a IH]; simpl in *.
  - destruct b as [| y b]; simpl in *; [trivial | now rewrite Hb].
  - apply andb_true_iff in Ha. destruct Ha as [Hx Ha]. rewrite Hx.
    now rewrite IH.
Qed.

Lemma drop_while_app p a b :
  all p a = true -> drop_while p (a ++ b) = drop_while p b.
Proof.
  intros Ha. induction a as [| x a IH]; simpl in *; trivial.
  apply andb_true_iff in Ha. destruct Ha as [Hx Ha]. rewrite Hx. auto.
Qed.

Lemma drop_while_id p s : at_run p s = false -> drop_while p s = s.
Proof. destruct s as [| c s]; simpl; trivial. now intros ->. Qed.

Lemma at_run_app p a b : a <> "" -> at_run p (a ++ b) = at_run p a.
Proof. destruct a; simpl; congruence. Qed.

Lemma at_run_all p a : a <> "" -> all p a = true -> at_run p a = true.
Proof.
  destruct a; simpl; [congruence |]. intros _ H.
  now apply andb_true_iff in H.
Qed.

Lemma at_run_nonempty p s : at_run p s = true -> s <> "".
Proof. destruct s; simpl; congruence. Qed.

Lemma at_run_all_not p q a :
  (forall c, p c = true -> q c = false) ->
  all p a = true -> at_run q a = false.
Proof.
  intros H. destruct a; simpl; trivial. intro Ha.
  apply andb_true_iff in Ha. now apply H.
Qed.

Lemma take_while_nonempty p s : at_run p s = true -> take_while p s <> "".
Proof. destruct s; simpl; [congruence |]. now intros ->. Qed.

(** Characters, case by case. *)
Ltac by_cases c :=
  destruct c as [[] [] [] [] [] [] [] []]; vm_compute; congruence.

Lemma month_char_not_space c : is_month_char c = true -> is_space c = false.
Proof. by_cases c. Qed.

Lemma space_not_month_char c : is_space c = true -> is_month_char c = false.
Proof. by_cases c. Qed.

Lemma digit_not_space c : is_digit c = true -> is_space c = false.
Proof. by_cases c. Qed.

Lemma space_not_digit c : is_space c = true -> is_digit c = false.
Proof. by_cases c. Qed.

Lemma digit_val_range c : is_digit c = true -> 0 <= digit_val c <= 9.
Proof.
  destruct c as [[] [] [] [] [] [] [] []]; vm_compute;
    (discriminate || (intros _; split; discriminate)).
Qed.

Lemma lower_char_no_slug c :
  is_ascii_alnum c = false -> is_slug_char (lower_char c) = false.
Proof. by_cases c. Qed.

Lemma lower_char_space c : is_space (lower_char c) = is_space c.
Proof. by_cases c. Qed.

Lemma lower_p_is_letter c : lower_char c = "p"%char -> is_ascii_alnum c = true.
Proof. by_cases c. Qed.

Lemma space_not_alnum c : is_space c = true -> is_ascii_alnum c = false.
Proof. by_cases c. Qed.

(** One or two digits read as a number below one hundred. *)
Lemma int_of_two_digits dig :
  (String.length dig = 1 \/ String.length dig = 2)%nat ->
  all is_digit dig = true -> 0 <= int_of dig <= 99.
Proof.
  intros L D. unfold int_of.
  destruct dig as [| a [| b [| c r]]]; cbn [String.length] in L; try lia;
    cbn [int_acc all] in *.
  - apply andb_true_iff in D. destruct D as [Da _].
    pose proof (digit_val_range a Da). lia.
  - apply andb_true_iff in D. destruct D as [Da D].
    apply andb_true_iff in D. destruct D as [Db _].
    pose proof (digit_val_range a Da). pose proof (digit_val_range b Db). lia.
Qed.

End TextFacts.

(** ** The Extractor's record *)

Lemma parse_event_some ev item :
  parse_event ev = Some item ->
  Raw.nebraska_logo_url item = wrapper_img ev 0
  /\ Raw.opponent_logo_url item = wrapper_img ev 1
  /\ Raw.tv_network_logo_url item = get_img_src (Dom.tv_imgs ev)
  /\ Raw.opponent_name item = Some (fst (fst (parse_ranks ev (name_text ev))))
  /\ Raw.nu_rank item = snd (fst (parse_ranks ev (name_text ev)))
  /\ Raw.opp_rank item = snd (parse_ranks ev (name_text ev)).
Proof.
  unfold parse_event. fold (name_text ev).
  destruct (parse_location ev) as [city arena].
  destruct (parse_ranks ev (name_text ev)) as [[name nu] opp].
  destruct (parse_result ev) as [[status result] time_local].
  destruct (parse_dates ev) as [date_iso date_text].
  destruct (Text.truthy name); simpl; [| discriminate].
  intros [= <-]. simpl. repeat split.
Qed.

(** ** Image addresses *)

Lemma usable_not_data u s :
  usable u = Some s -> Text.startswith s DATA_IMAGE = false /\ s <> "".
Proof.
  unfold usable. destruct (truthy_opt u) as [t |] eqn:E; [| discriminate].
  apply truthy_opt_some in E. destruct E as [_ T].
  destruct (Text.startswith t DATA_IMAGE) eqn:D; [discriminate |].
  intros [= <-]. split; [exact D | now apply truthy_true].
Qed.

Lemma get_img_src_not_data locator u :
  get_img_src locator = Some u -> Text.startswith u DATA_IMAGE = false.
Proof.
  destruct locator as [| img rest]; simpl; [discriminate |].
  destruct (usable (Some (evaluate_src img))) as [a |] eqn:A.
  { intros [= <-]. now apply usable_not_data in A. }
  destruct (usable (Dom.attr_src img)) as [b |] eqn:B.
  { intros [= <-]. now apply usable_not_data in B. }
  intro C. now apply usable_not_data in C.
Qed.

Lemma get_img_src_priority img rest :
  reflects_src img ->
  get_img_src (img :: rest)
  = first_usable [Some (Dom.currentSrc img); Dom.attr_src img;
                  Dom.attr_data_src img].
Proof.
  unfold reflects_src, get_img_src, evaluate_src, first_usable. intros ->.
  unfold usable, truthy_opt, nonempty, or_str.
  destruct (Text.truthy (Dom.currentSrc img)) eqn:C;
    destruct (Dom.attr_src img) as [s |];
    try destruct (Text.truthy s) eqn:S;
    destruct (Dom.attr_data_src img) as [d |];
    try destruct (Text.truthy d) eqn:D;
    change (Text.truthy "") with false; cbv iota;
    rewrite ?C, ?S, ?D;
    change (Text.truthy "") with false; cbv iota;
    repeat match goal with
           | |- context [Text.startswith ?x DATA_IMAGE] =>
               destruct (Text.startswith x DATA_IMAGE) eqn:?
           end; congruence.
Qed.

Lemma get_img_src_sources img rest :
  get_img_src (img :: rest)
  = if Text.truthy (Dom.currentSrc img)
    then first_usable [Some (Dom.currentSrc img); Dom.attr_src img;
                       Dom.attr_data_src img]
    else if Text.truthy (Dom.src img)
    then first_usable [Some (Dom.src img); Dom.attr_src img;
                       Dom.attr_data_src img]
    else first_usable [Dom.attr_data_src img; Dom.attr_src img].
Proof.
  unfold get_img_src, evaluate_src, first_usable.
  destruct (Text.truthy (Dom.currentSrc img)) eqn:C;
    [now destruct (usable (Some (Dom.currentSrc img))),
       (usable (Dom.attr_src img)), (usable (Dom.attr_data_src img)) |].
  destruct (Text.truthy (Dom.src img)) eqn:S;
    [now destruct (usable (Some (Dom.src img))),
       (usable (Dom.attr_src img)), (usable (Dom.attr_data_src img)) |].
  unfold usable, truthy_opt, nonempty, or_str.
  destruct (Dom.attr_src img) as [s |];
    try destruct (Text.truthy s) eqn:Ts;
    destruct (Dom.attr_data_src img) as [d |];
    try destruct (Text.truthy d) eqn:Td;
    change (Text.truthy "") with false; cbv iota;
    rewrite ?Ts, ?Td;
    change (Text.truthy "") with false; cbv iota;
    repeat match goal with
           | |- context [Text.startswith ?x DATA_IMAGE] =>
               destruct (Text.startswith x DATA_IMAGE) eqn:?
           end; congruence.
Qed.

(** C9, as stated, fails: the resolver does not choose among the rendered
    source and the two attributes only.  For an image that is not rendered
    yet and whose [src] attribute is the site-relative "/images/logo.png",
    it returns the address the browser resolved for the [src] property,
    "https://huskers.com/images/logo.png", which is none of the three. *)
Lemma resolved_src_is_returned :
  ~ forall img rest,
      get_img_src (img :: rest)
      = first_usable [Some (Dom.currentSrc img); Dom.attr_src img;
                      Dom.attr_data_src img].
Proof.
  intro H. specialize (H relative_img []). vm_compute in H. discriminate H.
Qed.

(** C9, amended: the resolver first asks the page for the rendered source,
    else the [src] property, else the [data-src] attribute, whichever is the
    first that is not empty; it returns that value, else the [src]
    attribute, else the [data-src] attribute, the first that is present (not
    empty) and does not begin with "data:image", and nothing when there is
    none, or no image.  This is the order rendered source, [src] attribute,
    [data-src] attribute when the [src] property shows the [src] attribute.
    Whatever the image, no address beginning with "data:image" is returned,
    so none reaches a logo field of a raw record. *)
Theorem image_url_resolution :
  (forall img rest,
      get_img_src (img :: rest)
      = if Text.truthy (Dom.currentSrc img)
        then first_usable [Some (Dom.currentSrc img); Dom.attr_src img;
                           Dom.attr_data_src img]
        else if Text.truthy (Dom.src img)
        then first_usable [Some (Dom.src img); Dom.attr_src img;
                           Dom.attr_data_src img]
        else first_usable [Dom.attr_data_src img; Dom.attr_src img])
  /\ (forall img rest,
        reflects_src img ->
        get_img_src (img :: rest)
        = first_usable [Some (Dom.currentSrc img); Dom.attr_src img;
                        Dom.attr_data_src img])
  /\ get_img_src [] = None
  /\ (forall locator u,
        get_img_src locator = Some u -> Text.startswith u DATA_IMAGE = false)
  /\ (forall events item u,
        In item (scrape events) ->
        Raw.nebraska_logo_url item = Some u
        \/ Raw.opponent_logo_url item = Some u
        \/ Raw.tv_network_logo_url item = Some u ->
        Text.startswith u DATA_IMAGE = false).
Proof.
  split; [exact get_img_src_sources |].
  split; [exact get_img_src_priority |]. split; [reflexivity |].
  split; [exact get_img_src_not_data |].
  intros events item u Hin Hu. unfold scrape in Hin.
  apply collect_in in Hin. destruct Hin as (ev & _ & Hev).
  apply parse_event_some in Hev. destruct Hev as (N & O & T & _).
  rewrite N, O, T in Hu. unfold wrapper_img in Hu.
  destruct Hu as [Hu | [Hu | Hu]];
    try (destruct (nth_error (Dom.wrappers ev) _); [| discriminate]);
    eapply get_img_src_not_data; exact Hu.
Qed.

Lemma image_url_resolution_witness :
  reflects_src lazy_img
  /\ get_img_src [lazy_img] = Some "https://huskers.com/logo.png".
Proof.
  assert (R : reflects_src lazy_img) by reflexivity.
  split; [exact R |].
  rewrite (proj1 (proj2 image_url_resolution) lazy_img [] R). reflexivity.
Defined.

(** ** Ranks *)

Section RankFacts.
Import Text TextFacts.

Lemma take_prefix n p s :
  take n (take_while p s)
    ++ drop (String.length (take n (take_while p s))) s = s.
Proof.
  revert s. induction n as [| n IH]; intros [| c s]; simpl; trivial.
  destruct (p c); simpl; [now rewrite IH | reflexivity].
Qed.

Lemma take_digits2_split s :
  take_digits2 s ++ drop (String.length (take_digits2 s)) s = s.
Proof. apply take_prefix. Qed.

Lemma take_digits2_digits s : all is_digit (take_digits2 s) = true.
Proof. apply all_take, all_take_while. Qed.

Lemma take_digits2_length s :
  truthy (take_digits2 s) = true ->
  (String.length (take_digits2 s) = 1 \/ String.length (take_digits2 s) = 2)%nat.
Proof.
  intro T. pose proof (take_length_le 2 (take_while is_digit s)) as L.
  fold (take_digits2 s) in L.
  destruct (take_digits2 s); [discriminate T | simpl in *; lia].
Qed.

(** A group found by either pattern stands in the text after a hash. *)
Lemma hash_group_shows pre r :
  truthy (take_digits2 (drop_while is_space r)) = true ->
  shows_rank (pre ++ String "#" r)
             (int_of (take_digits2 (drop_while is_space r))).
Proof.
  intro T. set (dig := take_digits2 (drop_while is_space r)) in *.
  exists pre, (take_while is_space r), dig,
    (drop (String.length dig) (drop_while is_space r)).
  repeat split.
  - f_equal. change ("#" ++ ?x) with (String "#" x). f_equal.
    unfold dig. now rewrite take_digits2_split, span.
  - apply all_take_while.
  - now apply take_digits2_length.
  - apply take_digits2_digits.
Qed.

Lemma search_rank_shows s dig :
  search_rank s = Some dig -> shows_rank s (int_of dig).
Proof.
  induction s as [| c r IH]; simpl; [discriminate |].
  destruct (Ascii.eqb_spec c "#") as [-> | N]; simpl.
  - destruct (truthy (take_digits2 (drop_while is_space r))) eqn:T.
    + intros [= <-]. exact (hash_group_shows "" r T).
    + intro H. destruct (IH H) as (pre & ws & d & post & -> & ?).
      now exists (String "#" pre), ws, d, post.
  - intro H. destruct (IH H) as (pre & ws & d & post & -> & ?).
    now exists (String c pre), ws, d, post.
Qed.

Lemma rank_in_shows txt r : rank_in txt = Some r -> shows_rank txt r.
Proof.
  unfold rank_in. destruct (search_rank txt) as [dig |] eqn:S; [| discriminate].
  intros [= <-]. now apply search_rank_shows.
Qed.

Lemma match_rank_name_shows s dig rest :
  match_rank_name s = Some (dig, rest) -> shows_rank s (int_of dig).
Proof.
  unfold match_rank_name. destruct s as [| c r]; [discriminate |].
  destruct (Ascii.eqb_spec c "#") as [-> | N].
  - destruct (truthy (take_digits2 (drop_while is_space r))) eqn:T;
      simpl; [| discriminate].
    destruct (at_run is_space _ && line_to_end _); [| discriminate].
    intros [= <- _]. exact (hash_group_shows "" r T).
  - destruct c as [[] [] [] [] [] [] [] []]; try discriminate. now elim N.
Qed.

Lemma shows_rank_range txt r : shows_rank txt r -> 0 <= r <= 99.
Proof.
  intros (pre & ws & dig & post & _ & _ & L & D & ->).
  now apply int_of_two_digits.
Qed.

(** Where the two ranks of [parse_ranks] come from. *)
Lemma parse_ranks_opp ev r :
  snd (parse_ranks ev (name_text ev)) = Some r ->
  shows_rank (name_text ev) r \/ shows_rank (wrapper_text ev 1) r
  \/ shows_rank (away_rank_text ev) r.
Proof.
  unfold parse_ranks, wrapper_text, away_rank_text.
  destruct (match_rank_name (name_text ev)) as [[dig rest] |] eqn:M.
  - apply match_rank_name_shows in M.
    destruct (nth_error (Dom.wrappers ev) 1); simpl; intros [= <-]; now left.
  - destruct (nth_error (Dom.wrappers ev) 1) as [w |]; simpl.
    + destruct (rank_in (or_str (safe_text (Dom.w_text w)) "")) as [x |] eqn:R.
      * intros [= <-]. right; left. now apply rank_in_shows.
      * destruct (truthy_opt (safe_text (Dom.away_rank ev))) as [txt |] eqn:A;
          [| discriminate].
        apply truthy_opt_some in A. destruct A as [-> A]. simpl.
        unfold or_str. rewrite A. intro H. right; right.
        now apply rank_in_shows.
    + destruct (truthy_opt (safe_text (Dom.away_rank ev))) as [txt |] eqn:A;
        [| discriminate].
      apply truthy_opt_some in A. destruct A as [-> A]. simpl.
      unfold or_str. rewrite A. intro H. right; right.
      now apply rank_in_shows.
Qed.

Lemma parse_ranks_nu ev r :
  snd (fst (parse_ranks ev (name_text ev))) = Some r ->
  shows_rank (wrapper_text ev 0) r \/ shows_rank (home_rank_text ev) r.
Proof.
  unfold parse_ranks, wrapper_text, home_rank_text.
  destruct (match_rank_name (name_text ev)) as [[dig rest] |];
    destruct (nth_error (Dom.wrappers ev) 0) as [w |]; simpl;
    try (destruct (rank_in (or_str (safe_text (Dom.w_text w)) "")) as [x |] eqn:R;
         [intros [= <-]; left; now apply rank_in_shows |]);
    (destruct (truthy_opt (safe_text (Dom.home_rank ev))) as [txt |] eqn:A;
     [| discriminate]);
    apply truthy_opt_some in A; destruct A as [-> A]; simpl;
    unfold or_str; rewrite A; intro H; right; now apply rank_in_shows.
Qed.

(** Three digits after the hash. *)
Lemma three_digits_in_name ws d1 d2 d3 rest :
  all is_space ws = true ->
  is_digit d1 = true -> is_digit d2 = true -> is_digit d3 = true ->
  match_rank_name ("#" ++ ws ++ String d1 (String d2 (String d3 rest))) = None.
Proof.
  intros W D1 D2 D3. simpl.
  rewrite (drop_while_app _ _ _ W). simpl.
  rewrite (digit_not_space _ D1). unfold take_digits2. simpl.
  rewrite D1, D2. simpl. now rewrite (digit_not_space _ D3).
Qed.

Lemma three_digits_in_text ws d1 d2 d3 rest :
  all is_space ws = true ->
  is_digit d1 = true -> is_digit d2 = true -> is_digit d3 = true ->
  search_rank ("#" ++ ws ++ String d1 (String d2 (String d3 rest)))
  = Some (String d1 (String d2 "")).
Proof.
  intros W D1 D2 D3. simpl.
  rewrite (drop_while_app _ _ _ W). simpl.
  rewrite (digit_not_space _ D1). unfold take_digits2. simpl.
  now rewrite D1, D2.
Qed.

End RankFacts.

(** C8, as stated, fails: a zero after the hash in the opponent name is
    matched and gives rank 0, and of three digits in a wrapper text the
    first two are matched and give a rank. *)
Lemma zero_and_three_digit_ranks_are_matched :
  option_map Raw.opp_rank (parse_event (named_event "#0 Iowa" []))
    = Some (Some 0)
  /\ option_map Raw.nu_rank (parse_event iowa_event) = Some (Some 12).
Proof. split; reflexivity. Qed.

Lemma rank_zero_in_text rest :
  at_run Text.is_digit rest = false -> rank_in ("#0" ++ rest) = Some 0.
Proof.
  intro H. unfold rank_in. simpl. unfold take_digits2. simpl.
  destruct rest as [| c rest]; simpl in *; [reflexivity |]. now rewrite H.
Qed.

(** C8, amended: every rank the Extractor produces is the value, 0 to 99, of
    the one or two digits that follow a hash (spaces allowed between) in the
    opponent name, an image-wrapper text or a rank-label text.  In the
    opponent-name prefix the digits must be followed by a space, so three
    digits there are unmatched; in wrapper and rank-label text three digits
    are matched on the first two; a zero is matched and gives rank 0. *)
Theorem rank_parsing :
  (forall ev item r,
      parse_event ev = Some item ->
      (Raw.opp_rank item = Some r ->
       0 <= r <= 99
       /\ (shows_rank (name_text ev) r \/ shows_rank (wrapper_text ev 1) r
           \/ shows_rank (away_rank_text ev) r))
      /\ (Raw.nu_rank item = Some r ->
          0 <= r <= 99
          /\ (shows_rank (wrapper_text ev 0) r
              \/ shows_rank (home_rank_text ev) r)))
  /\ (forall ws d1 d2 d3 rest,
        Text.all Text.is_space ws = true ->
        Text.is_digit d1 = true -> Text.is_digit d2 = true ->
        Text.is_digit d3 = true ->
        match_rank_name ("#" ++ ws ++ String d1 (String d2 (String d3 rest)))
          = None
        /\ rank_in ("#" ++ ws ++ String d1 (String d2 (String d3 rest)))
          = Some (Text.int_of (String d1 (String d2 ""))))
  /\ (forall rest,
        at_run Text.is_digit rest = false -> rank_in ("#0" ++ rest) = Some 0)
  /\ match_rank_name "#0 Iowa" = Some ("0", "Iowa").
Proof.
  split; [| split; [| split; [exact rank_zero_in_text | reflexivity]]].
  - intros ev item r Hev. apply parse_event_some in Hev.
    destruct Hev as (_ & _ & _ & _ & Hnu & Hopp).
    rewrite Hnu, Hopp. split; intro H.
    + apply parse_ranks_opp in H. split; [| exact H].
      destruct H as [H | [H | H]]; eapply shows_rank_range, H.
    + apply parse_ranks_nu in H. split; [| exact H].
      destruct H as [H | H]; eapply shows_rank_range, H.
  - intros ws d1 d2 d3 rest W D1 D2 D3. split.
    + now apply three_digits_in_name.
    + unfold rank_in. now rewrite three_digits_in_text.
Qed.

Lemma rank_parsing_witness :
  parse_event iowa_event = Some iowa_item
  /\ 0 <= 12 <= 99
  /\ (shows_rank (wrapper_text iowa_event 0) 12
      \/ shows_rank (home_rank_text iowa_event) 12).
Proof.
  assert (E : parse_event iowa_event = Some iowa_item) by reflexivity.
  split; [exact E |].
  exact (proj2 (proj1 rank_parsing _ _ 12 E) eq_refl).
Defined.

(** ** Dates from the visible label *)

Section DateFacts.
Import Text TextFacts.

(** The scan finds a reading of the label. *)
Lemma match_date_label_sound label tok dig :
  match_date_label label = Some (tok, dig) -> DateLabel label tok dig.
Proof.
  unfold match_date_label. cbv zeta.
  set (s1 := drop_while is_space label).
  set (s2 := drop_while is_month_char s1).
  set (s3 := drop_while is_space s2).
  destruct (truthy (take_while is_month_char s1)) eqn:T1; simpl; [| discriminate].
  destruct (at_run is_space s2) eqn:G; simpl; [| discriminate].
  destruct (truthy (take_digits2 s3)) eqn:T2; simpl; [| discriminate].
  destruct (all is_space (drop (String.length (take_digits2 s3)) s3)) eqn:W;
    [| discriminate].
  intros [= <- <-].
  exists (take_while is_space label), (take_while is_space s2),
    (drop (String.length (take_digits2 s3)) s3).
  repeat split.
  - rewrite take_digits2_split. unfold s3. rewrite span. unfold s2.
    rewrite span. unfold s1. now rewrite span.
  - apply all_take_while.
  - now apply truthy_true.
  - apply all_take_while.
  - now apply take_while_nonempty.
  - apply all_take_while.
  - now apply take_digits2_length.
  - apply take_digits2_digits.
  - exact W.
Qed.

(** Every reading of the label is the one the scan finds. *)
Lemma match_date_label_complete label tok dig :
  DateLabel label tok dig -> match_date_label label = Some (tok, dig).
Proof.
  intros (ws1 & ws2 & ws3 & -> & W1 & T & M & N2 & W2 & L & D & W3).
  assert (Dn : dig <> "") by (destruct dig; simpl in L; [lia | discriminate]).
  unfold match_date_label. cbv zeta.
  assert (S1 : drop_while is_space (ws1 ++ tok ++ ws2 ++ dig ++ ws3)
               = tok ++ ws2 ++ dig ++ ws3).
  { rewrite (drop_while_app _ _ _ W1). apply drop_while_id.
    rewrite (at_run_app _ _ _ T).
    exact (at_run_all_not _ _ _ month_char_not_space M). }
  rewrite S1.
  assert (G : at_run is_month_char (ws2 ++ dig ++ ws3) = false).
  { rewrite (at_run_app _ _ _ N2).
    exact (at_run_all_not _ _ _ space_not_month_char W2). }
  rewrite (take_while_app _ _ _ M G).
  rewrite (drop_while_app _ _ _ M), (drop_while_id _ _ G).
  assert (S3 : drop_while is_space (ws2 ++ dig ++ ws3) = dig ++ ws3).
  { rewrite (drop_while_app _ _ _ W2). apply drop_while_id.
    rewrite (at_run_app _ _ _ Dn).
    exact (at_run_all_not _ _ _ digit_not_space D). }
  rewrite S3.
  assert (G3 : at_run is_digit ws3 = false)
    by exact (at_run_all_not _ _ _ space_not_digit W3).
  assert (E : take_digits2 (dig ++ ws3) = dig).
  { unfold take_digits2. rewrite (take_while_app _ _ _ D G3).
    apply take_all. lia. }
  rewrite E, drop_app_length, W3.
  rewrite (proj2 (truthy_true tok) T), (proj2 (truthy_true dig) Dn).
  rewrite (at_run_app _ _ _ N2), (at_run_all _ _ N2 W2). reflexivity.
Qed.

Lemma month_in_table key mon :
  dict_get MONTH_IDX key = Some mon -> 1 <= mon <= 12.
Proof.
  unfold MONTH_IDX. simpl.
  repeat match goal with
         | |- (if ?c then _ else _) = _ -> _ =>
             destruct c; [intros [= <-]; lia |]
         end.
  discriminate.
Qed.

Lemma parse_date_of_label label y tok dig mon :
  DateLabel label tok dig -> month_named tok = Some mon ->
  parse_date_from_text (Some label) y
  = Some (iso_format (season_year y mon) mon (int_of dig)).
Proof.
  intros H M. unfold parse_date_from_text.
  rewrite (match_date_label_complete _ _ _ H).
  unfold month_named in M. rewrite M. unfold season_year.
  pose proof (month_in_table _ _ M).
  destruct (Z.ltb_spec mon 8), (Z.leb_spec 8 mon); try lia; reflexivity.
Qed.

Lemma parse_date_some label y d :
  parse_date_from_text label y = Some d ->
  exists l tok dig mon,
    label = Some l /\ DateLabel l tok dig /\ month_named tok = Some mon
    /\ d = iso_format (season_year y mon) mon (int_of dig).
Proof.
  destruct label as [l |]; [| discriminate]. unfold parse_date_from_text.
  destruct (match_date_label l) as [[tok dig] |] eqn:E; [| discriminate].
  apply match_date_label_sound in E.
  change (dict_get MONTH_IDX (lower (take 3 (replace_char "." "" tok))))
    with (month_named tok).
  destruct (month_named tok) as [mon |] eqn:M; [| discriminate].
  intros [= <-]. exists l, tok, dig, mon. repeat split; trivial.
  unfold season_year. pose proof (month_in_table _ _ M).
  destruct (Z.ltb_spec mon 8), (Z.leb_spec 8 mon); try lia; reflexivity.
Qed.

End DateFacts.

Section MonthFacts.
Import Text TextFacts.

Lemma month_char_cases c :
  is_month_char c = true ->
  (is_alpha c = true /\ (c =? ".")%char = false)
  \/ (is_alpha c = false /\ (c =? ".")%char = true).
Proof. destruct c as [[] [] [] [] [] [] [] []]; vm_compute; intuition congruence. Qed.

Lemma fold_ascii_lower c : is_alpha c = true -> lower_char c = fold_ascii c.
Proof. by_cases c. Qed.

Lemma letters_alpha s : all is_alpha (letters s) = true.
Proof.
  induction s as [| c s IH]; [reflexivity |]. cbn [letters].
  destruct (is_alpha c) eqn:E; [| exact IH]. cbn [all]. now rewrite E.
Qed.

Lemma letters_without_periods tok :
  all is_month_char tok = true -> replace_char "." "" tok = letters tok.
Proof.
  induction tok as [| c tok IH]; [reflexivity |]. cbn [all]. intro H.
  apply andb_true_iff in H. destruct H as [Hc H].
  cbn [replace_char letters]. rewrite (IH H).
  destruct (month_char_cases c Hc) as [[-> ->] | [-> ->]]; reflexivity.
Qed.

Lemma table_find_get {V : Type} (d : list (string * V)) k :
  (forall name v, In (name, v) d -> map fold_ascii name = name) ->
  table_find (same_letters k) d = dict_get d (map fold_ascii k).
Proof.
  induction d as [| [name v] d IH]; intro H; [reflexivity |].
  cbn [table_find dict_get]. unfold same_letters at 1.
  rewrite (H name v) by now left.
  rewrite (String.eqb_sym (map fold_ascii k)).
  rewrite IH; [reflexivity |]. intros n w Hn. apply (H n w). now right.
Qed.

Lemma month_names_folded name (v : Z) :
  In (name, v) MONTH_IDX -> map fold_ascii name = name.
Proof.
  unfold MONTH_IDX. cbn [In]. intro H.
  repeat (destruct H as [[= <- <-] | H]; [reflexivity |]). contradiction.
Qed.

Lemma short_key_no_month k :
  (String.length k < 3)%nat -> dict_get MONTH_IDX k = None.
Proof.
  intro H. unfold MONTH_IDX. cbn [dict_get].
  destruct k as [| a [| b [| c k]]]; cbn [String.eqb]; cbn [String.length] in H;
    try lia; repeat destruct (Ascii.eqb _ _); reflexivity.
Qed.

(** The lookup of the code and the month as the specification words it
    agree on every token of letters and periods. *)
Lemma month_named_by_letters tok :
  all is_month_char tok = true ->
  month_named tok = month_by_first_three_letters tok.
Proof.
  intro H. unfold month_named, month_by_first_three_letters.
  rewrite (letters_without_periods _ H).
  pose proof (letters_alpha tok) as A.
  destruct (letters tok) as [| a [| b [| c rest]]];
    try (apply short_key_no_month; cbn; lia).
  cbn [all] in A.
  apply andb_true_iff in A. destruct A as [Aa A].
  apply andb_true_iff in A. destruct A as [Ab A].
  apply andb_true_iff in A. destruct A as [Ac _].
  rewrite (table_find_get _ _ month_names_folded).
  cbn [take lower map].
  now rewrite (fold_ascii_lower _ Aa), (fold_ascii_lower _ Ab),
    (fold_ascii_lower _ Ac).
Qed.

Lemma date_label_token label tok dig :
  DateLabel label tok dig -> all is_month_char tok = true.
Proof. intros (ws1 & ws2 & ws3 & _ & _ & _ & H & _). exact H. Qed.

End MonthFacts.

(** C5: a label that reads as month token and day, the first three letters
    of the token (periods left aside) matching a name of the month table
    without regard to case, gives the text of year, month and day, the year
    being the season start year for August to December and the next year
    for January to July; any other label, and an absent one, gives no date;
    a record with no date of its own and no date from its label is dropped.
    With season start year 2024, "Nov 5" gives 2024-11-05 and "Jan 10" gives
    2025-01-10. *)
Theorem date_text_parsing :
  (forall label y tok dig mon,
      DateLabel label tok dig -> month_by_first_three_letters tok = Some mon ->
      parse_date_from_text (Some label) y
        = Some (iso_format (season_year y mon) mon (Text.int_of dig))
      /\ 1 <= mon <= 12
      /\ (8 <= mon -> season_year y mon = y)
      /\ (mon <= 7 -> season_year y mon = y + 1))
  /\ (forall label y,
        (forall tok dig,
            DateLabel label tok dig -> month_by_first_three_letters tok = None) ->
        parse_date_from_text (Some label) y = None)
  /\ (forall y, parse_date_from_text None y = None)
  /\ (forall y it,
        truthy_opt (Raw.date it) = None ->
        parse_date_from_text (Raw.date_text it) y = None ->
        normalize_item y it = None)
  /\ parse_date_from_text (Some "Nov 5") 2024 = Some "2024-11-05"
  /\ parse_date_from_text (Some "Jan 10") 2024 = Some "2025-01-10".
Proof.
  split; [| split; [| split; [| split; [| split]]]]; try reflexivity.
  - intros label y tok dig mon H M.
    rewrite <- (month_named_by_letters _ (date_label_token _ _ _ H)) in M.
    split; [exact (parse_date_of_label _ _ _ _ _ H M) |].
    split; [exact (month_in_table _ _ M) |].
    unfold season_year. split; intro; destruct (Z.leb_spec 8 mon); lia.
  - intros label y H.
    destruct (parse_date_from_text (Some label) y) as [d |] eqn:E; trivial.
    apply parse_date_some in E.
    destruct E as (l & tok & dig & mon & [= <-] & HL & M & _).
    rewrite (month_named_by_letters _ (date_label_token _ _ _ HL)) in M.
    rewrite (H tok dig HL) in M. discriminate M.
  - intros y it Hd Ht. apply normalize_item_none.
    right; right; right. unfold resolve_date. now rewrite Hd, Ht.
Qed.

Lemma date_text_parsing_witness :
  DateLabel " S.ept. 5 " "S.ept." "5"
  /\ month_by_first_three_letters "S.ept." = Some 9
  /\ parse_date_from_text (Some " S.ept. 5 ") 2024 = Some "2024-09-05".
Proof.
  assert (H : DateLabel " S.ept. 5 " "S.ept." "5").
  { exists " ", " ", " ". repeat split; try discriminate. now left. }
  assert (M : month_by_first_three_letters "S.ept." = Some 9) by reflexivity.
  split; [exact H |]. split; [exact M |].
  exact (proj1 (proj1 date_text_parsing _ 2024 _ _ _ H M)).
Defined.

(** ** The date of a row *)

Section ShapeFacts.
Import Text TextFacts.

Lemma below_checked (p : Z -> bool) (n : Z) z :
  forallb (fun k => p (Z.of_nat k)) (seq 0 (Z.to_nat n)) = true ->
  0 <= z < n -> p z = true.
Proof.
  intros H R. rewrite forallb_forall in H.
  specialize (H (Z.to_nat z)). rewrite Z2Nat.id in H by lia.
  apply H, in_seq. lia.
Qed.

Lemma fmt_year y : 0 <= y <= 9999 -> four_digits (fmt_d 4 y) = true.
Proof.
  intro R. apply (below_checked (fun z => four_digits (fmt_d 4 z)) 10000);
    [vm_compute; reflexivity | lia].
Qed.

Lemma fmt_two n : 0 <= n <= 99 -> two_digits (fmt_d 2 n) = true.
Proof.
  intro R. apply (below_checked (fun z => two_digits (fmt_d 2 z)) 100);
    [vm_compute; reflexivity | lia].
Qed.

Lemma iso_shape_of_parts y m d :
  four_digits y = true -> two_digits m = true -> two_digits d = true ->
  iso_shape (y ++ "-" ++ m ++ "-" ++ d) = true.
Proof.
  destruct y as [| y1 [| y2 [| y3 [| y4 [| ? ?]]]]]; try discriminate.
  destruct m as [| m1 [| m2 [| ? ?]]]; try discriminate.
  destruct d as [| d1 [| d2 [| ? ?]]]; try discriminate.
  unfold four_digits, two_digits. rewrite !andb_true_iff.
  intros [[[Y1 Y2] Y3] Y4] [M1 M2] [D1 D2].
  unfold iso_shape, Calendar.field, Calendar.sep. simpl.
  now rewrite Y1, Y2, Y3, Y4, M1, M2, D1, D2.
Qed.

Lemma iso_format_shape y m d :
  0 <= y <= 9999 -> 0 <= m <= 99 -> 0 <= d <= 99 ->
  iso_shape (iso_format y m d) = true.
Proof.
  intros Y M D. unfold iso_format.
  apply iso_shape_of_parts; [now apply fmt_year | now apply fmt_two ..].
Qed.

Lemma iso_format_nonempty y m d : iso_format y m d <> "".
Proof.
  unfold iso_format, fmt_d, zfill.
  destruct (y <? 0); [discriminate |].
  destruct (zeros _ ++ decimal y) eqn:E; [| discriminate].
  destruct (zeros (4 - String.length (decimal y))); [| discriminate].
  simpl in E. unfold decimal in E.
  destruct (N.to_uint (Z.to_N y)); discriminate E.
Qed.

End ShapeFacts.

(** C2, as stated, fails: the label "Feb 31" gives a row dated 2025-02-31,
    which is no calendar date. *)
Lemma row_date_need_not_be_real :
  ~ forall to_central now items scraped_at r,
      In r (normalize to_central now items scraped_at) ->
      real_iso_date (Canon.date r) = true.
Proof.
  intro H.
  specialize (H Central.of_iso late_march [feb31_raw]
                (Some "2025-02-02T00:00:00Z")
                (game_row "2025-02-31" "Iowa" None)).
  assert (I : In (game_row "2025-02-31" "Iowa" None)
                (normalize Central.of_iso late_march [feb31_raw]
                   (Some "2025-02-02T00:00:00Z")))
    by (vm_compute; left; reflexivity).
  specialize (H I). vm_compute in H. discriminate H.
Qed.

(** C2, amended: the date of every output row is not empty and comes from a
    record of the blob in one of two ways: it is that record's own date,
    copied as it stands, or, the record having none, it is built from the
    record's label as year, month and day, with the month 1 to 12 named by
    the token, the one or two digits of the label as the day (0 to 99, not
    checked against the month), and the year of the season; such a date has
    the form YYYY-MM-DD whenever the season start year is 0 to 9998. *)
Theorem row_date_provenance :
  forall to_central now items scraped_at r,
    In r (normalize to_central now items scraped_at) ->
    Canon.date r <> ""
    /\ exists it,
         In it items
         /\ (Raw.date it = Some (Canon.date r)
             \/ (truthy_opt (Raw.date it) = None
                 /\ exists label tok dig mon,
                      Raw.date_text it = Some label
                      /\ DateLabel label tok dig
                      /\ month_named tok = Some mon
                      /\ 1 <= mon <= 12
                      /\ 0 <= Text.int_of dig <= 99
                      /\ Canon.date r
                         = iso_format
                             (season_year (season_of to_central now scraped_at) mon)
                             mon (Text.int_of dig)
                      /\ (0 <= season_of to_central now scraped_at <= 9998 ->
                          iso_shape (Canon.date r) = true))).
Proof.
  intros to_central now items scraped_at r Hr.
  apply normalize_in in Hr. destruct Hr as (it & Hit & Hr).
  apply normalize_item_some in Hr. destruct Hr as (_ & _ & _ & Hd & _).
  split; [apply truthy_true; eapply resolve_date_truthy, Hd |].
  exists it. split; [exact Hit |].
  unfold resolve_date in Hd. apply truthy_opt_some in Hd. destruct Hd as [Hd _].
  destruct (truthy_opt (Raw.date it)) as [d |] eqn:E.
  - left. apply truthy_opt_some in E. destruct E as [-> _]. exact Hd.
  - right. split; [reflexivity |].
    apply parse_date_some in Hd.
    destruct Hd as (l & tok & dig & mon & Hl & HL & M & ->).
    pose proof (month_in_table _ _ M) as Rm.
    assert (Rd : 0 <= Text.int_of dig <= 99).
    { destruct HL as (? & ? & ? & _ & _ & _ & _ & _ & _ & L & D & _).
      now apply TextFacts.int_of_two_digits. }
    exists l, tok, dig, mon. repeat split; trivial; try lia.
    intro Y. apply iso_format_shape; try lia.
    unfold season_year. destruct (8 <=? mon); lia.
Qed.

Lemma row_date_provenance_witness :
  In (game_row "2025-02-31" "Iowa" None)
     (normalize Central.of_iso late_march [feb31_raw] (Some "2025-02-02T00:00:00Z"))
  /\ "2025-02-31" <> "".
Proof.
  assert (I : In (game_row "2025-02-31" "Iowa" None)
                (normalize Central.of_iso late_march [feb31_raw]
                   (Some "2025-02-02T00:00:00Z")))
    by (vm_compute; left; reflexivity).
  split; [exact I |].
  exact (proj1 (row_date_provenance _ _ _ _ _ I)).
Defined.

(** ** The arena key *)

Section SlugFacts.
Import Text TextFacts.

Lemma all_drop_while p s : all p (drop_while p s) = all p s.
Proof.
  induction s as [| c s IH]; simpl; trivial.
  destruct (p c) eqn:E; simpl; [exact IH | now rewrite E].
Qed.

Lemma rstrip_empty p s : rstrip_with p s = "" <-> all p s = true.
Proof.
  induction s as [| c s IH]; simpl; [tauto |].
  destruct (rstrip_with p s) eqn:R.
  - destruct (p c); simpl; [tauto |]. split; discriminate.
  - split; [discriminate |]. rewrite andb_true_iff. intros [_ H].
    apply IH in H. discriminate H.
Qed.

Lemma all_rstrip p s : all p (rstrip_with p s) = all p s.
Proof.
  induction s as [| c s IH]; simpl; trivial.
  destruct (rstrip_with p s) eqn:R.
  - rewrite (proj1 (rstrip_empty p s) R).
    destruct (p c) eqn:E; simpl; now rewrite ?E.
  - change (all p (String c (String a s0))) with (p c && all p (String a s0)).
    now rewrite IH.
Qed.

Lemma strip_with_empty p s : strip_with p s = "" <-> all p s = true.
Proof.
  unfold strip_with. now rewrite rstrip_empty, all_drop_while.
Qed.

Lemma all_strip_with p s : all p (strip_with p s) = all p s.
Proof. unfold strip_with. now rewrite all_rstrip, all_drop_while. Qed.

(** Stripping keeps only characters of the text. *)
Lemma all_kept_drop_while q p s : all q s = true -> all q (drop_while p s) = true.
Proof.
  induction s as [| c s IH]; simpl; trivial.
  intro H. destruct (p c); [| exact H].
  apply andb_true_iff in H. now apply IH.
Qed.

Lemma all_kept_rstrip q p s : all q s = true -> all q (rstrip_with p s) = true.
Proof.
  induction s as [| c s IH]; simpl; trivial.
  rewrite andb_true_iff. intros [Hc Hs]. specialize (IH Hs).
  destruct (rstrip_with p s) eqn:R.
  - destruct (p c); simpl; now rewrite ?Hc.
  - change (all q (String c (String a s0))) with (q c && all q (String a s0)).
    now rewrite Hc, IH.
Qed.

Lemma all_kept_strip q p s : all q s = true -> all q (strip_with p s) = true.
Proof.
  intro H. unfold strip_with. now apply all_kept_rstrip, all_kept_drop_while.
Qed.

(** Without letters the phrase cannot stand anywhere. *)
Lemma suffix_here_needs_letter s : all no_alnum s = true -> suffix_here s = false.
Proof.
  intro H. unfold suffix_here, phrase_here.
  pose proof (all_kept_drop_while _ is_space _ H) as K.
  destruct (drop_while is_space s) as [| c r]; [reflexivity |].
  simpl in K. apply andb_true_iff in K. destruct K as [K _].
  destruct (String.eqb_spec (lower (take 12 (String c r))) "presented by")
    as [E | N]; [| reflexivity].
  simpl in E. injection E as E _.
  apply lower_p_is_letter in E. unfold no_alnum in K. rewrite E in K.
  discriminate K.
Qed.

Lemma sub_presented_by_id s : all no_alnum s = true -> sub_presented_by s = s.
Proof.
  induction s as [| c s IH]; intro H.
  - reflexivity.
  - cbn [sub_presented_by]. rewrite (suffix_here_needs_letter _ H).
    simpl in H. apply andb_true_iff in H. destruct H as [_ H].
    now rewrite (IH H).
Qed.

Lemma sub_runs_one p s : s <> "" -> all p s = true -> sub_runs p s = "-".
Proof.
  induction s as [| c s IH]; [congruence |]. intros _ H. simpl in *.
  apply andb_true_iff in H. destruct H as [Hc Hs]. rewrite Hc.
  destruct s as [| d s]; [reflexivity |].
  simpl in Hs. apply andb_true_iff in Hs. destruct Hs as [Hd Hs].
  cbn [at_run]. rewrite Hd. apply IH; [discriminate |].
  simpl. now rewrite Hd, Hs.
Qed.

Lemma all_space_lower s : all is_space (lower s) = all is_space s.
Proof.
  unfold lower. rewrite all_map. induction s as [| c s IH]; simpl; trivial.
  now rewrite lower_char_space, IH.
Qed.

Lemma slug_without_alnum s :
  all no_alnum s = true -> all is_space s = false -> slug s = "".
Proof.
  intros A S. unfold slug.
  assert (N : strip (lower s) <> "").
  { intro E. apply strip_with_empty in E. rewrite all_space_lower in E.
    congruence. }
  assert (L : all no_slug (strip (lower s)) = true).
  { apply all_kept_strip. unfold lower. rewrite all_map.
    refine (all_impl _ _ _ _ A). intros c Hc. unfold no_slug.
    rewrite lower_char_no_slug; [reflexivity |].
    unfold no_alnum in Hc. now apply negb_true_iff in Hc. }
  change (fun c => negb (is_slug_char c)) with no_slug.
  now rewrite (sub_runs_one _ _ N L).
Qed.

Lemma or_str_some_id a : or_str (Some a) "" = a.
Proof.
  unfold or_str. destruct (truthy a) eqn:T; [reflexivity |].
  now apply truthy_false in T.
Qed.

Lemma arena_key_without_alnum it a :
  Raw.arena it = Some a -> strip a <> "" -> any is_ascii_alnum a = false ->
  slug (or_str (clean_arena it) "unknown") = "".
Proof.
  intros Ha Hs Hn. unfold clean_arena, stripped. rewrite Ha, or_str_some_id.
  unfold nonempty. rewrite (proj2 (truthy_true _) Hs). simpl.
  assert (A : all no_alnum a = true) by now apply any_false_all.
  assert (S : all is_space a = false).
  { destruct (all is_space a) eqn:E; [| reflexivity].
    now apply strip_with_empty in E. }
  rewrite sub_presented_by_id by now apply all_kept_strip.
  assert (S2 : all is_space (strip (strip a)) = false)
    by (unfold strip; now rewrite !all_strip_with).
  assert (T : truthy (strip (strip a)) = true).
  { apply truthy_true. intro E. rewrite E in S2. discriminate S2. }
  unfold or_str. rewrite T.
  apply slug_without_alnum; [| exact S2].
  now apply all_kept_strip, all_kept_strip.
Qed.

Lemma alnum_lower_slug c :
  is_ascii_alnum c = true -> is_slug_char (lower_char c) = true.
Proof. by_cases c. Qed.

Lemma no_slug_lower_no_alnum a :
  any is_slug_char (lower a) = false -> any is_ascii_alnum a = false.
Proof.
  induction a as [| c a IH]; [reflexivity |]. unfold lower. cbn [map any].
  intro H. apply orb_false_iff in H. destruct H as [Hc H].
  rewrite (IH H), orb_false_r.
  destruct (is_ascii_alnum c) eqn:E; [| reflexivity].
  apply alnum_lower_slug in E. congruence.
Qed.

End SlugFacts.

(** C10, as stated, fails in its second half: the arena "Presented by
    SCHEELS" is present and not blank, yet its key is "unknown". *)
Lemma unknown_key_of_present_arena :
  ~ forall y it r,
      normalize_item y it = Some r -> Canon.arena_key r = "unknown" ->
      stripped (Raw.arena it) = None.
Proof.
  intro H.
  assert (E : exists r, normalize_item 2025 (arena_raw "Presented by SCHEELS") = Some r
                        /\ Canon.arena_key r = "unknown")
    by (eexists; split; reflexivity).
  destruct E as (r & E & K).
  specialize (H _ _ _ E K). discriminate H.
Qed.

(** C10, amended: an arena that is present, not blank, and whose lower-cased
    text holds none of the characters a to z and 0 to 9 gives the empty key,
    not "unknown"; the key "unknown" is given when the arena is absent or
    blank, and otherwise exactly when nothing is left of the arena once a
    "presented by" suffix is removed or when the slug of what is left is
    itself "unknown", as for the arenas "Presented by SCHEELS" and
    "Unknown".  The condition of the first part is put on the lower-cased
    text because that is what [slug] reads: Python lower-cases some
    characters outside ASCII to ASCII letters. *)
Theorem arena_key_rule :
  forall y it r,
    normalize_item y it = Some r ->
    (forall a,
        Raw.arena it = Some a -> Text.strip a <> "" ->
        Text.any Text.is_slug_char (Text.lower a) = false ->
        Canon.arena_key r = "")
    /\ (stripped (Raw.arena it) = None -> Canon.arena_key r = "unknown")
    /\ (Canon.arena_key r = "unknown" <->
        truthy_opt (clean_arena it) = None
        \/ exists c, clean_arena it = Some c /\ slug c = "unknown")
    /\ slug (or_str (clean_arena (arena_raw "Presented by SCHEELS")) "unknown")
       = "unknown"
    /\ slug (or_str (clean_arena (arena_raw "Unknown")) "unknown") = "unknown"
    /\ slug (or_str (clean_arena (arena_raw "---")) "unknown") = "".
Proof.
  intros y it r Hr. apply normalize_item_some in Hr.
  destruct Hr as (_ & _ & _ & _ & _ & ->).
  split; [| split; [| split; [| repeat split; reflexivity]]].
  - intros a Ha Hs Hn. apply arena_key_without_alnum with a; trivial.
    now apply no_slug_lower_no_alnum.
  - intro H. unfold clean_arena. now rewrite H.
  - destruct (clean_arena it) as [c |]; simpl.
    + unfold nonempty, or_str. destruct (Text.truthy c) eqn:T.
      * split; [intro H; right; now exists c |].
        intros [H | (c' & [= <-] & H)]; [discriminate H | exact H].
      * apply truthy_false in T. subst c.
        split; [now left | reflexivity].
    + split; [now left | reflexivity].
Qed.

Lemma arena_key_rule_witness :
  normalize_item 2025 (arena_raw " -- ") = Some (arena_row (Some "--") "")
  /\ Text.strip " -- " <> ""
  /\ Text.any Text.is_slug_char (Text.lower " -- ") = false
  /\ Canon.arena_key (arena_row (Some "--") "") = "".
Proof.
  assert (E : normalize_item 2025 (arena_raw " -- ")
              = Some (arena_row (Some "--") "")) by reflexivity.
  assert (S : Text.strip " -- " <> "") by discriminate.
  assert (A : Text.any Text.is_slug_char (Text.lower " -- ") = false)
    by reflexivity.
  split; [exact E |]. split; [exact S |]. split; [exact A |].
  exact (proj1 (arena_key_rule _ _ _ E) " -- " eq_refl S A).
Defined.

(** ** Further properties of the rows *)

(** X2, the rejection scenario: the raw item named "Big Ten First Round" gives
    no row, whatever its date and other fields. *)
Theorem big_ten_placeholder_rejected :
  forall to_central now scraped_at date date_text time_local arena res r,
    ~ In r (normalize to_central now
              [big_ten_raw date date_text time_local arena res] scraped_at).
Proof.
  intros to_central now scraped_at date date_text time_local arena res r H.
  apply normalize_in in H.
  destruct H as (it & [<- | []] & H). discriminate H.
Qed.

Lemma derive_status_valid it : In (derive_status it) STATUSES.
Proof.
  unfold derive_status.
  destruct (in_list _ STATUSES) eqn:E.
  - unfold in_list in E. apply existsb_exists in E.
    destruct E as (s & Hs & E). apply String.eqb_eq in E. now rewrite E.
  - destruct (is_some (Raw.result it)); simpl; tauto.
Qed.

(** X3: every row has a status among final, scheduled and tbd, a title equal to
    its opponent, and no notes. *)
Theorem row_fields_derived :
  forall to_central now items scraped_at r,
    In r (normalize to_central now items scraped_at) ->
    In (Canon.status r) ["final"; "scheduled"; "tbd"]
    /\ Canon.title r = Canon.opponent r
    /\ Canon.notes r = None.
Proof.
  intros to_central now items scraped_at r H. apply normalize_in in H.
  destruct H as (it & _ & H). unfold normalize_item in H.
  repeat match type of H with
         | (if ?c then _ else _) = _ => destruct c; [discriminate H |]
         | match ?x with _ => _ end = _ => destruct x; [| discriminate H]
         end.
  injection H as <-. cbn [Canon.status Canon.title Canon.opponent Canon.notes].
  split; [apply derive_status_valid | split; reflexivity].
Qed.

Lemma row_fields_derived_witness :
  In (purdue_row "#4 Purdue" None)
     (normalize Central.of_iso early_april [purdue_raw] (Some "2025-02-02T00:00:00Z"))
  /\ In "final" ["final"; "scheduled"; "tbd"].
Proof.
  assert (I : In (purdue_row "#4 Purdue" None)
     (normalize Central.of_iso early_april [purdue_raw] (Some "2025-02-02T00:00:00Z")))
    by (vm_compute; left; reflexivity).
  split; [exact I |].
  exact (proj1 (row_fields_derived _ _ _ _ _ I)).
Defined.

(** * Further properties of the code *)

(** ** The sort is stable *)

Lemma string_ltb_irrefl s : String.ltb s s = false.
Proof.
  unfold String.ltb. pose proof (String.compare_antisym s s) as H.
  destruct (String.compare s s); simpl in H; congruence.
Qed.

Lemma key_ltb_irrefl a : key_ltb a a = false.
Proof.
  unfold key_ltb. rewrite String.eqb_refl. apply string_ltb_irrefl.
Qed.

Lemma key_eqb_eq a b : key_eqb a b = true -> a = b.
Proof.
  destruct a, b. unfold key_eqb. simpl. rewrite andb_true_iff.
  intros [H1 H2]. apply String.eqb_eq in H1, H2. congruence.
Qed.

Section Stable.
Context {A : Type} (key_of : A -> key).

Lemma filter_insert_by k x l :
  filter (keyed key_of k) (insert_by key_of x l)
  = if keyed key_of k x then x :: filter (keyed key_of k) l else filter (keyed key_of k) l.
Proof.
  induction l as [| y l IH]; simpl; [reflexivity |].
  destruct (key_ltb (key_of y) (key_of x)) eqn:L; simpl; [| reflexivity].
  rewrite IH. destruct (keyed key_of k x) eqn:X; [| reflexivity].
  destruct (keyed key_of k y) eqn:Y; [| reflexivity].
  unfold keyed in X, Y. apply key_eqb_eq in X, Y.
  rewrite X, Y, key_ltb_irrefl in L. discriminate L.
Qed.

Lemma filter_sort_by k l :
  filter (keyed key_of k) (sort_by key_of l) = filter (keyed key_of k) l.
Proof.
  induction l as [| x l IH]; simpl; [reflexivity |].
  rewrite filter_insert_by, IH. reflexivity.
Qed.
End Stable.

Lemma collect_length {A B : Type} (f : A -> option B) l :
  (List.length (collect f l) <= List.length l)%nat.
Proof.
  induction l as [| x l IH]; simpl; [lia |].
  destruct (f x); simpl; lia.
Qed.

Lemma collect_ext {A B : Type} (f g : A -> option B) l :
  (forall x, In x l -> f x = g x) -> collect f l = collect g l.
Proof.
  induction l as [| x l IH]; simpl; intro H; [reflexivity |].
  rewrite (H x) by now left. rewrite IH by (intros; apply H; now right).
  reflexivity.
Qed.

(** X4: the output holds exactly the rows of the records that survive, each
    once and never more rows than records, and the sort is stable: the rows
    that share a date and a time stand in the order of their records in the
    blob. *)
Theorem normalize_stable :
  forall to_central now items scraped_at k,
    Permutation
      (collect (normalize_item (season_of to_central now scraped_at)) items)
      (normalize to_central now items scraped_at)
    /\ (List.length (normalize to_central now items scraped_at)
        <= List.length items)%nat
    /\ filter (keyed sort_key k) (normalize to_central now items scraped_at)
       = filter (keyed sort_key k)
           (collect (normalize_item (season_of to_central now scraped_at)) items).
Proof.
  intros to_central now items scraped_at k. unfold normalize.
  split; [apply sort_by_perm | split; [| apply filter_sort_by]].
  rewrite <- (Permutation_length (sort_by_perm sort_key _)).
  apply collect_length.
Qed.

(** ** Records that carry their own date *)

Lemma normalize_item_dated y y' it :
  truthy_opt (Raw.date it) <> None ->
  normalize_item y it = normalize_item y' it.
Proof.
  intro H. unfold normalize_item, resolve_date.
  destruct (truthy_opt (Raw.date it)); [reflexivity | now elim H].
Qed.

(** X5: when every record of the blob carries a non-empty date of its own,
    the output depends neither on the capture timestamp nor on the clock:
    the season year only enters through dates read from labels. *)
Theorem dated_records_ignore_capture_time :
  forall to_central now scraped_at to_central' now' scraped_at' items,
    (forall it, In it items -> truthy_opt (Raw.date it) <> None) ->
    normalize to_central now items scraped_at
    = normalize to_central' now' items scraped_at'.
Proof.
  intros to_central now scraped_at to_central' now' scraped_at' items H.
  unfold normalize. f_equal. apply collect_ext.
  intros it Hit. apply normalize_item_dated. now apply H.
Qed.

Lemma dated_records_ignore_capture_time_witness :
  (forall it, In it [timed_raw; untimed_raw] -> truthy_opt (Raw.date it) <> None)
  /\ normalize Central.of_iso late_march [timed_raw; untimed_raw] None
     = normalize (fun _ => None) early_april [timed_raw; untimed_raw]
         (Some "2031-06-01T00:00:00Z").
Proof.
  assert (H : forall it, In it [timed_raw; untimed_raw] ->
                         truthy_opt (Raw.date it) <> None).
  { intros it [<- | [<- | []]]; discriminate. }
  split; [exact H |].
  exact (dated_records_ignore_capture_time _ _ _ _ _ _ _ H).
Defined.

(** ** The shape of a slug *)

Section SlugShape.
Import Text TextFacts.

Lemma is_dash_eq c : is_dash c = true -> c = "-"%char.
Proof. unfold is_dash. apply Ascii.eqb_eq. Qed.

Lemma all_sub_runs (q p : ascii -> bool) s :
  q "-"%char = true -> all q s = true -> all q (sub_runs p s) = true.
Proof.
  intros Hd. induction s as [| c s IH]; simpl; [trivial |].
  rewrite andb_true_iff. intros [Hc Hs]. specialize (IH Hs).
  destruct (p c); [destruct (at_run p s) |]; simpl; now rewrite ?Hd, ?Hc.
Qed.

(** What is left of a run is a dash; the rest is untouched. *)
Lemma sub_runs_chars p s :
  all (fun c => negb (p c) || is_dash c) (sub_runs p s) = true.
Proof.
  induction s as [| c s IH]; simpl; [trivial |].
  destruct (p c) eqn:E; [destruct (at_run p s) |]; simpl; trivial.
  - rewrite IH. now rewrite orb_true_r.
  - now rewrite E, IH.
Qed.

Lemma at_run_sub_runs_dash s :
  at_run is_dash (sub_runs is_dash s) = at_run is_dash s.
Proof.
  induction s as [| c s IH]; simpl; [trivial |].
  destruct (is_dash c) eqn:E; [| simpl; exact E].
  destruct (at_run is_dash s) eqn:R; [now rewrite IH | reflexivity].
Qed.

Lemma no_double_sub_runs_dash s : no_double is_dash (sub_runs is_dash s) = true.
Proof.
  induction s as [| c s IH]; simpl; [trivial |].
  destruct (is_dash c) eqn:E.
  - destruct (at_run is_dash s) eqn:R; [exact IH |].
    simpl. now rewrite at_run_sub_runs_dash, R, IH.
  - simpl. now rewrite E, IH.
Qed.

Lemma at_run_rstrip q p s :
  at_run q (rstrip_with p s) = true -> at_run q s = true.
Proof.
  destruct s as [| c s]; simpl; [trivial |].
  destruct (rstrip_with p s); [destruct (p c) |]; simpl; trivial; discriminate.
Qed.

Lemma no_double_drop_while q p s :
  no_double q s = true -> no_double q (drop_while p s) = true.
Proof.
  induction s as [| c s IH]; simpl; [trivial |].
  intro H. destruct (p c); [| exact H].
  apply andb_true_iff in H. now apply IH.
Qed.

Lemma no_double_rstrip q p s :
  no_double q s = true -> no_double q (rstrip_with p s) = true.
Proof.
  induction s as [| c s IH]; simpl; [trivial |].
  rewrite andb_true_iff. intros [Hc Hs]. specialize (IH Hs).
  destruct (rstrip_with p s) as [| a r] eqn:R.
  - destruct (p c); simpl; [trivial |]. now rewrite andb_false_r.
  - change (no_double q (String c (String a r)))
      with (negb (q c && at_run q (String a r)) && no_double q (String a r)).
    rewrite IH, andb_true_r.
    destruct (at_run q (String a r)) eqn:G; [| now rewrite andb_false_r].
    rewrite <- R in G. apply at_run_rstrip in G. now rewrite G in Hc.
Qed.

Lemma at_run_rstrip_stays p s :
  at_run p s = false -> at_run p (rstrip_with p s) = false.
Proof.
  destruct s as [| c s]; simpl; [trivial |]. intro H.
  destruct (rstrip_with p s); [rewrite H |]; simpl; trivial.
Qed.

Lemma ends_in_rstrip p s : ends_in p (rstrip_with p s) = false.
Proof.
  induction s as [| c s IH]; simpl; [trivial |].
  destruct (rstrip_with p s) as [| a r] eqn:R.
  - destruct (p c) eqn:E; simpl; trivial.
  - change (ends_in p (String c (String a r)))
      with (ends_in p (String a r)). exact IH.
Qed.

Lemma strip_with_ends p s :
  at_run p (strip_with p s) = false /\ ends_in p (strip_with p s) = false.
Proof.
  unfold strip_with. split; [| apply ends_in_rstrip].
  apply at_run_rstrip_stays, drop_while_stops.
Qed.

Lemma slug_shape s : slug_shaped (slug s) = true.
Proof.
  unfold slug, slug_shaped.
  set (t := sub_runs is_dash _).
  destruct (strip_with_ends is_dash t) as [H1 H2]. rewrite H1, H2. simpl.
  rewrite !andb_true_r. apply andb_true_iff. split.
  - apply all_kept_strip. unfold t. apply all_sub_runs; [reflexivity |].
    refine (all_impl _ _ _ _ (sub_runs_chars _ _)).
    intros c. unfold slug_or_dash. now rewrite negb_involutive.
  - unfold strip_with. apply no_double_rstrip, no_double_drop_while.
    apply no_double_sub_runs_dash.
Qed.

(** A well-formed slug is left as it is. *)
Lemma rstrip_id p s : ends_in p s = false -> rstrip_with p s = s.
Proof.
  induction s as [| c s IH]; simpl; [trivial |].
  destruct s as [| d s]; [simpl; now intros -> |].
  intro H. change (String d s =? "")%string with false in H. cbv iota in H.
  rewrite (IH H). reflexivity.
Qed.

Lemma strip_with_id p s :
  at_run p s = false -> ends_in p s = false -> strip_with p s = s.
Proof.
  intros H1 H2. unfold strip_with.
  now rewrite (drop_while_id _ _ H1), (rstrip_id _ _ H2).
Qed.

Lemma ends_in_any p s : ends_in p s = true -> any p s = true.
Proof.
  induction s as [| c s IH]; simpl; [trivial |].
  destruct s as [| d s]; [simpl; now intros -> |].
  intro H. change (String d s =? "")%string with false in H. cbv iota in H.
  rewrite (IH H). apply orb_true_r.
Qed.

Lemma at_run_any p s : at_run p s = true -> any p s = true.
Proof. destruct s; simpl; [trivial |]. now intros ->. Qed.

Lemma strip_without p s : any p s = false -> strip_with p s = s.
Proof.
  intro H. apply strip_with_id.
  - destruct (at_run p s) eqn:E; [| reflexivity].
    apply at_run_any in E. congruence.
  - destruct (ends_in p s) eqn:E; [| reflexivity].
    apply ends_in_any in E. congruence.
Qed.

Lemma slug_or_dash_lower c : slug_or_dash c = true -> lower_char c = c.
Proof. by_cases c. Qed.

Lemma slug_or_dash_not_space c : slug_or_dash c = true -> is_space c = false.
Proof. by_cases c. Qed.

Lemma not_slug_is_dash c :
  slug_or_dash c = true -> is_slug_char c = false -> c = "-"%char.
Proof. by_cases c. Qed.

Lemma dash_not_slug c : is_dash c = true -> is_slug_char c = false.
Proof. by_cases c. Qed.

Lemma lower_id s : all slug_or_dash s = true -> lower s = s.
Proof.
  induction s as [| c s IH]; simpl; [trivial |].
  rewrite andb_true_iff. intros [Hc Hs].
  unfold lower in *. simpl. now rewrite (slug_or_dash_lower _ Hc), IH.
Qed.

Lemma any_space_slug s : all slug_or_dash s = true -> any is_space s = false.
Proof.
  intro H. apply any_false_all.
  refine (all_impl _ _ _ _ H). intros c Hc.
  now rewrite (slug_or_dash_not_space _ Hc).
Qed.

Lemma sub_runs_no_slug_id s :
  all slug_or_dash s = true -> no_double is_dash s = true ->
  sub_runs (fun c => negb (is_slug_char c)) s = s.
Proof.
  induction s as [| c s IH]; simpl; [trivial |].
  rewrite !andb_true_iff. intros [Hc Hs] [Hn Hd]. rewrite (IH Hs Hd).
  destruct (is_slug_char c) eqn:E; simpl; [reflexivity |].
  pose proof (not_slug_is_dash _ Hc E) as ->.
  destruct s as [| d s]; [reflexivity |]. simpl in *.
  apply andb_true_iff in Hs. destruct Hs as [Hs _].
  destruct (is_slug_char d) eqn:F; simpl; [reflexivity |].
  pose proof (not_slug_is_dash _ Hs F) as ->. discriminate Hn.
Qed.

Lemma sub_runs_dash_id s :
  no_double is_dash s = true -> sub_runs is_dash s = s.
Proof.
  induction s as [| c s IH]; simpl; [trivial |].
  rewrite andb_true_iff. intros [Hn Hd]. rewrite (IH Hd).
  destruct (is_dash c) eqn:E; [| reflexivity].
  simpl in Hn. apply negb_true_iff in Hn. rewrite Hn.
  now rewrite (is_dash_eq _ E).
Qed.

Lemma slug_fixes s : slug_shaped s = true -> slug s = s.
Proof.
  unfold slug_shaped. rewrite !andb_true_iff, !negb_true_iff.
  intros [[[Ha Hs] He] Hd]. unfold slug.
  rewrite (lower_id _ Ha). unfold strip.
  rewrite (strip_without _ _ (any_space_slug _ Ha)).
  rewrite (sub_runs_no_slug_id _ Ha Hd), (sub_runs_dash_id _ Hd).
  now apply strip_with_id.
Qed.

End SlugShape.

(** X6: the slug of any text is well formed: it holds only lower-case ASCII
    letters, digits and dashes, it neither starts nor ends with a dash, and
    no two dashes are neighbours; so every arena key is well formed. *)
Theorem slug_well_formed :
  (forall s, slug_shaped (slug s) = true)
  /\ (forall y it r,
        normalize_item y it = Some r -> slug_shaped (Canon.arena_key r) = true).
Proof.
  split; [exact slug_shape |].
  intros y it r H. apply normalize_item_some in H.
  destruct H as (_ & _ & _ & _ & _ & ->). apply slug_shape.
Qed.

Lemma slug_well_formed_witness :
  normalize_item 2025 (arena_raw " -- ") = Some (arena_row (Some "--") "")
  /\ slug_shaped "" = true.
Proof.
  assert (E : normalize_item 2025 (arena_raw " -- ")
              = Some (arena_row (Some "--") "")) by reflexivity.
  split; [exact E |].
  exact (proj2 slug_well_formed _ _ _ E).
Defined.

(** X7: a well-formed slug is its own slug, and so the slug of a slug is
    that slug again. *)
Theorem slug_idempotent :
  (forall s, slug_shaped s = true -> slug s = s)
  /\ (forall s, slug (slug s) = slug s).
Proof.
  split; [exact slug_fixes |].
  intro s. apply slug_fixes, slug_shape.
Qed.

Lemma slug_idempotent_witness :
  slug_shaped "pinnacle-bank-arena" = true
  /\ slug "pinnacle-bank-arena" = "pinnacle-bank-arena".
Proof.
  assert (H : slug_shaped "pinnacle-bank-arena" = true) by reflexivity.
  split; [exact H |].
  exact (proj1 slug_idempotent _ H).
Defined.

(** ** Reading a formatted date back, and the order of dates *)

Section DateOrder.
Import Text TextFacts.

Lemma fmt_year_value y : 0 <= y <= 9999 -> int_of (fmt_d 4 y) = y.
Proof.
  intro R. apply Z.eqb_eq.
  apply (below_checked (fun z => int_of (fmt_d 4 z) =? z) 10000);
    [vm_compute; reflexivity | lia].
Qed.

Lemma fmt_two_value n : 0 <= n <= 99 -> int_of (fmt_d 2 n) = n.
Proof.
  intro R. apply Z.eqb_eq.
  apply (below_checked (fun z => int_of (fmt_d 2 z) =? z) 100);
    [vm_compute; reflexivity | lia].
Qed.

Lemma fields_of_parts y m d :
  four_digits y = true -> two_digits m = true -> two_digits d = true ->
  Calendar.field (y ++ "-" ++ m ++ "-" ++ d) 0 4 = Some (int_of y)
  /\ Calendar.field (y ++ "-" ++ m ++ "-" ++ d) 5 2 = Some (int_of m)
  /\ Calendar.field (y ++ "-" ++ m ++ "-" ++ d) 8 2 = Some (int_of d).
Proof.
  destruct y as [| y1 [| y2 [| y3 [| y4 [| ? ?]]]]]; try discriminate.
  destruct m as [| m1 [| m2 [| ? ?]]]; try discriminate.
  destruct d as [| d1 [| d2 [| ? ?]]]; try discriminate.
  unfold four_digits, two_digits. rewrite !andb_true_iff.
  intros [[[Y1 Y2] Y3] Y4] [M1 M2] [D1 D2].
  unfold Calendar.field. simpl.
  now rewrite Y1, Y2, Y3, Y4, M1, M2, D1, D2.
Qed.

Lemma iso_format_fields y m d :
  0 <= y <= 9999 -> 0 <= m <= 99 -> 0 <= d <= 99 ->
  Calendar.field (iso_format y m d) 0 4 = Some y
  /\ Calendar.field (iso_format y m d) 5 2 = Some m
  /\ Calendar.field (iso_format y m d) 8 2 = Some d.
Proof.
  intros Y M D. unfold iso_format.
  destruct (fields_of_parts _ _ _ (fmt_year y Y) (fmt_two m M) (fmt_two d D))
    as (F1 & F2 & F3).
  now rewrite F1, F2, F3, (fmt_year_value y Y), (fmt_two_value m M),
    (fmt_two_value d D).
Qed.

Lemma iso_format_real y m d :
  0 <= y <= 9999 -> 0 <= m <= 99 -> 0 <= d <= 99 ->
  real_iso_date (iso_format y m d)
  = (1 <=? y) && (1 <=? m) && (m <=? 12)
    && (1 <=? d) && (d <=? Calendar.days_in_month y m).
Proof.
  intros Y M D. unfold real_iso_date.
  rewrite (iso_format_shape y m d Y M D).
  destruct (iso_format_fields y m d Y M D) as (F1 & F2 & F3).
  now rewrite F1, F2, F3.
Qed.

(** Digits compare as their values do. *)
Lemma digit_compare c c' :
  Ascii.compare c c' = (digit_val c ?= digit_val c').
Proof.
  unfold Ascii.compare, digit_val, code.
  destruct (N.compare_spec (N_of_ascii c) (N_of_ascii c')),
    (Z.compare_spec (Z.of_N (N_of_ascii c) - 48) (Z.of_N (N_of_ascii c') - 48));
    try reflexivity; lia.
Qed.

Lemma compare_two a b :
  two_digits a = true -> two_digits b = true ->
  String.compare a b = (int_of a ?= int_of b).
Proof.
  destruct a as [| a1 [| a2 [| ? ?]]]; try discriminate.
  destruct b as [| b1 [| b2 [| ? ?]]]; try discriminate.
  unfold two_digits. rewrite !andb_true_iff. intros [A1 A2] [B1 B2].
  apply digit_val_range in A1, A2, B1, B2.
  unfold int_of. cbn [String.compare int_acc]. rewrite !digit_compare.
  destruct (Z.compare_spec (digit_val a1) (digit_val b1));
    destruct (Z.compare_spec (digit_val a2) (digit_val b2));
    symmetry; first [apply Z.compare_eq_iff | apply Z.compare_lt_iff
                    | apply Z.compare_gt_iff]; lia.
Qed.

Lemma compare_four a b :
  four_digits a = true -> four_digits b = true ->
  String.compare a b = (int_of a ?= int_of b).
Proof.
  destruct a as [| a1 [| a2 [| a3 [| a4 [| ? ?]]]]]; try discriminate.
  destruct b as [| b1 [| b2 [| b3 [| b4 [| ? ?]]]]]; try discriminate.
  unfold four_digits. rewrite !andb_true_iff.
  intros [[[A1 A2] A3] A4] [[[B1 B2] B3] B4].
  apply digit_val_range in A1, A2, A3, A4, B1, B2, B3, B4.
  unfold int_of. cbn [String.compare int_acc]. rewrite !digit_compare.
  destruct (Z.compare_spec (digit_val a1) (digit_val b1));
    destruct (Z.compare_spec (digit_val a2) (digit_val b2));
    destruct (Z.compare_spec (digit_val a3) (digit_val b3));
    destruct (Z.compare_spec (digit_val a4) (digit_val b4));
    symmetry; first [apply Z.compare_eq_iff | apply Z.compare_lt_iff
                    | apply Z.compare_gt_iff]; lia.
Qed.

Lemma compare_app a b x y :
  String.length a = String.length b ->
  String.compare (a ++ x) (b ++ y)
  = match String.compare a b with
    | Eq => String.compare x y
    | c => c
    end.
Proof.
  revert b. induction a as [| c a IH]; intros [| d b] L;
    simpl in L; try discriminate; [reflexivity |].
  simpl. destruct (Ascii.compare c d); trivial. apply IH. congruence.
Qed.

Lemma four_digits_length s : four_digits s = true -> String.length s = 4%nat.
Proof.
  destruct s as [| ? [| ? [| ? [| ? [| ? ?]]]]]; now try discriminate.
Qed.

Lemma two_digits_length s : two_digits s = true -> String.length s = 2%nat.
Proof. destruct s as [| ? [| ? [| ? ?]]]; now try discriminate. Qed.

Lemma iso_format_compare y m d y' m' d' :
  0 <= y <= 9999 -> 0 <= m <= 99 -> 0 <= d <= 99 ->
  0 <= y' <= 9999 -> 0 <= m' <= 99 -> 0 <= d' <= 99 ->
  String.compare (iso_format y m d) (iso_format y' m' d')
  = compare_ymd y m d y' m' d'.
Proof.
  intros Y M D Y' M' D'. unfold iso_format, compare_ymd.
  pose proof (fmt_year y Y) as Fy. pose proof (fmt_year y' Y') as Fy'.
  pose proof (fmt_two m M) as Fm. pose proof (fmt_two m' M') as Fm'.
  pose proof (fmt_two d D) as Fd. pose proof (fmt_two d' D') as Fd'.
  rewrite compare_app
    by now rewrite (four_digits_length _ Fy), (four_digits_length _ Fy').
  rewrite (compare_four _ _ Fy Fy'), (fmt_year_value y Y), (fmt_year_value y' Y').
  destruct (y ?= y'); trivial.
  change ("-" ++ ?t) with (String "-" t). cbn [String.compare].
  change (Ascii.compare "-" "-") with Eq. cbv iota.
  rewrite compare_app
    by now rewrite (two_digits_length _ Fm), (two_digits_length _ Fm').
  rewrite (compare_two _ _ Fm Fm'), (fmt_two_value m M), (fmt_two_value m' M').
  destruct (m ?= m'); trivial.
  change ("-" ++ ?t) with (String "-" t). cbn [String.compare].
  change (Ascii.compare "-" "-") with Eq. cbv iota.
  now rewrite (compare_two _ _ Fd Fd'), (fmt_two_value d D), (fmt_two_value d' D').
Qed.

End DateOrder.

(** X8: a date read from a label reads back: for a season start year 0 to
    9998 its first four characters are the year of the season for that
    month, the next fields the month and the day of the label; and it is a
    real calendar date exactly when that year is at least 1 and the day
    exists in that month of that year. *)
Theorem label_date_reads_back :
  forall label y ds,
    0 <= y <= 9998 ->
    parse_date_from_text label y = Some ds ->
    exists l tok dig mon,
      label = Some l /\ DateLabel l tok dig /\ month_named tok = Some mon
      /\ Calendar.field ds 0 4 = Some (season_year y mon)
      /\ Calendar.field ds 5 2 = Some mon
      /\ Calendar.field ds 8 2 = Some (Text.int_of dig)
      /\ real_iso_date ds
         = (1 <=? season_year y mon) && (1 <=? Text.int_of dig)
           && (Text.int_of dig <=? Calendar.days_in_month (season_year y mon) mon).
Proof.
  intros label y ds Y H. apply parse_date_some in H.
  destruct H as (l & tok & dig & mon & -> & HL & M & ->).
  pose proof (month_in_table _ _ M) as Rm.
  assert (Rd : 0 <= Text.int_of dig <= 99).
  { destruct HL as (? & ? & ? & _ & _ & _ & _ & _ & _ & L & D & _).
    now apply TextFacts.int_of_two_digits. }
  assert (Ry : 0 <= season_year y mon <= 9999)
    by (unfold season_year; destruct (8 <=? mon); lia).
  exists l, tok, dig, mon.
  destruct (iso_format_fields _ mon (Text.int_of dig) Ry ltac:(lia) Rd)
    as (F1 & F2 & F3).
  repeat split; trivial.
  rewrite iso_format_real by lia.
  destruct (Z.leb_spec 1 mon), (Z.leb_spec mon 12); try lia.
Qed.

Lemma label_date_reads_back_witness :
  0 <= 2024 <= 9998
  /\ parse_date_from_text (Some "Feb 29") 2024 = Some "2025-02-29"
  /\ exists l tok dig mon,
       Some "Feb 29" = Some l /\ DateLabel l tok dig
       /\ month_named tok = Some mon
       /\ Calendar.field "2025-02-29" 0 4 = Some (season_year 2024 mon)
       /\ Calendar.field "2025-02-29" 5 2 = Some mon
       /\ Calendar.field "2025-02-29" 8 2 = Some (Text.int_of dig)
       /\ real_iso_date "2025-02-29"
          = (1 <=? season_year 2024 mon) && (1 <=? Text.int_of dig)
            && (Text.int_of dig
                <=? Calendar.days_in_month (season_year 2024 mon) mon).
Proof.
  assert (Y : 0 <= 2024 <= 9998) by lia.
  assert (P : parse_date_from_text (Some "Feb 29") 2024 = Some "2025-02-29")
    by reflexivity.
  split; [exact Y |]. split; [exact P |].
  exact (label_date_reads_back _ _ _ Y P).
Defined.

(** The order of keys is transitive, and strict order excludes the
    converse. *)
Section KeyOrder.

Lemma string_lt_trans a b c :
  String.compare a b = Lt -> String.compare b c = Lt -> String.compare a c = Lt.
Proof.
  revert b c. induction a as [| x a IH]; intros [| y b] [| z c];
    cbn [String.compare]; try discriminate; trivial.
  destruct (Ascii.compare x y) eqn:Exy; try discriminate.
  - apply Ascii.compare_eq_iff in Exy. subst y.
    destruct (Ascii.compare x z); try discriminate; trivial. apply IH.
  - intros _. destruct (Ascii.compare y z) eqn:Eyz; try discriminate.
    + apply Ascii.compare_eq_iff in Eyz. subst z. now rewrite Exy.
    + intros _. unfold Ascii.compare in *.
      rewrite N.compare_lt_iff in *.
      now rewrite (proj2 (N.compare_lt_iff _ _) (N.lt_trans _ _ _ Exy Eyz)).
Qed.

Lemma string_ltb_trans a b c :
  String.ltb a b = true -> String.ltb b c = true -> String.ltb a c = true.
Proof.
  unfold String.ltb. intros H1 H2.
  destruct (String.compare a b) eqn:E1; try discriminate.
  destruct (String.compare b c) eqn:E2; try discriminate.
  now rewrite (string_lt_trans _ _ _ E1 E2).
Qed.

Lemma string_leb_cases a b :
  String.leb a b = true <-> a = b \/ String.ltb a b = true.
Proof.
  unfold String.leb, String.ltb.
  destruct (String.compare a b) eqn:E; split; intro H; trivial;
    try (now right); try discriminate.
  - left. now apply String.compare_eq_iff.
  - destruct H as [-> | H]; [| discriminate].
    pose proof (string_ltb_irrefl b) as I. unfold String.ltb in I.
    pose proof (String.compare_antisym b b) as S.
    rewrite E in S. simpl in S. congruence.
Qed.

Lemma string_leb_trans a b c :
  String.leb a b = true -> String.leb b c = true -> String.leb a c = true.
Proof.
  rewrite !string_leb_cases. intros [-> | H1] [-> | H2]; auto.
  right. now apply string_ltb_trans with b.
Qed.

Lemma string_ltb_neq a b : String.ltb a b = true -> (a =? b)%string = false.
Proof.
  intro H. destruct (String.eqb_spec a b) as [-> | N]; [| reflexivity].
  now rewrite string_ltb_irrefl in H.
Qed.

Lemma key_leb_trans a b c :
  key_leb a b = true -> key_leb b c = true -> key_leb a c = true.
Proof.
  unfold key_leb.
  destruct (String.eqb_spec (fst a) (fst b)) as [E1 | N1];
    destruct (String.eqb_spec (fst b) (fst c)) as [E2 | N2]; intros H1 H2.
  - rewrite E1, E2, String.eqb_refl. now apply string_leb_trans with (snd b).
  - rewrite E1. now destruct (String.eqb_spec (fst b) (fst c)).
  - rewrite <- E2. now destruct (String.eqb_spec (fst a) (fst b)).
  - pose proof (string_ltb_trans _ _ _ H1 H2) as H.
    now rewrite (string_ltb_neq _ _ H).
Qed.

Lemma key_ltb_not_leb a b : key_ltb a b = true -> key_leb b a = false.
Proof.
  unfold key_ltb, key_leb. rewrite (String.eqb_sym (fst b)).
  destruct (fst a =? fst b)%string; unfold String.ltb, String.leb;
    [rewrite (String.compare_antisym (snd a))
    | rewrite (String.compare_antisym (fst a))];
    match goal with |- context [CompOpp ?c] => destruct c end;
    simpl; congruence.
Qed.

Lemma later_not_smaller {A : Type} (key_of : A -> key) l pre x post z :
  Sorted (ordered key_of) l -> l = (pre ++ x :: post)%list -> In z post ->
  key_leb (key_of x) (key_of z) = true.
Proof.
  intros S E Hz.
  assert (T : Relations_1.Transitive (ordered key_of)).
  { intros u v w. unfold ordered. apply key_leb_trans. }
  apply (Sorted_StronglySorted T) in S. subst l.
  induction pre as [| p pre IH]; cbn [app] in S; inversion S as [| ? ? S' F];
    subst.
  - rewrite Forall_forall in F. now apply F.
  - now apply IH.
Qed.

(** The date of a row of a record that is dated by its label. *)
Lemma label_month_date y it mon r :
  label_month it mon -> normalize_item y it = Some r ->
  exists dig,
    (String.length dig = 1 \/ String.length dig = 2)%nat
    /\ Text.all Text.is_digit dig = true
    /\ Canon.date r = iso_format (season_year y mon) mon (Text.int_of dig).
Proof.
  intros (D & l & tok & dig & L & HL & M) H.
  apply normalize_item_some in H. cbv zeta in H.
  destruct H as (_ & _ & _ & R & _).
  unfold resolve_date in R. rewrite D, L in R.
  rewrite (parse_date_of_label _ _ _ _ _ HL M) in R.
  apply truthy_opt_some in R. destruct R as [[= R] _].
  destruct HL as (? & ? & ? & _ & _ & _ & _ & _ & _ & Len & Dig & _).
  now exists dig.
Qed.

End KeyOrder.

(** X9: formatted dates compare as strings the way their years, months and
    days compare; so, of two records of one run that take their dates from
    their labels, the row of a label of August to December has the smaller
    sort key, and never stands after the row of a label of January to July
    in the output. *)
Theorem label_dates_sort_in_time_order :
  (forall y m d y' m' d',
      0 <= y <= 9999 -> 0 <= m <= 99 -> 0 <= d <= 99 ->
      0 <= y' <= 9999 -> 0 <= m' <= 99 -> 0 <= d' <= 99 ->
      String.compare (iso_format y m d) (iso_format y' m' d')
      = compare_ymd y m d y' m' d')
  /\ (forall to_central now items scraped_at it it' r r' mon mon',
        0 <= season_of to_central now scraped_at <= 9998 ->
        label_month it mon -> 8 <= mon ->
        label_month it' mon' -> mon' <= 7 ->
        normalize_item (season_of to_central now scraped_at) it = Some r ->
        normalize_item (season_of to_central now scraped_at) it' = Some r' ->
        key_ltb (sort_key r) (sort_key r') = true
        /\ forall pre post,
             normalize to_central now items scraped_at
             = (pre ++ r' :: post)%list ->
             ~ In r post).
Proof.
  split; [exact iso_format_compare |].
  intros to_central now items scraped_at it it' r r' mon mon'.
  set (y := season_of to_central now scraped_at).
  intros Y L F L' S H H'.
  assert (Rm : 1 <= mon <= 12).
  { destruct L as (_ & ? & ? & ? & _ & _ & M). exact (month_in_table _ _ M). }
  assert (Rm' : 1 <= mon' <= 12).
  { destruct L' as (_ & ? & ? & ? & _ & _ & M). exact (month_in_table _ _ M). }
  destruct (label_month_date _ _ _ _ L H) as (dig & Len & Dig & E).
  destruct (label_month_date _ _ _ _ L' H') as (dig' & Len' & Dig' & E').
  pose proof (TextFacts.int_of_two_digits _ Len Dig) as Rd.
  pose proof (TextFacts.int_of_two_digits _ Len' Dig') as Rd'.
  assert (K : key_ltb (sort_key r) (sort_key r') = true).
  { assert (C : String.ltb (Canon.date r) (Canon.date r') = true).
    { rewrite E, E'. unfold String.ltb, season_year.
      destruct (Z.leb_spec 8 mon), (Z.leb_spec 8 mon'); try lia.
      rewrite iso_format_compare by lia. unfold compare_ymd.
      now rewrite (proj2 (Z.compare_lt_iff y (y + 1))) by lia. }
    unfold key_ltb, sort_key. cbn [fst snd].
    assert (T : forall x, Canon.date x = iso_format (season_year y mon) mon
                            (Text.int_of dig)
                          \/ Canon.date x = iso_format (season_year y mon') mon'
                               (Text.int_of dig') ->
                          or_str (Some (Canon.date x)) "9999-12-31"
                          = Canon.date x).
    { intros x [Ex | Ex]; apply or_str_truthy, truthy_true; rewrite Ex;
        apply iso_format_nonempty. }
    rewrite (T r) by now left. rewrite (T r') by now right.
    now rewrite (string_ltb_neq _ _ C). }
  split; [exact K |].
  intros pre post O Hin.
  pose proof (later_not_smaller sort_key _ pre r' post r
                (sort_by_sorted sort_key _) O Hin) as G.
  now rewrite (key_ltb_not_leb _ _ K) in G.
Qed.

Lemma label_dates_sort_in_time_order_witness :
  label_month nov5_raw 11 /\ label_month jan10_raw 1
  /\ key_ltb (sort_key (game_row "2024-11-05" "Creighton" None))
       (sort_key (game_row "2025-01-10" "Iowa" None)) = true
  /\ forall pre post,
       normalize Central.of_iso late_march [jan10_raw; nov5_raw]
         (Some "2025-02-02T00:00:00Z")
       = (pre ++ game_row "2025-01-10" "Iowa" None :: post)%list ->
       ~ In (game_row "2024-11-05" "Creighton" None) post.
Proof.
  assert (L : label_month nov5_raw 11).
  { split; [reflexivity |]. exists "Nov 5", "Nov", "5".
    split; [reflexivity |]. split; [| reflexivity].
    exists "", " ", "". repeat split; try discriminate. now left. }
  assert (L' : label_month jan10_raw 1).
  { split; [reflexivity |]. exists "Jan 10", "Jan", "10".
    split; [reflexivity |]. split; [| reflexivity].
    exists "", " ", "". repeat split; try discriminate. now right. }
  assert (Y : 0 <= season_of Central.of_iso late_march
                     (Some "2025-02-02T00:00:00Z") <= 9998)
    by (vm_compute; split; discriminate).
  split; [exact L |]. split; [exact L' |].
  exact (proj2 label_dates_sort_in_time_order Central.of_iso late_march
           [jan10_raw; nov5_raw] (Some "2025-02-02T00:00:00Z")
           nov5_raw jan10_raw _ _ 11 1
           Y L ltac:(lia) L' ltac:(lia) eq_refl eq_refl).
Defined.

(** ** The label is read without regard to case *)

Section CaseFacts.
Import Text TextFacts.

Variable f : ascii -> ascii.

Lemma map_length s : String.length (map f s) = String.length s.
Proof. induction s as [| c s IH]; simpl; congruence. Qed.

Lemma map_truthy s : truthy (map f s) = truthy s.
Proof. now destruct s. Qed.

Lemma map_take n s : take n (map f s) = map f (take n s).
Proof.
  revert s. induction n as [| n IH]; intros [| c s]; simpl; trivial.
  now rewrite IH.
Qed.

Lemma map_drop n s : drop n (map f s) = map f (drop n s).
Proof.
  revert s. induction n as [| n IH]; intros [| c s]; simpl; trivial.
Qed.

Section Class.
Variable p : ascii -> bool.
Hypothesis kept : forall c, p (f c) = p c.

Lemma map_take_while s : take_while p (map f s) = map f (take_while p s).
Proof.
  induction s as [| c s IH]; simpl; trivial.
  rewrite kept. destruct (p c); simpl; congruence.
Qed.

Lemma map_drop_while s : drop_while p (map f s) = map f (drop_while p s).
Proof.
  induction s as [| c s IH]; simpl; trivial.
  rewrite kept. destruct (p c); simpl; congruence.
Qed.

Lemma map_at_run s : at_run p (map f s) = at_run p s.
Proof. destruct s; simpl; trivial. Qed.

Lemma map_all s : all p (map f s) = all p s.
Proof. induction s as [| c s IH]; simpl; trivial. now rewrite kept, IH. Qed.
End Class.
End CaseFacts.

Section FoldFacts.
Import Text TextFacts.

Lemma fold_keeps_space c : is_space (fold_ascii c) = is_space c.
Proof. by_cases c. Qed.

Lemma fold_keeps_digit c : is_digit (fold_ascii c) = is_digit c.
Proof. by_cases c. Qed.

Lemma fold_keeps_month_char c : is_month_char (fold_ascii c) = is_month_char c.
Proof. by_cases c. Qed.

Lemma fold_keeps_period c : (fold_ascii c =? ".")%char = (c =? ".")%char.
Proof. by_cases c. Qed.

Lemma lower_char_fold c : lower_char (fold_ascii c) = lower_char c.
Proof. by_cases c. Qed.

Lemma fold_digit c : is_digit c = true -> fold_ascii c = c.
Proof. by_cases c. Qed.

Lemma lower_fold s : lower (map fold_ascii s) = lower s.
Proof.
  unfold lower. induction s as [| c s IH]; simpl; trivial.
  now rewrite lower_char_fold, IH.
Qed.

Lemma fold_digits s : all is_digit s = true -> map fold_ascii s = s.
Proof.
  induction s as [| c s IH]; simpl; trivial.
  rewrite andb_true_iff. intros [Hc Hs]. now rewrite (fold_digit _ Hc), IH.
Qed.

Lemma fold_replace_period s :
  replace_char "." "" (map fold_ascii s)
  = map fold_ascii (replace_char "." "" s).
Proof.
  induction s as [| c s IH]; simpl; trivial.
  rewrite fold_keeps_period. destruct (c =? ".")%char; simpl; congruence.
Qed.

Lemma match_date_label_fold l :
  match_date_label (map fold_ascii l)
  = option_map (fun td => (map fold_ascii (fst td), map fold_ascii (snd td)))
      (match_date_label l).
Proof.
  unfold match_date_label, take_digits2. cbv zeta.
  rewrite !(map_drop_while fold_ascii is_space fold_keeps_space),
    !(map_drop_while fold_ascii is_month_char fold_keeps_month_char),
    !(map_take_while fold_ascii is_month_char fold_keeps_month_char),
    !(map_drop_while fold_ascii is_space fold_keeps_space),
    !(map_take_while fold_ascii is_digit fold_keeps_digit),
    !map_take, !map_length, !map_drop, !map_truthy,
    !(map_at_run fold_ascii is_space fold_keeps_space),
    !(map_all fold_ascii is_space fold_keeps_space).
  match goal with |- (if ?c then _ else _) = _ => destruct c end; reflexivity.
Qed.

Lemma month_named_fold tok : month_named (map fold_ascii tok) = month_named tok.
Proof.
  unfold month_named. now rewrite fold_replace_period, map_take, lower_fold.
Qed.

Lemma parse_date_fold label y :
  parse_date_from_text (Some (map fold_ascii label)) y
  = parse_date_from_text (Some label) y.
Proof.
  unfold parse_date_from_text. rewrite match_date_label_fold.
  destruct (match_date_label label) as [[tok dig] |] eqn:E;
    cbn [option_map fst snd]; [| reflexivity].
  apply match_date_label_sound in E.
  destruct E as (? & ? & ? & _ & _ & _ & _ & _ & _ & _ & D & _).
  rewrite (fold_digits _ D).
  change (dict_get MONTH_IDX
            (lower (take 3 (replace_char "." "" (map fold_ascii tok)))))
    with (month_named (map fold_ascii tok)).
  rewrite month_named_fold. reflexivity.
Qed.

End FoldFacts.

(** X10: the label is read without regard to the case of its letters: two
    labels that are the same once A to Z are read as a to z, every other
    character being kept as it stands, give the same date, or both none. *)
Theorem label_case_is_ignored :
  forall label label' y,
    same_letters label label' = true ->
    parse_date_from_text (Some label) y = parse_date_from_text (Some label') y.
Proof.
  intros label label' y H. apply String.eqb_eq in H.
  rewrite <- (parse_date_fold label), <- (parse_date_fold label'), H.
  reflexivity.
Qed.

Lemma label_case_is_ignored_witness :
  same_letters "S.EPT. 5" "s.ept. 5" = true
  /\ parse_date_from_text (Some "S.EPT. 5") 2024
     = parse_date_from_text (Some "s.ept. 5") 2024.
Proof.
  assert (H : same_letters "S.EPT. 5" "s.ept. 5" = true) by reflexivity.
  split; [exact H |]. exact (label_case_is_ignored _ _ 2024 H).
Defined.

(** ** [clean] *)

Section CleanFacts.
Import Text TextFacts.

Lemma split_ws_tokens s : Forall is_token (split_ws s).
Proof.
  induction s as [| c s IH]; simpl; [constructor |].
  destruct (is_space c) eqn:E; [exact IH |].
  destruct (at_gap s).
  - constructor; [| exact IH]. split; [discriminate | simpl; now rewrite E].
  - destruct (split_ws s) as [| w ws].
    + constructor; [| constructor].
      split; [discriminate | simpl; now rewrite E].
    + inversion IH as [| ? ? [Hw Hs] Hws]; subst.
      constructor; [| exact Hws].
      split; [discriminate | simpl; now rewrite E, Hs].
Qed.

Lemma split_ws_token w : is_token w -> split_ws w = [w].
Proof.
  intros [N S]. induction w as [| c w IH]; [congruence |].
  simpl in *. apply orb_false_iff in S. destruct S as [Sc Sw]. rewrite Sc.
  destruct w as [| d w]; [reflexivity |].
  assert (G : at_gap (String d w) = false)
    by (simpl in *; now apply orb_false_iff in Sw).
  rewrite G, IH; [reflexivity | discriminate | exact Sw].
Qed.

Lemma split_ws_token_app w rest :
  is_token w -> split_ws (w ++ String " " rest) = w :: split_ws rest.
Proof.
  intros [N S]. induction w as [| c w IH]; [congruence |].
  simpl in *. apply orb_false_iff in S. destruct S as [Sc Sw]. rewrite Sc.
  destruct w as [| d w]; [reflexivity |].
  assert (G : at_gap (String d w ++ String " " rest) = false)
    by (simpl in *; now apply orb_false_iff in Sw).
  rewrite G, IH; [reflexivity | discriminate | exact Sw].
Qed.

Lemma split_ws_concat ws :
  Forall is_token ws -> split_ws (String.concat " " ws) = ws.
Proof.
  induction 1 as [| w ws Hw Hws IH]; [reflexivity |].
  destruct ws as [| w2 ws]; [now apply split_ws_token |].
  change (String.concat " " (w :: w2 :: ws))
    with (w ++ String " " (String.concat " " (w2 :: ws))).
  now rewrite (split_ws_token_app _ _ Hw), IH.
Qed.

Lemma ends_in_app p a b : b <> "" -> ends_in p (a ++ b) = ends_in p b.
Proof.
  intro N. induction a as [| c a IH]; simpl; [reflexivity |].
  destruct (a ++ b) eqn:E; [| exact IH].
  destruct a; simpl in E; congruence.
Qed.

Lemma concat_nonempty w ws : is_token w -> String.concat " " (w :: ws) <> "".
Proof.
  intros [N _]. destruct ws; simpl; destruct w; simpl; congruence.
Qed.

Lemma concat_ends ws :
  Forall is_token ws ->
  at_run is_space (String.concat " " ws) = false
  /\ ends_in is_space (String.concat " " ws) = false.
Proof.
  induction 1 as [| w ws Hw Hws [IH1 IH2]]; [now split |].
  assert (A : at_run is_space w = false).
  { destruct Hw as [_ S]. destruct (at_run is_space w) eqn:E; trivial.
    apply at_run_any in E. congruence. }
  destruct ws as [| w2 ws].
  - split; [exact A |]. destruct Hw as [_ S].
    destruct (ends_in is_space w) eqn:E; trivial.
    apply ends_in_any in E. congruence.
  - change (String.concat " " (w :: w2 :: ws))
      with (w ++ String " " (String.concat " " (w2 :: ws))).
    split.
    + rewrite at_run_app; [exact A | apply Hw].
    + rewrite ends_in_app by discriminate.
      inversion Hws; subst.
      pose proof (concat_nonempty w2 ws ltac:(assumption)) as N.
      destruct (String.concat " " (w2 :: ws)) eqn:E; [congruence |].
      exact IH2.
Qed.

Lemma concat_plain ws :
  Forall is_token ws -> all plain_space (String.concat " " ws) = true.
Proof.
  induction 1 as [| w ws Hw Hws IH]; [reflexivity |].
  assert (W : all plain_space w = true).
  { destruct Hw as [_ S]. apply any_false_all in S.
    refine (all_impl _ _ _ _ S). intros c Hc. unfold plain_space.
    now rewrite Hc. }
  destruct ws as [| w2 ws]; [exact W |].
  change (String.concat " " (w :: w2 :: ws))
    with (w ++ String " " (String.concat " " (w2 :: ws))).
  rewrite all_app, W. simpl. exact IH.
Qed.

Lemma no_double_without p w : any p w = false -> no_double p w = true.
Proof.
  induction w as [| c w IH]; [reflexivity |]. cbn [any no_double]. intro H.
  apply orb_false_iff in H. destruct H as [-> H]. now rewrite IH.
Qed.

Lemma no_double_token_app p w rest :
  any p w = false -> no_double p (w ++ rest) = no_double p rest.
Proof.
  induction w as [| c w IH]; [reflexivity |]. cbn [any append no_double].
  intro H. apply orb_false_iff in H. destruct H as [-> H]. now rewrite IH.
Qed.

Lemma concat_single ws :
  Forall is_token ws -> no_double is_space (String.concat " " ws) = true.
Proof.
  induction 1 as [| w ws Hw Hws IH]; [reflexivity |].
  destruct ws as [| w2 ws]; [apply no_double_without, Hw |].
  change (String.concat " " (w :: w2 :: ws))
    with (w ++ String " " (String.concat " " (w2 :: ws))).
  rewrite no_double_token_app by apply Hw.
  cbn [no_double]. rewrite (proj1 (concat_ends _ Hws)), IH. reflexivity.
Qed.

Lemma strip_twice s : strip (strip s) = strip s.
Proof.
  destruct (strip_with_ends is_space s). now apply strip_with_id.
Qed.

End CleanFacts.

(** X11: [clean] gives a normal form: the words of the text joined by
    single plain spaces, with no space at either end and no other space
    character left; cleaning again or stripping changes nothing, and the
    words are those of the text. *)
Theorem clean_normal_form :
  forall s,
    Text.clean (Text.clean s) = Text.clean s
    /\ Text.strip (Text.clean s) = Text.clean s
    /\ Text.split_ws (Text.clean s) = Text.split_ws s
    /\ Text.all plain_space (Text.clean s) = true
    /\ no_double Text.is_space (Text.clean s) = true
    /\ Forall is_token (Text.split_ws s).
Proof.
  intro s. pose proof (split_ws_tokens s) as T. unfold Text.clean.
  rewrite (split_ws_concat _ T). repeat split; trivial.
  - destruct (concat_ends _ T). now apply strip_with_id.
  - now apply concat_plain.
  - now apply concat_single.
Qed.

(** ** The records of the Extractor *)

Lemma parse_event_fields ev item :
  parse_event ev = Some item ->
  let divider := Text.lower (Text.strip (or_str (safe_text (Dom.divider ev)) "")) in
  let name := fst (fst (parse_ranks ev (name_text ev))) in
  Text.truthy name = true
  /\ Raw.opponent_name item = Some name
  /\ Raw.city item = fst (parse_location ev)
  /\ Raw.arena item = snd (parse_location ev)
  /\ Raw.venue_type item = Some (parse_venue ev divider (fst (parse_location ev)))
  /\ Raw.status item = Some (fst (fst (parse_result ev)))
  /\ Raw.result item = snd (fst (parse_result ev))
  /\ Raw.time_local item = snd (parse_result ev)
  /\ Raw.date item = fst (parse_dates ev)
  /\ Raw.date_text item = snd (parse_dates ev)
  /\ Raw.links item = collect parse_link (Dom.anchors ev)
  /\ Raw.networks item = [].
Proof.
  unfold parse_event. fold (name_text ev).
  destruct (parse_location ev) as [city arena].
  destruct (parse_ranks ev (name_text ev)) as [[name nu] opp].
  destruct (parse_result ev) as [[status result] time_local].
  destruct (parse_dates ev) as [date_iso date_text].
  destruct (Text.truthy name) eqn:T; simpl; [| discriminate].
  intros [= <-]. simpl. repeat split. exact T.
Qed.

Lemma parse_venue_valid ev divider city :
  In (parse_venue ev divider city) ["H"; "A"; "N"].
Proof.
  unfold parse_venue.
  repeat match goal with
         | |- context [if ?c then _ else _] => destruct c
         | |- context [match ?x with _ => _ end] => destruct x
         end; simpl; tauto.
Qed.

Lemma parse_result_valid ev :
  let '(status, result, time_local) := parse_result ev in
  In status STATUSES
  /\ (status = "final" <-> result <> None)
  /\ (status = "scheduled" <-> time_local <> None)
  /\ (forall r, result = Some r -> In (Raw.outcome r) ["W"; "L"; "T"])
  /\ (forall t, time_local = Some t -> t <> "")
  /\ (result <> None -> time_local = None).
Proof.
  unfold parse_result.
  destruct (Dom.has_win ev || Dom.has_loss ev || Dom.has_tie ev).
  - repeat split; try discriminate; try (simpl; tauto); try congruence.
    intros r [= <-]. simpl.
    destruct (Dom.has_win ev); [tauto |]. destruct (Dom.has_loss ev); tauto.
  - unfold nonempty.
    destruct (Text.truthy (or_str (clean (safe_text (Dom.result_label ev))) ""))
      eqn:T; simpl; repeat split; try discriminate; try tauto; try congruence.
    intros t [= <-]. now apply truthy_true.
Qed.

(** X12: every record the Extractor emits has an opponent name that is not
    empty and has no space at either end, a venue type among H, A and N, no
    networks, and a status among final, scheduled and tbd that
    agrees with the rest: final exactly when a result is present, its
    outcome then W, L or T and no local time; scheduled exactly when a local
    time is present, which is then not empty. *)
Theorem extractor_record_invariant :
  forall ev item,
    parse_event ev = Some item ->
    (exists name,
        Raw.opponent_name item = Some name /\ name <> ""
        /\ Text.strip name = name)
    /\ (exists han, Raw.venue_type item = Some han /\ In han ["H"; "A"; "N"])
    /\ (exists status,
          Raw.status item = Some status
          /\ In status ["final"; "scheduled"; "tbd"]
          /\ (status = "final" <-> Raw.result item <> None)
          /\ (status = "scheduled" <-> Raw.time_local item <> None))
    /\ (forall r, Raw.result item = Some r -> In (Raw.outcome r) ["W"; "L"; "T"])
    /\ (forall t, Raw.time_local item = Some t -> t <> "")
    /\ (Raw.result item <> None -> Raw.time_local item = None)
    /\ Raw.networks item = [].
Proof.
  intros ev item H. apply parse_event_fields in H. cbv zeta in H.
  destruct H as (T & N & _ & _ & V & S & R & L & _ & _ & _ & K).
  pose proof (parse_result_valid ev) as P.
  destruct (parse_result ev) as [[status result] time_local].
  simpl in S, R, L. rewrite R, L.
  destruct P as (P1 & P2 & P3 & P4 & P5 & P6).
  split; [| split; [| split; [| repeat split; assumption]]].
  - eexists. split; [exact N |]. split; [now apply truthy_true |].
    unfold parse_ranks.
    destruct (match_rank_name (name_text ev)) as [[dig rest] |]; simpl.
    + apply strip_twice.
    + unfold name_text. destruct (clean (safe_text (Dom.opponent_name ev)))
        as [c |] eqn:C; [| reflexivity].
      unfold clean in C. destruct (safe_text (Dom.opponent_name ev)) as [t |];
        [| discriminate]. injection C as <-. unfold or_str.
      destruct (Text.truthy (Text.clean t)); [| reflexivity].
      apply clean_normal_form.
  - eexists. split; [exact V |]. apply parse_venue_valid.
  - exists status. repeat split; trivial; try apply P2; try apply P3.
Qed.

Lemma extractor_record_invariant_witness :
  parse_event purdue_event = Some purdue_item
  /\ exists status,
       Raw.status purdue_item = Some status
       /\ In status ["final"; "scheduled"; "tbd"]
       /\ (status = "final" <-> Raw.result purdue_item <> None)
       /\ (status = "scheduled" <-> Raw.time_local purdue_item <> None).
Proof.
  assert (E : parse_event purdue_event = Some purdue_item) by reflexivity.
  split; [exact E |].
  exact (proj1 (proj2 (proj2 (extractor_record_invariant _ _ E)))).
Defined.

(** ** From the page to the row *)

Lemma normalize_item_fields y it r :
  normalize_item y it = Some r ->
  Canon.status r = derive_status it
  /\ Canon.home_away r = or_str (Raw.venue_type it) "N"
  /\ Canon.result r
     = option_map (fun x => Raw.outcome x ++ " " ++ Raw.sets x) (Raw.result it)
  /\ Canon.result_css r
     = match Raw.result it with
       | Some x => if in_list (Raw.outcome x) ["W"; "L"; "T"]
                   then Some (Raw.outcome x) else None
       | None => None
       end
  /\ Canon.tv r = Raw.networks it
  /\ Canon.time_local r = Raw.time_local it
  /\ Canon.nu_rank r = Raw.nu_rank it
  /\ Canon.opp_rank r = Raw.opp_rank it
  /\ Canon.nu_logo r = Raw.nebraska_logo_url it
  /\ Canon.opp_logo r = Raw.opponent_logo_url it
  /\ Canon.tv_logo r = Raw.tv_network_logo_url it
  /\ Canon.links r = Raw.links it.
Proof.
  unfold normalize_item. cbv zeta.
  repeat match goal with
         | |- (if ?c then _ else _) = _ -> _ => destruct c; [discriminate |]
         end.
  destruct (resolve_date y it); [| discriminate].
  intros [= <-]. simpl. repeat split.
Qed.

Lemma in_list_in s l : In s l -> in_list s l = true.
Proof.
  intro H. unfold in_list. apply existsb_exists. exists s.
  split; [exact H | apply String.eqb_refl].
Qed.

(** X13: on a record of the Extractor the Normalizer adds nothing of its
    own: the row, when there is one, has the record's opponent name, status
    and venue type, its time, ranks, logos and links, the outcome letter as
    result_css and no network; its status is final exactly when it has a
    result; and the record is dropped only as the exhibition, as a
    placeholder or for want of a date, never for its name being empty. *)
Theorem extractor_record_survives_unchanged :
  forall ev item y,
    parse_event ev = Some item ->
    (forall r,
        normalize_item y item = Some r ->
        Some (Canon.opponent r) = Raw.opponent_name item
        /\ Some (Canon.status r) = Raw.status item
        /\ Some (Canon.home_away r) = Raw.venue_type item
        /\ (Canon.status r = "final" <-> Canon.result r <> None)
        /\ Canon.result_css r = option_map Raw.outcome (Raw.result item)
        /\ Canon.tv r = []
        /\ Canon.time_local r = Raw.time_local item
        /\ Canon.nu_rank r = Raw.nu_rank item
        /\ Canon.opp_rank r = Raw.opp_rank item
        /\ Canon.nu_logo r = Raw.nebraska_logo_url item
        /\ Canon.opp_logo r = Raw.opponent_logo_url item
        /\ Canon.tv_logo r = Raw.tv_network_logo_url item
        /\ Canon.links r = Raw.links item)
    /\ (normalize_item y item = None <->
        exists name,
          Raw.opponent_name item = Some name
          /\ (Text.contains (Text.lower name) EXHIBITION = true
              \/ Text.startswith (Text.lower name) PLACEHOLDER = true
              \/ resolve_date y item = None)).
Proof.
  intros ev item y H.
  destruct (extractor_record_invariant _ _ H)
    as ((name & N & Nn & Ns) & (han & V & Vi) & (status & S & Si & Sf & _)
        & O & _ & _ & K).
  assert (Nm : Text.strip (or_str (Raw.opponent_name item) "") = name).
  { rewrite N. unfold or_str.
    rewrite (proj2 (truthy_true name) Nn). exact Ns. }
  split.
  - intros r R. pose proof (normalize_item_some _ _ _ R) as (_ & _ & _ & _ & Op & _).
    apply normalize_item_fields in R.
    destruct R as (R1 & R2 & R3 & R4 & R5 & R6 & R7 & R8 & R9 & R10 & R11 & R12).
    assert (D : derive_status item = status).
    { unfold derive_status. rewrite S. unfold or_str.
      assert (T : Text.truthy status = true)
        by (destruct Si as [<- | [<- | [<- | []]]]; reflexivity).
      rewrite T. unfold STATUSES. now rewrite (in_list_in _ _ Si). }
    repeat split; trivial; try congruence.
    + rewrite R2, V. unfold or_str.
      destruct Vi as [<- | [<- | [<- | []]]]; reflexivity.
    + rewrite R1, D, R3. intro F. apply Sf in F.
      destruct (Raw.result item); [discriminate | congruence].
    + rewrite R1, D, R3. intro F. apply Sf.
      destruct (Raw.result item); [discriminate | now elim F].
    + rewrite R4. destruct (Raw.result item) as [x |]; [| reflexivity].
      now rewrite (in_list_in _ _ (O x eq_refl)).
  - rewrite normalize_item_none. unfold drop_as_coded. cbv zeta. rewrite Nm.
    split.
    + intros [E | C]; [congruence |]. now exists name.
    + intros (n & E & C). rewrite N in E. injection E as <-. now right.
Qed.

Lemma extractor_record_survives_unchanged_witness :
  parse_event purdue_event = Some purdue_item
  /\ normalize_item 2024 purdue_item = Some (purdue_row "Purdue" (Some 4))
  /\ Some "final" = Raw.status purdue_item.
Proof.
  assert (E : parse_event purdue_event = Some purdue_item) by reflexivity.
  assert (R : normalize_item 2024 purdue_item = Some (purdue_row "Purdue" (Some 4)))
    by reflexivity.
  split; [exact E |]. split; [exact R |].
  exact (proj1 (proj2
    (proj1 (extractor_record_survives_unchanged _ _ 2024 E) _ R))).
Defined.

(** ** Links *)

Lemma parse_link_some a l :
  parse_link a = Some l ->
  exists h,
    Dom.a_href a = Some h /\ h <> ""
    /\ href l = (if Text.startswith h "/" then "https://huskers.com" ++ h else h)
    /\ title l = or_opt (safe_text (Dom.a_title a)) (clean (safe_text (Dom.a_text a))).
Proof.
  unfold parse_link.
  destruct (truthy_opt (Dom.a_href a)) as [h |] eqn:E; [| discriminate].
  apply truthy_opt_some in E. destruct E as [E T].
  intros [= <-]. exists h. simpl. repeat split; trivial. now apply truthy_true.
Qed.

(** X14: every link of a record comes from an anchor of the row that has a
    target, anchors without one being left out; its target is not empty and
    never site-relative: a target that begins with a slash is put behind the
    site's origin, any other is kept as it is. *)
Theorem links_are_absolute :
  forall ev item l,
    parse_event ev = Some item -> In l (Raw.links item) ->
    href l <> "" /\ Text.startswith (href l) "/" = false
    /\ (List.length (Raw.links item) <= List.length (Dom.anchors ev))%nat
    /\ exists a h,
         In a (Dom.anchors ev) /\ Dom.a_href a = Some h
         /\ href l = (if Text.startswith h "/"
                      then "https://huskers.com" ++ h else h).
Proof.
  intros ev item l H Hl. apply parse_event_fields in H. cbv zeta in H.
  destruct H as (_ & _ & _ & _ & _ & _ & _ & _ & _ & _ & L & _).
  rewrite L in *. apply collect_in in Hl. destruct Hl as (a & Ha & Hp).
  apply parse_link_some in Hp. destruct Hp as (h & Hh & Hn & Hr & _).
  assert (R : href l <> "" /\ Text.startswith (href l) "/" = false).
  { rewrite Hr. destruct (Text.startswith h "/") eqn:S.
    - split; [discriminate | reflexivity].
    - split; assumption. }
  destruct R as [R1 R2].
  split; [exact R1 |]. split; [exact R2 |].
  split; [apply collect_length |]. now exists a, h.
Qed.

Lemma links_are_absolute_witness :
  parse_event ticket_event = Some ticket_item
  /\ In ticket_link (Raw.links ticket_item)
  /\ href ticket_link <> ""
  /\ Text.startswith (href ticket_link) "/" = false.
Proof.
  assert (E : parse_event ticket_event = Some ticket_item) by reflexivity.
  assert (I : In ticket_link (Raw.links ticket_item)) by (left; reflexivity).
  split; [exact E |]. split; [exact I |].
  destruct (links_are_absolute _ _ _ E I) as (H1 & H2 & _).
  split; assumption.
Defined.

(** ** The date of an event *)

Section DateAttr.
Import Text TextFacts.

Lemma contains_char c d s :
  contains (String d s) (String c "")
  = (c =? d)%char || contains s (String c "").
Proof.
  cbn [contains String.prefix].
  destruct (ascii_dec c d) as [-> | N].
  - rewrite Ascii.eqb_refl. now destruct s.
  - now rewrite (proj2 (Ascii.eqb_neq c d) N).
Qed.

Lemma before_T_split s :
  contains s "T" = true ->
  exists rest, s = before_T s ++ "T" ++ rest.
Proof.
  induction s as [| c s IH]; [discriminate |].
  rewrite contains_char. unfold before_T. cbn [take_while].
  rewrite (Ascii.eqb_sym c "T").
  destruct (Ascii.eqb_spec "T" c) as [<- | N]; cbn [negb orb].
  - intros _. now exists s.
  - intro H. destruct (IH H) as (rest & E). exists rest.
    unfold before_T in E. cbn [append]. f_equal. exact E.
Qed.

Lemma before_T_free s : contains (before_T s) "T" = false.
Proof.
  induction s as [| c s IH]; [reflexivity |].
  unfold before_T in *. cbn [take_while].
  destruct (c =? "T")%char eqn:E; cbn [negb]; [reflexivity |].
  rewrite contains_char, Ascii.eqb_sym, E. exact IH.
Qed.

End DateAttr.

(** X15: the date of a record, when it has one, is the part of the first
    non-empty [datetime] attribute that stands before its first T, and
    holds no T itself; an attribute without a T gives no date. *)
Theorem event_date_is_before_T :
  forall ev item,
    parse_event ev = Some item ->
    (forall d,
        Raw.date item = Some d ->
        Text.contains d "T" = false
        /\ exists attr rest,
             or_opt (Dom.date_datetime ev) (Dom.any_datetime ev) = Some attr
             /\ attr = d ++ "T" ++ rest)
    /\ (forall attr,
          or_opt (Dom.date_datetime ev) (Dom.any_datetime ev) = Some attr ->
          Text.contains attr "T" = false -> Raw.date item = None).
Proof.
  intros ev item H. apply parse_event_fields in H. cbv zeta in H.
  destruct H as (_ & _ & _ & _ & _ & _ & _ & _ & D & _).
  rewrite D. unfold parse_dates. simpl.
  set (iso_dt := or_opt (Dom.date_datetime ev) (Dom.any_datetime ev)).
  split.
  - intros d. destruct (truthy_opt iso_dt) as [s |] eqn:E; [| discriminate].
    apply truthy_opt_some in E. destruct E as [E _].
    destruct (Text.contains s "T") eqn:C; [| discriminate].
    intros [= <-]. split; [apply before_T_free |].
    destruct (before_T_split _ C) as (rest & R). now exists s, rest.
  - intros attr E C. rewrite E. simpl. unfold nonempty.
    destruct (Text.truthy attr); [now rewrite C | reflexivity].
Qed.

Lemma event_date_is_before_T_witness :
  parse_event ticket_event = Some ticket_item
  /\ Raw.date ticket_item = Some "2025-11-05"
  /\ Text.contains "2025-11-05" "T" = false.
Proof.
  assert (E : parse_event ticket_event = Some ticket_item) by reflexivity.
  split; [exact E |]. split; [reflexivity |].
  exact (proj1 (proj1 (event_date_is_before_T _ _ E) _ eq_refl)).
Defined.

(** ** The order of the rank sources *)

Lemma label_rank x :
  match truthy_opt (safe_text x) with
  | Some txt => rank_in txt
  | None => None
  end = rank_in (or_str (safe_text x) "").
Proof.
  unfold truthy_opt, nonempty, or_str.
  destruct (safe_text x) as [t |]; [| reflexivity].
  destruct (Text.truthy t); reflexivity.
Qed.

(** X16: the first source that shows a rank wins.  Nebraska's rank is the
    one in the first image wrapper, else the one in the home rank label.
    The opponent's rank is the one of the name prefix when the name has one,
    whatever the wrappers and labels show, else the one in the second image
    wrapper, else the one in the away rank label; the name loses its prefix
    only in the first case. *)
Theorem rank_sources_in_order :
  forall ev item,
    parse_event ev = Some item ->
    Raw.nu_rank item
    = first_rank (rank_in (wrapper_text ev 0)) (rank_in (home_rank_text ev))
    /\ Raw.opp_rank item
       = match match_rank_name (name_text ev) with
         | Some (dig, _) => Some (Text.int_of dig)
         | None => first_rank (rank_in (wrapper_text ev 1))
                     (rank_in (away_rank_text ev))
         end
    /\ Raw.opponent_name item
       = Some (match match_rank_name (name_text ev) with
               | Some (_, rest) => Text.strip rest
               | None => name_text ev
               end).
Proof.
  intros ev item H. apply parse_event_some in H.
  destruct H as (_ & _ & _ & N & U & O). rewrite N, U, O.
  unfold parse_ranks, wrapper_text, home_rank_text, away_rank_text, first_rank.
  rewrite <- !label_rank.
  destruct (match_rank_name (name_text ev)) as [[dig rest] |];
    destruct (nth_error (Dom.wrappers ev) 0) as [w0 |];
    destruct (nth_error (Dom.wrappers ev) 1) as [w1 |];
    cbn [fst snd];
    repeat match goal with
           | |- context [rank_in (or_str (safe_text (Dom.w_text ?w)) "")] =>
               destruct (rank_in (or_str (safe_text (Dom.w_text w)) ""))
           end;
    repeat split; reflexivity.
Qed.

Lemma rank_sources_in_order_witness :
  parse_event iowa_event = Some iowa_item
  /\ Raw.nu_rank iowa_item
     = first_rank (rank_in (wrapper_text iowa_event 0))
         (rank_in (home_rank_text iowa_event)).
Proof.
  assert (E : parse_event iowa_event = Some iowa_item) by reflexivity.
  split; [exact E |].
  exact (proj1 (rank_sources_in_order _ _ E)).
Defined.

(** ** The arena of a row *)

Section ArenaFacts.
Import Text TextFacts.

Lemma rstrip_prefix p s : exists rest, s = rstrip_with p s ++ rest.
Proof.
  induction s as [| c s (rest & IH)]; [now exists "" |]. simpl.
  destruct (rstrip_with p s) as [| a r] eqn:R.
  - destruct (p c); [now exists (String c s) |].
    exists s. reflexivity.
  - exists rest. cbn [append]. f_equal. exact IH.
Qed.

Lemma sub_presented_by_prefix s :
  ends_with_newline s = false -> exists rest, s = sub_presented_by s ++ rest.
Proof.
  induction s as [| c s IH]; intro E.
  - exists "". reflexivity.
  - cbn [sub_presented_by]. destruct (suffix_here (String c s)).
    + rewrite E. now exists (String c s).
    + cbn [ends_with_newline] in E.
      destruct s as [| d s]; [now exists "" |].
      change (String d s =? "")%string with false in E. cbv iota in E.
      destruct (IH E) as (rest & R). exists rest. cbn [append]. now f_equal.
Qed.

Lemma ends_with_newline_space s :
  ends_with_newline s = true -> ends_in is_space s = true.
Proof.
  induction s as [| c s IH]; [discriminate |]. simpl.
  destruct (s =? "")%string; [| exact IH].
  unfold is_newline. intro H. apply Ascii.eqb_eq in H. now subst c.
Qed.

Lemma strip_not_newline s : ends_with_newline (strip s) = false.
Proof.
  destruct (ends_with_newline (strip s)) eqn:E; [| reflexivity].
  apply ends_with_newline_space in E.
  destruct (strip_with_ends is_space s) as [_ F]. unfold strip in E. congruence.
Qed.

Lemma strip_of_prefix t u rest :
  at_run is_space t = false -> t = u ++ rest ->
  exists rest', t = strip u ++ rest'.
Proof.
  intros A E. unfold strip, strip_with.
  assert (D : drop_while is_space u = u).
  { apply drop_while_id. destruct u as [| c u]; [reflexivity |].
    rewrite E in A. exact A. }
  rewrite D. destruct (rstrip_prefix is_space u) as (r & R).
  exists (r ++ rest). rewrite <- app_assoc, <- R. exact E.
Qed.

Lemma prefix_app a x : String.prefix a (a ++ x) = true.
Proof.
  induction a as [| c a IH]; simpl; [now destruct x |].
  destruct (ascii_dec c c); [exact IH | congruence].
Qed.

Lemma contains_suffix a b p : contains b p = true -> contains (a ++ b) p = true.
Proof.
  intro H. induction a as [| c a IH]; [exact H |].
  cbn [append contains]. rewrite IH. apply orb_true_r.
Qed.

Lemma map_app g a b : map g (a ++ b) = map g a ++ map g b.
Proof. induction a as [| c a IH]; simpl; congruence. Qed.

Lemma suffix_here_contains s :
  all is_ascii s = true ->
  suffix_here s = true -> contains (lower s) PRESENTED_BY = true.
Proof.
  unfold suffix_here, phrase_here. intros _ H.
  apply andb_true_iff in H. destruct H as [H _].
  apply andb_true_iff in H. destruct H as [H _].
  apply String.eqb_eq in H.
  rewrite <- (span is_space s). unfold lower. rewrite map_app.
  apply contains_suffix.
  rewrite <- (take_drop 12 (drop_while is_space s)), map_app.
  fold (lower (take 12 (drop_while is_space s))). rewrite H.
  destruct (map lower_char (drop 12 (drop_while is_space s))); reflexivity.
Qed.

Lemma sub_presented_by_unchanged s :
  all is_ascii s = true ->
  contains (lower s) PRESENTED_BY = false -> sub_presented_by s = s.
Proof.
  induction s as [| c s IH]; intros A H; [reflexivity |].
  cbn [sub_presented_by].
  destruct (suffix_here (String c s)) eqn:E.
  - apply (suffix_here_contains _ A) in E. congruence.
  - cbn [all] in A. apply andb_true_iff in A. destruct A as [_ A].
    f_equal. apply (IH A). unfold lower in H. cbn [map contains] in H.
    now apply orb_false_iff in H.
Qed.

Lemma normalize_item_place y it r :
  normalize_item y it = Some r ->
  Canon.arena r = clean_arena it /\ Canon.city r = stripped (Raw.city it).
Proof.
  unfold normalize_item. cbv zeta.
  repeat match goal with
         | |- (if ?c then _ else _) = _ -> _ => destruct c; [discriminate |]
         end.
  destruct (resolve_date y it); [| discriminate].
  intros [= <-]. simpl. now split.
Qed.

End ArenaFacts.

(** X17: the Normalizer only ever cuts a tail off the arena: the arena of a
    row is stripped and is a prefix of the record's stripped arena; it is
    that stripped arena itself when this is a text of ASCII in which the
    sponsor phrase does not occur, in either case; and a row has no arena
    exactly when the record's arena is absent or blank. *)
Theorem arena_is_cut_not_changed :
  forall y it r,
    normalize_item y it = Some r ->
    (forall a,
        Canon.arena r = Some a ->
        Text.strip a = a
        /\ exists raw rest,
             Raw.arena it = Some raw /\ Text.strip raw = a ++ rest)
    /\ (forall raw,
          Raw.arena it = Some raw -> Text.strip raw <> "" ->
          Text.all is_ascii (Text.strip raw) = true ->
          Text.contains (Text.lower (Text.strip raw)) PRESENTED_BY = false ->
          Canon.arena r = Some (Text.strip raw))
    /\ (Canon.arena r = None <-> stripped (Raw.arena it) = None).
Proof.
  intros y it r H. apply normalize_item_place in H. destruct H as [-> _].
  unfold clean_arena, stripped, nonempty.
  split; [| split].
  - intros a. destruct (Raw.arena it) as [raw |] eqn:A;
      [| discriminate]. rewrite or_str_some_id.
    destruct (Text.truthy (Text.strip raw)); [| discriminate].
    intros [= <-]. split; [apply strip_twice |].
    exists raw.
    destruct (sub_presented_by_prefix _ (strip_not_newline raw)) as (rest & R).
    destruct (strip_of_prefix _ _ _
                (proj1 (strip_with_ends Text.is_space raw)) R) as (rest' & R').
    now exists rest'.
  - intros raw [= ->] N A C. rewrite or_str_some_id.
    rewrite (proj2 (truthy_true _) N). simpl.
    now rewrite (sub_presented_by_unchanged _ A C), strip_twice.
  - destruct (Text.truthy (Text.strip (or_str (Raw.arena it) "")));
      simpl; split; congruence.
Qed.

Lemma arena_is_cut_not_changed_witness :
  (normalize_item 2025 (arena_raw " Pinnacle Bank Arena presented by SCHEELS ")
     = Some (arena_row (Some "Pinnacle Bank Arena") "pinnacle-bank-arena")
   /\ Text.strip "Pinnacle Bank Arena" = "Pinnacle Bank Arena"
   /\ exists raw rest,
        Raw.arena (arena_raw " Pinnacle Bank Arena presented by SCHEELS ")
          = Some raw
        /\ Text.strip raw = "Pinnacle Bank Arena" ++ rest)
  /\ (normalize_item 2025 (arena_raw " Devaney Center ")
        = Some (arena_row (Some "Devaney Center") "devaney-center")
      /\ Text.all is_ascii (Text.strip " Devaney Center ") = true
      /\ Canon.arena (arena_row (Some "Devaney Center") "devaney-center")
         = Some (Text.strip " Devaney Center ")).
Proof.
  assert (E : normalize_item 2025
                (arena_raw " Pinnacle Bank Arena presented by SCHEELS ")
    = Some (arena_row (Some "Pinnacle Bank Arena") "pinnacle-bank-arena"))
    by reflexivity.
  assert (E' : normalize_item 2025 (arena_raw " Devaney Center ")
               = Some (arena_row (Some "Devaney Center") "devaney-center"))
    by reflexivity.
  assert (N : Text.strip " Devaney Center " <> "") by discriminate.
  assert (A : Text.all is_ascii (Text.strip " Devaney Center ") = true)
    by reflexivity.
  split.
  - split; [exact E |].
    exact (proj1 (arena_is_cut_not_changed _ _ _ E) _ eq_refl).
  - split; [exact E' |]. split; [exact A |].
    exact (proj1 (proj2 (arena_is_cut_not_changed _ _ _ E'))
             " Devaney Center " eq_refl N A eq_refl).
Defined.

(** ** The location of an event row *)

Section LocationFacts.
Import Text TextFacts.

Lemma last_char_split s :
  s <> "" ->
  exists init,
    s = init ++ last_char s /\ last_char s <> ""
    /\ forall p, all p s = true -> all p init = true.
Proof.
  induction s as [| c s IH]; [congruence |]. intros _. cbn [last_char].
  destruct s as [| d s].
  - exists "". now repeat split.
  - change (String d s =? "")%string with false. cbv iota.
    destruct IH as (init & E & N & A); [discriminate |].
    exists (String c init). repeat split.
    + cbn [append]. now f_equal.
    + exact N.
    + intros p. cbn [all]. intro H. apply andb_true_iff in H.
      destruct H as [H1 H2]. rewrite H1. cbn [all] in A. now apply A.
Qed.

Lemma drop_while_empty_all p s : drop_while p s = "" -> all p s = true.
Proof.
  induction s as [| c s IH]; [reflexivity |]. simpl.
  destruct (p c); [exact IH | discriminate].
Qed.

Lemma slash_tail_split t g2 :
  slash_tail t = Some g2 ->
  g2 <> ""
  /\ exists ws1 ws2,
       t = ws1 ++ String "/" (ws2 ++ g2)
       /\ all is_space ws1 = true /\ all is_space ws2 = true.
Proof.
  unfold slash_tail. intro H.
  pose proof (span is_space t) as S.
  pose proof (all_take_while is_space t) as A.
  destruct (drop_while is_space t) as [| c rest]; [discriminate |].
  destruct c as [[] [] [] [] [] [] [] []]; try discriminate.
  destruct (truthy rest) eqn:T; [| discriminate].
  injection H as <-.
  pose proof (span is_space rest) as S'.
  pose proof (all_take_while is_space rest) as A'.
  destruct (drop_while is_space rest) as [| d r] eqn:D.
  - destruct (last_char_split rest) as (init & E & N & I).
    { intros ->. discriminate. }
    split; [exact N |].
    exists (take_while is_space t), init. repeat split.
    + rewrite <- E. now symmetry.
    + exact A.
    + apply I. now apply drop_while_empty_all.
  - split; [discriminate |].
    exists (take_while is_space t), (take_while is_space rest).
    repeat split; [| exact A | exact A'].
    rewrite S'. now symmetry.
Qed.

Lemma slash_tail_of_slash rest :
  rest <> "" -> slash_tail (String "/" rest) <> None.
Proof.
  intro N. unfold slash_tail. cbn [drop_while].
  change (is_space "/") with false. cbv iota.
  destruct rest; [congruence |]. discriminate.
Qed.

Lemma app_nonempty_r a b : b <> "" -> a ++ b <> "".
Proof. destruct a; [trivial | discriminate]. Qed.

Lemma search_location_split s g1 g2 :
  search_location s = Some (g1, g2) ->
  g1 <> "" /\ g2 <> ""
  /\ any is_slash (drop 1 g1) = false
  /\ exists ws1 ws2,
       s = g1 ++ ws1 ++ String "/" (ws2 ++ g2)
       /\ all is_space ws1 = true /\ all is_space ws2 = true.
Proof.
  revert g1 g2. induction s as [| c s IH]; intros g1 g2; [discriminate |].
  cbn [search_location].
  destruct (slash_tail s) as [g |] eqn:T.
  - intros [= <- <-].
    destruct (slash_tail_split _ _ T) as (N & ws1 & ws2 & E & A1 & A2).
    repeat split; [discriminate | exact N |].
    exists ws1, ws2. repeat split; [| exact A1 | exact A2].
    cbn [append]. now f_equal.
  - destruct (search_location s) as [[h g] |]; [| discriminate].
    intros [= <- <-].
    destruct (IH _ _ eq_refl) as (N1 & N2 & F & ws1 & ws2 & E & A1 & A2).
    repeat split; [discriminate | exact N2 | |].
    + destruct h as [| d h]; [congruence |].
      change (drop 1 (String c (String d h))) with (String d h).
      change (drop 1 (String d h)) with h in F.
      cbn [any]. rewrite F, orb_false_r.
      destruct (is_slash d) eqn:D; [| reflexivity].
      unfold is_slash in D. apply Ascii.eqb_eq in D. subst d.
      exfalso. rewrite E in T. cbn [append] in T.
      revert T. apply slash_tail_of_slash.
      apply app_nonempty_r. apply app_nonempty_r. discriminate.
    + exists ws1, ws2. repeat split; [| exact A1 | exact A2].
      cbn [append]. now f_equal.
Qed.

Lemma any_drop_while p q s : any q s = false -> any q (drop_while p s) = false.
Proof.
  induction s as [| c s IH]; [trivial |]. cbn [any drop_while]. intro H.
  apply orb_false_iff in H. destruct H as [H1 H2].
  destruct (p c); [now apply IH |]. cbn [any]. now rewrite H1, H2.
Qed.

Lemma slash_tail_needs_slash t : any is_slash t = false -> slash_tail t = None.
Proof.
  intro H. apply (any_drop_while is_space) in H. unfold slash_tail.
  destruct (drop_while is_space t) as [| c rest]; [reflexivity |].
  destruct c as [[] [] [] [] [] [] [] []]; try reflexivity.
  discriminate.
Qed.

Lemma search_location_needs_slash s :
  any is_slash s = false -> search_location s = None.
Proof.
  induction s as [| c s IH]; [reflexivity |]. cbn [any search_location].
  intro H. apply orb_false_iff in H. destruct H as [_ H].
  now rewrite (slash_tail_needs_slash _ H), (IH H).
Qed.

End LocationFacts.

(** X18: the location is split at the first slash that follows its first
    character.  When an event has a city, its cleaned location text is
    a non-empty part with no slash after its first character, white space,
    a slash, white space and a non-empty rest; the city is the first part
    stripped and the arena the stripped rest up to the sponsor phrase.  A
    location without a slash gives neither, and an event has a city
    exactly when it has an arena. *)
Theorem location_splits_at_first_slash :
  forall ev item,
    parse_event ev = Some item ->
    (forall c,
        Raw.city item = Some c ->
        exists g1 ws1 ws2 g2,
          location_text ev = g1 ++ ws1 ++ "/" ++ ws2 ++ g2
          /\ c = Text.strip g1
          /\ Raw.arena item = Some (sub_presented_by (Text.strip g2))
          /\ g1 <> "" /\ g2 <> ""
          /\ Text.any is_slash (Text.drop 1 g1) = false
          /\ Text.all Text.is_space ws1 = true
          /\ Text.all Text.is_space ws2 = true)
    /\ (Text.any is_slash (location_text ev) = false ->
        Raw.city item = None /\ Raw.arena item = None)
    /\ (Raw.city item = None <-> Raw.arena item = None).
Proof.
  intros ev item H. apply parse_event_fields in H. cbv zeta in H.
  destruct H as (_ & _ & -> & -> & _).
  unfold parse_location. fold (location_text ev).
  destruct (search_location (location_text ev)) as [[g1 g2] |] eqn:S.
  - cbn [fst snd]. split; [| split].
    + intros c [= <-].
      destruct (search_location_split _ _ _ S)
        as (N1 & N2 & F & ws1 & ws2 & E & A1 & A2).
      exists g1, ws1, ws2, g2. repeat split; trivial.
    + intro A. rewrite (search_location_needs_slash _ A) in S. discriminate.
    + split; discriminate.
  - cbn [fst snd]. split; [discriminate |]. split; [now split | now split].
Qed.

Lemma location_splits_at_first_slash_witness :
  exists g1 ws1 ws2 g2,
    location_text home_event = g1 ++ ws1 ++ "/" ++ ws2 ++ g2
    /\ "Lincoln, Neb." = Text.strip g1
    /\ Raw.arena home_item = Some (sub_presented_by (Text.strip g2))
    /\ g1 <> "" /\ g2 <> ""
    /\ Text.any is_slash (Text.drop 1 g1) = false
    /\ Text.all Text.is_space ws1 = true
    /\ Text.all Text.is_space ws2 = true.
Proof.
  exact (proj1 (location_splits_at_first_slash home_event home_item
                  eq_refl) "Lincoln, Neb." eq_refl).
Defined.

(** ** The entry point *)

(** X19: what [main] writes on poor input.  With no raw file, or a blob
    without the key [items], it writes no rows.  With a blob whose capture
    timestamp is missing, null or empty, the season is read off the clock
    of the run: the rows are those of the items, for the season start year
    of the present moment, in key order.  The empty text is no ISO
    timestamp to the time library. *)
Theorem main_on_poor_input :
  forall to_central now,
    to_central "" = None ->
    main_rows to_central now None = []
    /\ (forall b, blob_items b = None -> main_rows to_central now (Some b) = [])
    /\ (forall b items,
          blob_items b = Some items ->
          blob_scraped_at b = None \/ blob_scraped_at b = Some "" ->
          main_rows to_central now (Some b)
          = sort_by sort_key
              (collect (normalize_item (detect_season_start_year now)) items)).
Proof.
  intros to_central now E. split; [reflexivity |]. split.
  - intros b B. unfold main_rows. now rewrite B.
  - intros b items B S. unfold main_rows, normalize. rewrite B.
    rewrite (season_of_unparsed to_central now); [reflexivity |].
    destruct S as [-> | ->]; exact E.
Qed.

Lemma main_on_poor_input_witness :
  main_rows Central.of_iso early_april
    (Some {| blob_scraped_at := None; blob_items := Some [nov5_raw] |})
  = sort_by sort_key
      (collect (normalize_item (detect_season_start_year early_april))
         [nov5_raw]).
Proof.
  exact (proj2 (proj2 (main_on_poor_input Central.of_iso early_april eq_refl))
           {| blob_scraped_at := None; blob_items := Some [nov5_raw] |}
           [nov5_raw] eq_refl (or_introl eq_refl)).
Defined.
